(** * forecast_poc: the data-preparation cells and the import-job poll loop

    A shallow embedding of the two notebooks of the repository
    (target time series, related time series): the pandas cells that
    de-duplicate, re-index, forward-fill and export the traffic data set,
    and the [while True] loop that polls the import job. *)

From Stdlib Require Import ZArith List Bool String Ascii DecimalString Sorted FinFun Lia.
Import ListNotations.
Open Scope Z_scope.

(** ** Data frames *)

Module Pandas.

(** A cell of a frame.  [NaN] stands for pandas' missing value (NaN in a
    float64 column, None/NaN in an object column).  A numeric reading is
    identified by its value in hundredths (269.75 is [Num 26975]); the
    cells of an object column are strings. *)
Inductive cell : Type :=
| NaN
| Num (x : Z)
| Str (s : string).

Definition cell_eqb (a b : cell) : bool :=
  match a, b with
  | NaN, NaN => true
  | Num x, Num y => x =? y
  | Str s, Str t => String.eqb s t
  | _, _ => false
  end.

Fixpoint cells_eqb (a b : list cell) : bool :=
  match a, b with
  | [], [] => true
  | x :: a', y :: b' => cell_eqb x y && cells_eqb a' b'
  | _, _ => false
  end.

Definition isnull (c : cell) : bool :=
  match c with NaN => true | _ => false end.

(** A row is its index label (a timestamp, in seconds since the epoch)
    and its cells, one per column. *)
Abbreviation row := (Z * list cell)%type.

Record DataFrame : Type := mkFrame {
  columns : list string;
  rows : list row
}.

Definition index (df : DataFrame) : list Z := map fst (rows df).

(** [df.drop_duplicates(keep='first')]: a row is a duplicate when its
    column values were already seen in an earlier row.  The index is not
    one of the columns, so it takes no part in the comparison. *)
Fixpoint drop_duplicates_rows (seen : list (list cell)) (rs : list row)
  : list row :=
  match rs with
  | [] => []
  | r :: rs' =>
      if existsb (cells_eqb (snd r)) seen
      then drop_duplicates_rows seen rs'
      else r :: drop_duplicates_rows (snd r :: seen) rs'
  end.

Definition drop_duplicates (df : DataFrame) : DataFrame :=
  mkFrame (columns df) (drop_duplicates_rows [] (rows df)).


(** [pd.date_range(start=.., end=.., freq=..)]: the instants from [start]
    on, one step apart, up to and including [end_] when it is reached.
    The loop runs on fuel, and stops by its own test before the fuel is
    used up (lemma [date_range_from_stops]).  Offsets are positive
    durations ('H' is 3600 seconds); for a step that is not, the range is
    left empty. *)
Fixpoint date_range_from (fuel : nat) (t end_ freq : Z) : list Z :=
  match fuel with
  | O => []
  | S fuel' =>
      if t <=? end_ then t :: date_range_from fuel' (t + freq) end_ freq
      else []
  end.

Definition date_range (start end_ freq : Z) : list Z :=
  if 0 <? freq
  then date_range_from (Z.to_nat ((end_ - start) / freq + 1)) start end_ freq
  else [].

(** The [n] instants that start at [start] and are [freq] apart. *)
Definition axis (start freq : Z) (n : nat) : list Z :=
  map (fun i => start + Z.of_nat i * freq) (seq 0 n).

(** The union of two indexes, sorted, each label once. *)
Fixpoint insert_key (k : Z) (l : list Z) : list Z :=
  match l with
  | [] => [k]
  | x :: l' =>
      if k <? x then k :: l
      else if k =? x then l
      else x :: insert_key k l'
  end.

Definition sorted_union (l1 l2 : list Z) : list Z :=
  fold_right insert_key [] (l1 ++ l2).

Definition nan_row (w : nat) : list cell := repeat NaN w.

Definition rows_at (k : Z) (rs : list row) : list row :=
  filter (fun r => fst r =? k) rs.

(** The rows an outer join produces for the label [k]: every row of the
    right frame that carries the label, in the right frame's order, or a
    single all-NaN row when there is none. *)
Definition joined_rows (w : nat) (other : list row) (k : Z) : list row :=
  match rows_at k other with
  | [] => [(k, nan_row w)]
  | m => m
  end.

(** [pd.DataFrame(index=idx).join(other, how='outer')], for an index [idx]
    without repeated labels (a [date_range]): the left frame has no
    column.  When [idx] has a label, the result is indexed by the sorted
    union of both indexes, and the rows of [other] are all kept, also
    those whose label repeats or is not in [idx].  When [idx] is empty,
    the result is [other] with its rows in their own order. *)
Definition join_outer (idx : list Z) (other : DataFrame) : DataFrame :=
  mkFrame (columns other)
    match idx with
    | [] => rows other
    | _ :: _ =>
        flat_map (joined_rows (List.length (columns other)) (rows other))
          (sorted_union idx (index other))
    end.

(** [df.loc[lo:]] and [df.loc[lo:hi]] with dates as bounds: the rows
    whose label lies within the bounds, in the order of the frame (on a
    sorted index a stretch of it, on another one a selection by value). *)
Definition loc_from (lo : Z) (df : DataFrame) : DataFrame :=
  mkFrame (columns df) (filter (fun r => lo <=? fst r) (rows df)).

Definition loc_between (lo hi : Z) (df : DataFrame) : DataFrame :=
  mkFrame (columns df)
    (filter (fun r => (lo <=? fst r) && (fst r <=? hi)) (rows df)).

(** [df.replace('', np.nan)] *)
Definition replace_cell (c : cell) : cell :=
  match c with
  | Str s => if String.eqb s EmptyString then NaN else c
  | _ => c
  end.

Definition replace_row (r : row) : row := (fst r, map replace_cell (snd r)).

Definition replace_empty (df : DataFrame) : DataFrame :=
  mkFrame (columns df) (map replace_row (rows df)).

(** [df.ffill()]: a null cell takes the value the same column has in the
    previous row of the result; the first row has no previous row. *)
Fixpoint fill_row (prev cs : list cell) : list cell :=
  match cs with
  | [] => []
  | c :: cs' =>
      match prev with
      | [] => c :: fill_row [] cs'
      | p :: prev' => (if isnull c then p else c) :: fill_row prev' cs'
      end
  end.

Fixpoint ffill_rows (prev : list cell) (rs : list row) : list row :=
  match rs with
  | [] => []
  | r :: rs' =>
      let cs := fill_row prev (snd r) in
      (fst r, cs) :: ffill_rows cs rs'
  end.

Definition ffill (df : DataFrame) : DataFrame :=
  mkFrame (columns df) (ffill_rows [] (rows df)).

(** [df[[name; ...]]]: the named columns, in the order asked for; a name
    that is not a column is a KeyError ([None]).  Column labels are taken
    to be distinct, as they are in the data set. *)
Fixpoint position (name : string) (cols : list string) : option nat :=
  match cols with
  | [] => None
  | c :: cols' =>
      if String.eqb name c then Some O
      else option_map S (position name cols')
  end.

Fixpoint positions (names cols : list string) : option (list nat) :=
  match names with
  | [] => Some []
  | n :: names' =>
      match position n cols, positions names' cols with
      | Some p, Some ps => Some (p :: ps)
      | _, _ => None
      end
  end.

Definition select (names : list string) (df : DataFrame)
  : option DataFrame :=
  match positions names (columns df) with
  | Some ps =>
      Some (mkFrame names
              (map (fun r => (fst r, map (fun p => nth p (snd r) NaN) ps))
                 (rows df)))
  | None => None
  end.

(** [df[name] = value]: a new last column, or the column of that name
    overwritten. *)
Fixpoint set_nth (p : nat) (v : cell) (cs : list cell) : list cell :=
  match p, cs with
  | _, [] => []
  | O, _ :: cs' => v :: cs'
  | S p', c :: cs' => c :: set_nth p' v cs'
  end.

Definition assign (name : string) (v : cell) (df : DataFrame) : DataFrame :=
  match position name (columns df) with
  | Some p =>
      mkFrame (columns df) (map (fun r => (fst r, set_nth p v (snd r))) (rows df))
  | None =>
      mkFrame (columns df ++ [name]) (map (fun r => (fst r, snd r ++ [v])) (rows df))
  end.

(** [df.isnull().any(axis=1)], and whether it holds of no row. *)
Definition row_has_null (r : row) : bool := existsb isnull (snd r).

Definition null_free (df : DataFrame) : bool :=
  forallb (fun r => negb (row_has_null r)) (rows df).

(** The cells found under the label [t]. *)
Definition loc (t : Z) (df : DataFrame) : list (list cell) :=
  map snd (rows_at t (rows df)).

(** A frame is well formed when every row has one cell per column. *)
Definition rows_width (w : nat) (rs : list row) : Prop :=
  Forall (fun r => List.length (snd r) = w) rs.

Definition well_formed (df : DataFrame) : Prop :=
  rows_width (List.length (columns df)) (rows df).

(** The cell in row [i] (by position) and column [j], and the column [j]
    read from the top. *)
Definition cell_at (i j : nat) (rs : list row) : cell :=
  nth j (snd (nth i rs (0, []))) NaN.

Definition column (j : nat) (rs : list row) : list cell :=
  map (fun r => nth j (snd r) NaN) rs.

(** A cell holds a value when it is neither null nor the empty text. *)
Definition holds_value (c : cell) : bool :=
  match c with
  | NaN => false
  | Num _ => true
  | Str s => negb (String.eqb s EmptyString)
  end.

(** In the words of the description of the fill: the most recent value
    of a column read from the top, that is the last cell of the list that
    holds a value, and NaN when none does. *)
Fixpoint most_recent_value (cells : list cell) : cell :=
  match cells with
  | [] => NaN
  | c :: below =>
      match most_recent_value below with
      | NaN => if holds_value c then c else NaN
      | v => v
      end
  end.

(** The row an outer join produces for [k] when the right frame has at
    most one row with that label. *)
Definition joined_row (w : nat) (other : list row) (k : Z) : row :=
  match rows_at k other with
  | [] => (k, nan_row w)
  | r :: _ => r
  end.


(** What the join makes of a frame whose labels do not repeat once its
    duplicates are dropped: the rows dropped come back as all-NaN rows. *)
Fixpoint masked (w : nat) (seen : list (list cell)) (rs : list row)
  : list row :=
  match rs with
  | [] => []
  | r :: rs' =>
      if existsb (cells_eqb (snd r)) seen
      then (fst r, nan_row w) :: masked w seen rs'
      else r :: masked w (snd r :: seen) rs'
  end.

(** Every row whose values were seen before has the values of the row
    just before it. *)
Fixpoint repeats_follow (seen : list (list cell)) (prev : list cell)
    (rs : list row) : Prop :=
  match rs with
  | [] => True
  | r :: rs' =>
      if existsb (cells_eqb (snd r)) seen
      then snd r = prev /\ repeats_follow seen prev rs'
      else repeats_follow (snd r :: seen) (snd r) rs'
  end.

(** The same, by positions: a row that has the values of an earlier row
    has the values of the row just before it. *)
Definition repeats_adjacent (values : list (list cell)) : Prop :=
  forall i j : nat,
    (i < j)%nat -> (j < List.length values)%nat ->
    nth i values [] = nth j values [] ->
    nth (j - 1) values [] = nth j values [].


(** [df.index.min()] and [df.index.max()]; [None] stands for the NaT of
    an empty index. *)
Definition index_min (df : DataFrame) : option Z :=
  match index df with
  | [] => None
  | t :: l => Some (fold_left Z.min l t)
  end.

Definition index_max (df : DataFrame) : option Z :=
  match index df with
  | [] => None
  | t :: l => Some (fold_left Z.max l t)
  end.

(** [df[df.isnull().any(axis=1)]]: the rows that hold a null. *)
Definition null_rows (df : DataFrame) : DataFrame :=
  mkFrame (columns df) (filter row_has_null (rows df)).


(** The values [drop_duplicates] has seen once it has gone through the
    rows [rs], having seen the values [seen] before them. *)
Fixpoint seen_values (seen : list (list cell)) (rs : list row)
  : list (list cell) :=
  match rs with
  | [] => seen
  | r :: rs' =>
      if existsb (cells_eqb (snd r)) seen
      then seen_values seen rs'
      else seen_values (snd r :: seen) rs'
  end.

(** The same for the rows from the label [lo] on: such a row that has
    the values of an earlier row, be it one before [lo], comes just after
    a row from [lo] on that has these values. *)
Definition repeats_adjacent_from (lo : Z) (rs : list row) : Prop :=
  forall i j : nat,
    (i < j)%nat -> (j < List.length rs)%nat ->
    lo <= fst (nth j rs (0, [])) ->
    snd (nth i rs (0, [])) = snd (nth j rs (0, [])) ->
    lo <= fst (nth (j - 1) rs (0, []))
    /\ snd (nth (j - 1) rs (0, [])) = snd (nth j rs (0, [])).


(** The cells the fill carries on after the rows [rs]: those of the last
    row of [ffill_rows prev rs], and [prev] when there is no row. *)
Fixpoint carried (prev : list cell) (rs : list row) : list cell :=
  match rs with
  | [] => prev
  | r :: rs' => carried (fill_row prev (snd r)) rs'
  end.

End Pandas.

Import Pandas.

(** ** Timestamps and their text *)

Module Timestamp.

(** Instants are seconds since 1970-01-01 00:00:00; the calendar is the
    proleptic Gregorian one, as in [pd.Timestamp]. *)
Definition days_from_civil (y m d : Z) : Z :=
  let y' := if m <=? 2 then y - 1 else y in
  let era := y' / 400 in
  let yoe := y' - era * 400 in
  let mp := (m + 9) mod 12 in
  let doy := (153 * mp + 2) / 5 + d - 1 in
  let doe := yoe * 365 + yoe / 4 - yoe / 100 + doy in
  era * 146097 + doe - 719468.

Definition civil_from_days (z : Z) : Z * Z * Z :=
  let z' := z + 719468 in
  let era := z' / 146097 in
  let doe := z' - era * 146097 in
  let yoe := (doe - doe / 1460 + doe / 36524 - doe / 146096) / 365 in
  let doy := doe - (365 * yoe + yoe / 4 - yoe / 100) in
  let mp := (5 * doy + 2) / 153 in
  let d := doy - (153 * mp + 2) / 5 + 1 in
  let m := if mp <? 10 then mp + 3 else mp - 9 in
  let y := yoe + era * 400 in
  (if m <=? 2 then y + 1 else y, m, d).

Definition timestamp (y m d hh mi ss : Z) : Z :=
  days_from_civil y m d * 86400 + hh * 3600 + mi * 60 + ss.

Definition hour_of (t : Z) : Z := (t mod 86400) / 3600.
Definition minute_of (t : Z) : Z := (t mod 3600) / 60.
Definition second_of (t : Z) : Z := t mod 60.

Definition digit (n : Z) : ascii := ascii_of_nat (48 + Z.to_nat n).

Definition pad2 (n : Z) : string :=
  String (digit (n / 10)) (String (digit (n mod 10)) EmptyString).

Definition pad4 (n : Z) : string :=
  let hi := pad2 (n / 100) in
  let lo := pad2 (n mod 100) in
  (hi ++ lo)%string.

(** The text pandas writes for a date: [%Y-%m-%d]. *)
Definition format_date (t : Z) : string :=
  let '(y, m, d) := civil_from_days (t / 86400) in
  (pad4 y ++ "-" ++ pad2 m ++ "-" ++ pad2 d)%string.

(** The 24-hour clock text [%H:%M:%S]. *)
Definition format_time (t : Z) : string :=
  (pad2 (hour_of t) ++ ":" ++ pad2 (minute_of t) ++ ":"
     ++ pad2 (second_of t))%string.

Definition format_datetime (t : Z) : string :=
  (format_date t ++ " " ++ format_time t)%string.

Definition is_midnight (t : Z) : bool := t mod 86400 =? 0.

(** The length of the months of the Gregorian calendar, by which a
    triple year, month, day is a date. *)
Definition is_leap (y : Z) : bool :=
  ((y mod 4 =? 0) && negb (y mod 100 =? 0)) || (y mod 400 =? 0).

Definition days_in_month (y m : Z) : Z :=
  if m =? 2 then (if is_leap y then 29 else 28)
  else if (m =? 4) || (m =? 6) || (m =? 9) || (m =? 11) then 30
  else 31.

End Timestamp.

(** ** Writing a frame as text *)

Module Csv.

Import Timestamp.

Definition dquote : ascii := "034"%char.
Definition newline : ascii := "010"%char.

Fixpoint contains (p : ascii -> bool) (s : string) : bool :=
  match s with
  | EmptyString => false
  | String c s' => p c || contains p s'
  end.

(** The characters that make the writer quote a field: the separator,
    the quote, and the characters of the line terminator, which is the
    line feed alone; a carriage return is written as it is. *)
Definition special (c : ascii) : bool :=
  Ascii.eqb c ","%char || Ascii.eqb c dquote || Ascii.eqb c newline.

Fixpoint escape_quotes (s : string) : string :=
  match s with
  | EmptyString => EmptyString
  | String c s' =>
      if Ascii.eqb c dquote
      then String dquote (String dquote (escape_quotes s'))
      else String c (escape_quotes s')
  end.

(** Minimal quoting, the default of [to_csv]: a field is quoted only when
    it holds the separator, a quote or a line feed. *)
Definition quote_minimal (s : string) : string :=
  if contains special s
  then String dquote (escape_quotes s ++ String dquote EmptyString)
  else s.

Definition decimal (n : Z) : string :=
  DecimalString.NilZero.string_of_uint (N.to_uint (Z.to_N n)).

(** The text of a float64 held in hundredths: 26975 is 269.75, 7500 is
    75.0.  The numeric columns of the frames written are float64 once the
    join has added a row, and the readings of the data set are far below
    the magnitude (10^13) from which a float no longer tells hundredths
    apart. *)
Definition float_repr (x : Z) : string :=
  let a := Z.abs x in
  let fp := a mod 100 in
  let sign := if x <? 0 then "-"%string else EmptyString in
  let frac :=
    if fp mod 10 =? 0 then String (digit (fp / 10)) EmptyString
    else pad2 fp in
  (sign ++ decimal (a / 100) ++ "." ++ frac)%string.

(** The text of a cell; a missing value is written as nothing ([na_rep]
    is the empty text). *)
Definition cell_field (c : cell) : string :=
  match c with
  | NaN => EmptyString
  | Num x => float_repr x
  | Str s => s
  end.

(** A datetime index is written as dates alone when every label is at
    midnight, and as date and 24-hour time otherwise. *)
Definition index_field (dates_only : bool) (t : Z) : string :=
  if dates_only then format_date t else format_datetime t.

Definition fields_of_row (dates_only : bool) (r : row) : list string :=
  index_field dates_only (fst r) :: map cell_field (snd r).

(** A line: the fields, each quoted if it has to be, with commas between
    them. *)
Fixpoint join_fields (fs : list string) : string :=
  match fs with
  | [] => EmptyString
  | [f] => f
  | f :: fs' => (f ++ String ","%char (join_fields fs'))%string
  end.

Definition write_line (fields : list string) : string :=
  join_fields (map quote_minimal fields).

(** The rows are written in chunks of [100000 // number of columns]
    rows (at least one); whether the index is written as dates alone is
    decided for each chunk. *)
Definition chunksize (df : DataFrame) : nat :=
  Z.to_nat (Z.max 1 (100000 / Z.max 1 (Z.of_nat (List.length (columns df))))).

Fixpoint chunks_of (fuel n : nat) (rs : list row) : list (list row) :=
  match fuel, rs with
  | O, _ => []
  | _, [] => []
  | S fuel', _ => firstn n rs :: chunks_of fuel' n (skipn n rs)
  end.

Definition write_chunk (chunk : list row) : list string :=
  let dates_only := forallb is_midnight (map fst chunk) in
  map (fun r => write_line (fields_of_row dates_only r)) chunk.

(** [df.to_csv(path, header=..)], as the list of the lines written: the
    index first, then the columns in the frame's order; with
    [header=True] a first line holds the column labels, the label of the
    unnamed index being empty. *)
Definition to_csv (header : bool) (df : DataFrame) : list string :=
  (if header then [write_line (EmptyString :: columns df)] else [])
  ++ flat_map write_chunk
       (chunks_of (List.length (rows df)) (chunksize df) (rows df)).

(** Reading a line back, as a reader of comma-separated values does: a
    comma outside quotes ends a field, a quote opens or closes a quoted
    stretch, and two quotes inside a quoted stretch stand for one. *)
Fixpoint read_fields (quoted : bool) (field : string) (s : string)
  : list string :=
  match s with
  | EmptyString => [field]
  | String c s' =>
      if quoted then
        if Ascii.eqb c dquote then
          match s' with
          | String c' s'' =>
              if Ascii.eqb c' dquote
              then read_fields true (field ++ String dquote EmptyString) s''
              else read_fields false field s'
          | EmptyString => read_fields false field s'
          end
        else read_fields true (field ++ String c EmptyString) s'
      else if Ascii.eqb c ","%char then field :: read_fields false EmptyString s'
      else if Ascii.eqb c dquote then read_fields true field s'
      else read_fields false (field ++ String c EmptyString) s'
  end.

Definition read_line (line : string) : list string :=
  read_fields false EmptyString line.

(** What may follow a quoted field: the end of the line, or a character
    other than a quote. *)
Definition ends_field (rest : string) : Prop :=
  match rest with
  | EmptyString => True
  | String c _ => Ascii.eqb c dquote = false
  end.


(** What a field says of the cell it is written for: nothing for a
    missing value, the text itself for a text, and for a number a text
    that is not empty and needs no quoting. *)
Definition field_of_cell (c : cell) (f : string) : Prop :=
  match c with
  | NaN => f = EmptyString
  | Num _ => f <> EmptyString /\ contains special f = false
  | Str s => f = s
  end.

(** The lines hold the frame: one line per row, in the order of the
    rows, which read back as comma-separated values gives the text of the
    index label and then one field per cell. *)
Definition written_as (lines : list string) (df : DataFrame) : Prop :=
  Forall2
    (fun line r =>
       exists (dates_only : bool) (fields : list string),
         read_line line = index_field dates_only (fst r) :: fields
         /\ Forall2 field_of_cell (snd r) fields)
    lines (rows df).

End Csv.

(** ** The cells of the two notebooks *)

Module Notebook.

Import Timestamp Csv.

Definition DATASET_FREQUENCY : string := "H".
Definition TIMESTAMP_FORMAT : string := "yyyy-MM-dd hh:mm:ss".

(** The offset 'H', in seconds. *)
Definition freq_H : Z := 3600.

(** The labels that appear in the cells: '10/02/2012', '09/30/2018',
    '2017-01-01', '2017-12-31' (a day used as the end of a slice runs to
    its last second) and '2018-01-01'. *)
Definition start_2012_10_02 : Z := Eval cbv in timestamp 2012 10 2 0 0 0.
Definition end_2018_09_30 : Z := Eval cbv in timestamp 2018 9 30 0 0 0.
Definition from_2017_01_01 : Z := Eval cbv in timestamp 2017 1 1 0 0 0.
Definition to_2017_12_31 : Z := Eval cbv in timestamp 2017 12 31 23 59 59.
Definition from_2018_01_01 : Z := Eval cbv in timestamp 2018 1 1 0 0 0.

(** The columns of the data set once [date_time] is the index. *)
Definition original_columns : list string :=
  ["holiday"; "temp"; "rain_1h"; "snow_1h"; "clouds_all"; "weather_main";
   "weather_description"; "traffic_volume"]%string.

Section Cells.

(** The cells are read with their literals as parameters: the bounds and
    step of [date_range], and the first label kept by [.loc[..:]]. *)
Variables (start end_ freq lo : Z).

(** [target_df.drop_duplicates(keep='first')], then
    [idx = pd.date_range(..)], [full_df = pd.DataFrame(index=idx)] and
    [full_historical_df = full_df.join(target_df, how='outer')]. *)
Definition idx : list Z := date_range start end_ freq.

Definition full_historical_df (original_data : DataFrame) : DataFrame :=
  join_outer idx (drop_duplicates original_data).

(** [target_df = full_historical_df.copy().loc[lo:]].  The cell that
    follows evaluates [target_df.ffill()] and drops the result, so
    [target_df] stays as it is. *)
Definition target_df (original_data : DataFrame) : DataFrame :=
  let target_df := loc_from lo (full_historical_df original_data) in
  let _ := ffill target_df in
  target_df.

(** The first cell of the related notebook:
    [related_time_series_df = target_df.copy()], a [dropna()] whose result
    is dropped, the join onto [full_df], [replace('', np.nan).ffill()] on
    all columns, and [.loc[lo:]]. *)
Definition related_time_series_df (original_data : DataFrame) : DataFrame :=
  let related := target_df original_data in
  let related := join_outer idx related in
  let related := ffill (replace_empty related) in
  loc_from lo related.

End Cells.

(** The frames written to the three files: a slice, the columns kept,
    and the column [item_ID] set to "1". *)
Definition with_item_ID (names : list string) (df : DataFrame)
  : option DataFrame :=
  option_map (assign "item_ID" (Str "1")) (select names df).

Definition target_time_series_df start end_ freq lo hi original_data :=
  with_item_ID ["traffic_volume"%string]
    (loc_between lo hi (target_df start end_ freq lo original_data)).

Definition validation_time_series_df start end_ freq lo lo' original_data :=
  with_item_ID ["traffic_volume"%string]
    (loc_from lo' (target_df start end_ freq lo original_data)).

Definition related_columns : list string :=
  ["temp"; "rain_1h"; "snow_1h"; "clouds_all"; "weather_description"]%string.

Definition related_time_series_export start end_ freq lo original_data :=
  with_item_ID related_columns
    (related_time_series_df start end_ freq lo original_data).

(** [df.to_csv(path, header=False)] *)
Definition write_csv (df : option DataFrame) : option (list string) :=
  option_map (to_csv false) df.

(** The run of the notebooks, with their literals. *)
Definition target_time_series_csv (original_data : DataFrame) :=
  write_csv (target_time_series_df start_2012_10_02 end_2018_09_30 freq_H
               from_2017_01_01 to_2017_12_31 original_data).

Definition validation_time_series_csv (original_data : DataFrame) :=
  write_csv (validation_time_series_df start_2012_10_02 end_2018_09_30 freq_H
               from_2017_01_01 from_2018_01_01 original_data).

Definition related_time_series_csv (original_data : DataFrame) :=
  write_csv (related_time_series_export start_2012_10_02 end_2018_09_30 freq_H
               from_2017_01_01 original_data).

(** The schemas handed to [create_dataset]. *)
Record SchemaAttribute : Type := mkAttribute {
  AttributeName : string;
  AttributeType : string
}.

Definition schema : list SchemaAttribute :=
  [mkAttribute "timestamp" "timestamp";
   mkAttribute "target_value" "float";
   mkAttribute "item_id" "string"].

Definition related_schema : list SchemaAttribute :=
  [mkAttribute "timestamp" "timestamp";
   mkAttribute "temperature" "float";
   mkAttribute "rain_1h" "float";
   mkAttribute "snow_1h" "float";
   mkAttribute "clouds_all" "float";
   mkAttribute "weather" "string";
   mkAttribute "item_id" "string"].


(** The reference run: the last hour of the data, '2018-09-30 23:00',
    and a raw series for it: rows for every hour from '2017-01-01 00:00'
    on except three hours, and, as the data has several rows for some
    hours, a second row for each hour before '2017-05-18 10:00'; each
    row holds a value of its own. *)
Definition last_2018_09_30_23 : Z := Eval cbv in timestamp 2018 9 30 23 0 0.

Definition is_missing (missing : list Z) (t : Z) : bool :=
  existsb (Z.eqb t) missing.

Definition hours_present (missing : list Z) (first last freq : Z) : list Z :=
  filter (fun t => negb (is_missing missing t)) (date_range first last freq).

Definition scenario_missing : list Z :=
  Eval cbv in
    [timestamp 2017 3 12 2 0 0; timestamp 2017 11 5 1 0 0;
     timestamp 2018 3 11 2 0 0].

Definition scenario_repeated_until : Z :=
  Eval cbv in timestamp 2017 5 18 10 0 0.

Definition scenario_rows (t : Z) : list row :=
  if t <? scenario_repeated_until
  then [(t, [Num t]); (t, [Num (- t)])]
  else [(t, [Num t])].

Definition scenario_raw : DataFrame :=
  mkFrame ["traffic_volume"%string]
    (flat_map scenario_rows
       (hours_present scenario_missing from_2017_01_01 last_2018_09_30_23
          freq_H)).


(** The attribute of the schemas that each column of the written frames
    stands for; the index, written first, is the timestamp. *)
Definition attribute_names : list (string * SchemaAttribute) :=
  [("traffic_volume", mkAttribute "target_value" "float");
   ("temp", mkAttribute "temperature" "float");
   ("rain_1h", mkAttribute "rain_1h" "float");
   ("snow_1h", mkAttribute "snow_1h" "float");
   ("clouds_all", mkAttribute "clouds_all" "float");
   ("weather_description", mkAttribute "weather" "string");
   ("item_ID", mkAttribute "item_id" "string")]%string.

Fixpoint attribute_of (names : list (string * SchemaAttribute))
    (column : string) : option SchemaAttribute :=
  match names with
  | [] => None
  | (c, a) :: names' =>
      if String.eqb column c then Some a else attribute_of names' column
  end.

Definition file_layout (df : DataFrame) : list (option SchemaAttribute) :=
  Some (mkAttribute "timestamp" "timestamp")
  :: map (attribute_of attribute_names) (columns df).

End Notebook.

(** ** The import job: request and poll loop *)

Module Forecast.

Import Notebook.

(** What the service answers to a call: a value, or an error that boto3
    raises as an exception. *)
Inductive answer : Type :=
| Ok (value : string)
| ClientError (message : string).

Record ImportJobRequest : Type := mkRequest {
  DatasetImportJobName : string;
  DatasetArn : string;
  Path : string;
  RoleArn : string;
  TimestampFormat : string
}.

(** What a run does that can be seen from outside. *)
Inductive event : Type :=
| CreateDatasetImportJob (request : ImportJobRequest)
| DescribeDatasetImportJob (arn : string)
| Print (text : string)
| Sleep (seconds : Z).

(** How a run of the cells ends: the loop is left with the last status
    read, an exception escapes, or the answers given so far are used up
    and the loop is still going. *)
Inductive outcome : Type :=
| Left_loop (status : string)
| Raised (message : string)
| Still_polling.

(** The test of the loop:
    [dataImportStatus != 'ACTIVE' and dataImportStatus != 'CREATE_FAILED'] *)
Definition keep_polling (status : string) : bool :=
  negb (String.eqb status "ACTIVE") && negb (String.eqb status "CREATE_FAILED").

(** [while True: status = describe(..)['Status']; print(status);
      if <keep polling>: sleep(30) else: break],
    run against the answers the service gives to the successive calls. *)
Fixpoint poll (arn : string) (answers : list answer) : list event * outcome :=
  match answers with
  | [] => ([], Still_polling)
  | ClientError m :: _ => ([DescribeDatasetImportJob arn], Raised m)
  | Ok status :: answers' =>
      if keep_polling status
      then
        let (trace, out) := poll arn answers' in
        (DescribeDatasetImportJob arn :: Print status :: Sleep 30 :: trace,
         out)
      else ([DescribeDatasetImportJob arn; Print status], Left_loop status)
  end.

(** The three cells that import a file: the request, the ARN printed, the
    loop. *)
Definition import_request (name dataset path role : string)
  : ImportJobRequest :=
  mkRequest name dataset path role TIMESTAMP_FORMAT.

Definition import_cells (request : ImportJobRequest) (created : answer)
    (answers : list answer) : list event * outcome :=
  match created with
  | ClientError m => ([CreateDatasetImportJob request], Raised m)
  | Ok arn =>
      let (trace, out) := poll arn answers in
      (CreateDatasetImportJob request :: Print arn :: trace, out)
  end.

(** One turn of the loop that goes on. *)
Definition poll_round (arn status : string) : list event :=
  [DescribeDatasetImportJob arn; Print status; Sleep 30].

Definition is_describe (e : event) : bool :=
  match e with DescribeDatasetImportJob _ => true | _ => false end.

Definition is_sleep (e : event) : bool :=
  match e with Sleep _ => true | _ => false end.

Definition is_create (e : event) : bool :=
  match e with CreateDatasetImportJob _ => true | _ => false end.

Definition count (p : event -> bool) (trace : list event) : nat :=
  List.length (filter p trace).

End Forecast.

(** ** Names, paths and the region *)

Module Names.

(** [s.replace(old, new)] for one-character [old] and [new]. *)
Fixpoint replace_char (old new : ascii) (s : string) : string :=
  match s with
  | EmptyString => EmptyString
  | String c s' =>
      String (if Ascii.eqb c old then new else c) (replace_char old new s')
  end.

(** The names built from [str(uuid.uuid4())], given here as [uuid4]. *)
Definition project (uuid4 : string) : string :=
  ("forecast_poc_" ++ replace_char "-" "_" uuid4)%string.

Definition datasetName (project : string) : string :=
  (project ++ "_ds")%string.

Definition datasetGroupName (project : string) : string :=
  (project ++ "_dsg_")%string.

Definition role_name (uuid4 : string) : string :=
  ("ForecastRolePOC_" ++ replace_char "-" "_" uuid4)%string.

Definition related_DSN (datasetName : string) : string :=
  (datasetName ++ "_related_")%string.

Definition related_datasetImportJobName (uuid4 : string) : string :=
  ("DSIMPORT_JOB_RELATEDPOC_" ++ replace_char "-" "_" uuid4)%string.

Definition bucket_name (account_id uuid4 : string) : string :=
  (account_id ++ "-" ++ uuid4 ++ "-forecastpoc")%string.

Definition s3DataPath (bucket_name filename : string) : string :=
  ("s3://" ++ bucket_name ++ "/" ++ filename)%string.

(** [s.split(sep)] for a one-character [sep]: the stretches between the
    separators, empty ones included; [field] is the stretch being read. *)
Fixpoint split_from (sep : ascii) (field : string) (s : string)
  : list string :=
  match s with
  | EmptyString => [field]
  | String c s' =>
      if Ascii.eqb c sep then field :: split_from sep EmptyString s'
      else split_from sep (field ++ String c EmptyString) s'
  end.

Definition split_on (sep : ascii) (s : string) : list string :=
  split_from sep EmptyString s.

(** [region = resource_arn.split(':')[3]]; [None] is the IndexError. *)
Definition region (resource_arn : string) : option string :=
  nth_error (split_on ":" resource_arn) 3.

Fixpoint count_char (c : ascii) (s : string) : nat :=
  match s with
  | EmptyString => O
  | String c' s' => (if Ascii.eqb c' c then 1 else 0) + count_char c s'
  end.

Fixpoint all_chars (p : ascii -> bool) (s : string) : bool :=
  match s with
  | EmptyString => true
  | String c s' => p c && all_chars p s'
  end.

Definition between (lo hi c : ascii) : bool :=
  (nat_of_ascii lo <=? nat_of_ascii c)%nat
  && (nat_of_ascii c <=? nat_of_ascii hi)%nat.

Definition is_letter (c : ascii) : bool :=
  between "a" "z" c || between "A" "Z" c.

Definition is_digit (c : ascii) : bool := between "0" "9" c.

(** The characters of the text of a UUID: lower-case hexadecimal digits
    and hyphens. *)
Definition uuid_char (c : ascii) : bool :=
  is_digit c || between "a" "f" c || Ascii.eqb c "-".

(** A name made of letters, digits and underscores that starts with a
    letter. *)
Definition name_char (c : ascii) : bool :=
  is_letter c || is_digit c || Ascii.eqb c "_".

Definition plain_name (s : string) : bool :=
  match s with
  | EmptyString => false
  | String c _ => is_letter c && all_chars name_char s
  end.

End Names.

(** * Properties *)

Import Timestamp Csv Notebook Forecast.

(** ** Equality tests *)

Lemma cell_eqb_eq (a b : cell) : cell_eqb a b = true <-> a = b.
Proof.
  destruct a, b; simpl; try (split; congruence).
  - rewrite Z.eqb_eq. split; congruence.
  - rewrite String.eqb_eq. split; congruence.
Qed.

Lemma cells_eqb_eq (a b : list cell) : cells_eqb a b = true <-> a = b.
Proof.
  revert b. induction a as [|x a IH]; intros [|y b]; simpl;
    try (split; congruence).
  rewrite andb_true_iff, cell_eqb_eq, IH. split.
  - intros [-> ->]. reflexivity.
  - intros H. injection H. auto.
Qed.

Lemma existsb_cells_In (v : list cell) (seen : list (list cell)) :
  existsb (cells_eqb v) seen = true <-> In v seen.
Proof.
  rewrite existsb_exists. split.
  - intros [w [Hin Heq]]. apply cells_eqb_eq in Heq. subst. exact Hin.
  - intros Hin. exists v. split; [exact Hin | apply cells_eqb_eq; reflexivity].
Qed.

Lemma existsb_cells_not_In (v : list cell) (seen : list (list cell)) :
  existsb (cells_eqb v) seen = false <-> ~ In v seen.
Proof.
  rewrite <- existsb_cells_In. destruct (existsb _ _); split; congruence.
Qed.

(** ** [drop_duplicates] *)

Lemma drop_duplicates_rows_In (seen : list (list cell)) (rs : list row) (r : row) :
  In r (drop_duplicates_rows seen rs) <->
  exists l1 l2, rs = l1 ++ r :: l2 /\ ~ In (snd r) seen
                /\ ~ In (snd r) (map snd l1).
Proof.
  revert seen. induction rs as [|r0 rs IH]; intros seen; simpl.
  - split; [contradiction|]. intros [[|? ?] [l2 [H _]]]; discriminate.
  - destruct (existsb (cells_eqb (snd r0)) seen) eqn:E.
    + apply existsb_cells_In in E. rewrite IH. split.
      * intros [l1 [l2 [-> [Hs Hl]]]]. exists (r0 :: l1), l2.
        split; [reflexivity|]. split; [exact Hs|]. simpl.
        intros [Heq|Hin]; [|tauto]. apply Hs. rewrite <- Heq. exact E.
      * intros [[|x l1] [l2 [Heq [Hs Hl]]]]; simpl in Heq.
        -- injection Heq as -> _. tauto.
        -- injection Heq as -> ->. exists l1, l2. simpl in Hl. tauto.
    + apply existsb_cells_not_In in E. simpl. rewrite IH. split.
      * intros [<-|[l1 [l2 [-> [Hs Hl]]]]].
        -- exists [], rs. simpl. tauto.
        -- exists (r0 :: l1), l2. simpl in *. tauto.
      * intros [[|x l1] [l2 [Heq [Hs Hl]]]]; simpl in Heq.
        -- injection Heq as -> _. left. reflexivity.
        -- injection Heq as -> ->. right. exists l1, l2. simpl in *.
           repeat split; tauto.
Qed.

Lemma drop_duplicates_rows_not_seen seen rs r :
  In r (drop_duplicates_rows seen rs) -> ~ In (snd r) seen.
Proof.
  rewrite drop_duplicates_rows_In. intros [l1 [l2 H]]. tauto.
Qed.

Lemma drop_duplicates_rows_NoDup seen rs :
  NoDup (map snd (drop_duplicates_rows seen rs)).
Proof.
  revert seen. induction rs as [|r0 rs IH]; intros seen; simpl.
  - constructor.
  - destruct (existsb (cells_eqb (snd r0)) seen); [apply IH|].
    simpl. constructor; [|apply IH].
    rewrite in_map_iff. intros [r [Heq Hin]].
    apply drop_duplicates_rows_not_seen in Hin. apply Hin.
    rewrite Heq. left. reflexivity.
Qed.

Lemma drop_duplicates_rows_id seen rs :
  NoDup (map snd rs) -> (forall r, In r rs -> ~ In (snd r) seen) ->
  drop_duplicates_rows seen rs = rs.
Proof.
  revert seen. induction rs as [|r0 rs IH]; intros seen Hnd Hs; simpl.
  - reflexivity.
  - simpl in Hnd. inversion Hnd as [|? ? Hn Hnd']; subst.
    assert (E : existsb (cells_eqb (snd r0)) seen = false).
    { apply existsb_cells_not_In. apply Hs. left. reflexivity. }
    rewrite E. f_equal. apply IH; [exact Hnd'|].
    intros r Hin [Heq|Hin'].
    + apply Hn. rewrite Heq. apply in_map. exact Hin.
    + apply (Hs r); [right; exact Hin | exact Hin'].
Qed.

(** C3 (as the code has it): [drop_duplicates(keep='first')] compares the
    column values only, the timestamp index taking no part: a row is kept
    exactly when no earlier row has the same values, so of the rows with
    identical values the first encountered is kept whatever their
    timestamps, and no two rows of the result have the same values. *)
Theorem drop_duplicates_keeps_first_by_values (df : DataFrame) :
  columns (drop_duplicates df) = columns df /\
  NoDup (map snd (rows (drop_duplicates df))) /\
  forall r : row,
    In r (rows (drop_duplicates df)) <->
    exists before after,
      rows df = before ++ r :: after /\ ~ In (snd r) (map snd before).
Proof.
  split; [reflexivity|]. split.
  - apply drop_duplicates_rows_NoDup.
  - intros r. simpl. rewrite drop_duplicates_rows_In. split.
    + intros [l1 [l2 [H1 [_ H2]]]]. exists l1, l2. tauto.
    + intros [l1 [l2 [H1 H2]]]. exists l1, l2. simpl. tauto.
Qed.

(** C3, the claim refuted: two rows with the same timestamp and differing
    values are both kept, and a row whose values repeat those of a row
    with another timestamp is dropped. *)
Lemma drop_duplicates_not_keyed_on_timestamp :
  rows (drop_duplicates
          (mkFrame ["traffic_volume"%string]
             [(1483228800, [Num 554500]); (1483228800, [Num 551600])]))
  = [(1483228800, [Num 554500]); (1483228800, [Num 551600])]
  /\
  rows (drop_duplicates
          (mkFrame ["traffic_volume"%string]
             [(1483228800, [Num 554500]); (1483232400, [Num 554500])]))
  = [(1483228800, [Num 554500])].
Proof. split; reflexivity. Qed.

(** ** The poll loop *)

Lemma keep_polling_true (s : string) :
  keep_polling s = true <-> s <> "ACTIVE"%string /\ s <> "CREATE_FAILED"%string.
Proof.
  unfold keep_polling. rewrite andb_true_iff, !negb_true_iff, !String.eqb_neq.
  tauto.
Qed.

Lemma keep_polling_false (s : string) :
  keep_polling s = false <-> s = "ACTIVE"%string \/ s = "CREATE_FAILED"%string.
Proof.
  unfold keep_polling.
  rewrite andb_false_iff, !negb_false_iff, !String.eqb_eq. tauto.
Qed.

Lemma poll_stops_at_first_terminal arn pre t rest :
  Forall (fun s => keep_polling s = true) pre ->
  keep_polling t = false ->
  poll arn (map Ok (pre ++ t :: rest))
  = (flat_map (poll_round arn) pre ++ [DescribeDatasetImportJob arn; Print t],
     Left_loop t).
Proof.
  intros Hpre Ht. induction Hpre as [|s pre Hs Hpre IH]; simpl.
  - rewrite Ht. reflexivity.
  - rewrite Hs, IH. reflexivity.
Qed.

Lemma count_app p l1 l2 : count p (l1 ++ l2) = (count p l1 + count p l2)%nat.
Proof. unfold count. rewrite filter_app, length_app. reflexivity. Qed.

Lemma count_rounds arn pre :
  count is_describe (flat_map (poll_round arn) pre) = List.length pre /\
  count is_sleep (flat_map (poll_round arn) pre) = List.length pre /\
  count is_create (flat_map (poll_round arn) pre) = O.
Proof.
  induction pre as [|s pre [IH1 [IH2 IH3]]]; simpl.
  - repeat split.
  - unfold count in *. simpl. rewrite IH1, IH2, IH3. repeat split.
Qed.

(** C4: the loop asks for the status until the first answer that is
    'ACTIVE' or 'CREATE_FAILED': with [pre] the answers before it, it
    issues one request per answer of [pre] and one more, sleeps 30 seconds
    after each answer of [pre] and not after the last one, and is left
    with that last status. *)
Theorem poll_polls_while_not_terminal (arn : string) (pre : list string)
    (t : string) (rest : list string) :
  Forall (fun s => s <> "ACTIVE"%string /\ s <> "CREATE_FAILED"%string) pre ->
  t = "ACTIVE"%string \/ t = "CREATE_FAILED"%string ->
  let (trace, out) := poll arn (map Ok (pre ++ t :: rest)) in
  out = Left_loop t /\
  trace = flat_map (poll_round arn) pre
            ++ [DescribeDatasetImportJob arn; Print t] /\
  count is_describe trace = S (List.length pre) /\
  count is_sleep trace = List.length pre /\
  last trace (Sleep 30) = Print t.
Proof.
  intros Hpre Ht.
  rewrite (poll_stops_at_first_terminal arn pre t rest).
  - destruct (count_rounds arn pre) as [H1 [H2 _]].
    split; [reflexivity|]. split; [reflexivity|].
    rewrite !count_app, H1, H2. unfold count. simpl.
    repeat split; try lia.
    change [DescribeDatasetImportJob arn; Print t]
      with ([DescribeDatasetImportJob arn] ++ [Print t]).
    rewrite app_assoc. apply last_last.
  - eapply Forall_impl; [|exact Hpre]. intros s. apply keep_polling_true.
  - apply keep_polling_false. exact Ht.
Qed.

(** The status sequence of the claim: four requests, three sleeps, and
    the loop left on 'ACTIVE'. *)
Lemma poll_reference_sequence :
  let run :=
    poll "arn" (map Ok ["PENDING"; "IN_PROGRESS"; "IN_PROGRESS"; "ACTIVE"]%string) in
  snd run = Left_loop "ACTIVE" /\
  count is_describe (fst run) = 4%nat /\
  count is_sleep (fst run) = 3%nat /\
  last (fst run) (Sleep 30) = Print "ACTIVE".
Proof.
  pose proof (poll_polls_while_not_terminal "arn"
                ["PENDING"; "IN_PROGRESS"; "IN_PROGRESS"]%string
                "ACTIVE"%string []) as H.
  simpl in H.
  destruct H as [H1 [H2 [H3 [H4 H5]]]].
  - repeat constructor; discriminate.
  - left. reflexivity.
  - simpl. repeat split; assumption.
Defined.

(** ** The import cells on a failed job *)

Lemma import_cells_created request arn answers :
  import_cells request (Ok arn) answers
  = (CreateDatasetImportJob request :: Print arn :: fst (poll arn answers),
     snd (poll arn answers)).
Proof. simpl. destruct (poll arn answers). reflexivity. Qed.

(** C5, the claim refuted: on 'CREATE_FAILED' the cells end as they do
    on 'ACTIVE', by leaving the loop; nothing is raised. *)
Lemma import_cells_failed_job_returns :
  let run :=
    import_cells (import_request "DSIMPORT_JOB_TARGET_POC" "dataset" "s3://bucket/target_time_series.csv" "role")
      (Ok "arn") [Ok "CREATE_PENDING"; Ok "CREATE_FAILED"]%string in
  snd run = Left_loop "CREATE_FAILED" /\
  (forall message, snd run <> Raised message).
Proof. simpl. split; [reflexivity|]. intros m. discriminate. Qed.

(** C5 (as the code has it): when the job reaches 'CREATE_FAILED' the
    loop is left in the ordinary way with that status, which has been
    printed; no exception is raised for it.  The request to create the
    job is issued once and never again.  An error answered to the create
    call or to a status call is raised to the caller at once. *)
Theorem import_cells_on_failure (request : ImportJobRequest)
    (arn : string) (pre rest : list string) (message : string) :
  Forall (fun s => s <> "ACTIVE"%string /\ s <> "CREATE_FAILED"%string) pre ->
  (let run := import_cells request (Ok arn)
                (map Ok (pre ++ "CREATE_FAILED"%string :: rest)) in
   snd run = Left_loop "CREATE_FAILED" /\
   In (Print "CREATE_FAILED") (fst run) /\
   count is_create (fst run) = 1%nat) /\
  import_cells request (ClientError message) (map Ok pre)
  = ([CreateDatasetImportJob request], Raised message) /\
  (let run := import_cells request (Ok arn)
                (map Ok pre ++ ClientError message :: map Ok rest) in
   snd run = Raised message /\ count is_create (fst run) = 1%nat).
Proof.
  intros Hpre.
  assert (Hk : Forall (fun s => keep_polling s = true) pre).
  { eapply Forall_impl; [|exact Hpre]. intros s. apply keep_polling_true. }
  split; [|split].
  - cbv zeta. rewrite import_cells_created.
    rewrite (poll_stops_at_first_terminal arn pre "CREATE_FAILED" rest Hk
               (eq_refl : keep_polling "CREATE_FAILED" = false)).
    cbn [fst snd]. split; [reflexivity|]. split.
    + right. right. apply in_or_app. right. right. left. reflexivity.
    + destruct (count_rounds arn pre) as [_ [_ H3]].
      change (CreateDatasetImportJob request :: Print arn
                :: flat_map (poll_round arn) pre
                ++ [DescribeDatasetImportJob arn; Print "CREATE_FAILED"])
        with ([CreateDatasetImportJob request; Print arn]
                ++ flat_map (poll_round arn) pre
                ++ [DescribeDatasetImportJob arn; Print "CREATE_FAILED"]).
      rewrite !count_app, H3. reflexivity.
  - reflexivity.
  - cbv zeta. rewrite import_cells_created.
    assert (Hp : poll arn (map Ok pre ++ ClientError message :: map Ok rest)
                 = (flat_map (poll_round arn) pre
                      ++ [DescribeDatasetImportJob arn], Raised message)).
    { clear Hpre. induction Hk as [|s pre Hs Hk IH]; simpl.
      - reflexivity.
      - rewrite Hs, IH. reflexivity. }
    rewrite Hp. cbn [fst snd]. split; [reflexivity|].
    destruct (count_rounds arn pre) as [_ [_ H3]].
    change (CreateDatasetImportJob request :: Print arn
              :: flat_map (poll_round arn) pre
              ++ [DescribeDatasetImportJob arn])
      with ([CreateDatasetImportJob request; Print arn]
              ++ flat_map (poll_round arn) pre
              ++ [DescribeDatasetImportJob arn]).
    rewrite !count_app, H3. reflexivity.
Qed.

Lemma import_cells_on_failure_example :
  Forall (fun s => s <> "ACTIVE"%string /\ s <> "CREATE_FAILED"%string)
    ["CREATE_PENDING"; "CREATE_IN_PROGRESS"]%string /\
  snd (import_cells (import_request "job" "dataset" "path" "role") (Ok "arn")
         (map Ok ["CREATE_PENDING"; "CREATE_IN_PROGRESS"; "CREATE_FAILED"]%string))
  = Left_loop "CREATE_FAILED".
Proof.
  assert (H : Forall (fun s => s <> "ACTIVE"%string /\ s <> "CREATE_FAILED"%string)
                ["CREATE_PENDING"; "CREATE_IN_PROGRESS"]%string).
  { repeat constructor; discriminate. }
  split; [exact H|].
  exact (proj1 (proj1 (import_cells_on_failure
                         (import_request "job" "dataset" "path" "role")
                         "arn" _ [] "error"%string H))).
Defined.

(** ** [date_range] *)

Lemma axis_S start freq n :
  axis start freq (S n) = start :: axis (start + freq) freq n.
Proof.
  unfold axis. simpl. f_equal; [lia|].
  rewrite <- seq_shift, map_map. apply map_ext. intros i. lia.
Qed.

Lemma steps_succ t end_ freq :
  0 < freq -> t <= end_ ->
  Z.to_nat ((end_ - t) / freq + 1)
  = S (Z.to_nat ((end_ - (t + freq)) / freq + 1)).
Proof.
  intros Hf Ht.
  replace (end_ - t) with ((end_ - (t + freq)) + 1 * freq) by lia.
  rewrite Z.div_add by lia.
  assert (0 <= (end_ - t) / freq) by (apply Z.div_pos; lia).
  replace (end_ - t) with ((end_ - (t + freq)) + 1 * freq) in H by lia.
  rewrite Z.div_add in H by lia. lia.
Qed.

Lemma steps_none t end_ freq :
  0 < freq -> end_ < t -> Z.to_nat ((end_ - t) / freq + 1) = O.
Proof.
  intros Hf Ht.
  assert ((end_ - t) / freq < 0) by (apply Z.div_lt_upper_bound; lia).
  lia.
Qed.

Lemma date_range_from_axis fuel t end_ freq :
  0 < freq ->
  date_range_from fuel t end_ freq
  = axis t freq (Nat.min fuel (Z.to_nat ((end_ - t) / freq + 1))).
Proof.
  intros Hf. revert t. induction fuel as [|fuel IH]; intros t.
  - reflexivity.
  - simpl date_range_from. destruct (t <=? end_) eqn:E.
    + apply Z.leb_le in E. rewrite (steps_succ t end_ freq Hf E).
      simpl Nat.min. rewrite axis_S, IH. reflexivity.
    + apply Z.leb_gt in E. rewrite (steps_none t end_ freq Hf E).
      rewrite Nat.min_0_r. reflexivity.
Qed.

(** More fuel than the number of steps changes nothing: the loop has
    stopped by its own test. *)
Lemma date_range_from_stops fuel start end_ freq :
  0 < freq -> (Z.to_nat ((end_ - start) / freq + 1) <= fuel)%nat ->
  date_range_from fuel start end_ freq = date_range start end_ freq.
Proof.
  intros Hf Hfuel. unfold date_range.
  replace (0 <? freq) with true by (symmetry; apply Z.ltb_lt; exact Hf).
  rewrite !date_range_from_axis by exact Hf.
  f_equal. lia.
Qed.

Lemma date_range_axis start end_ freq :
  0 < freq ->
  date_range start end_ freq
  = axis start freq (Z.to_nat ((end_ - start) / freq + 1)).
Proof.
  intros Hf. unfold date_range.
  replace (0 <? freq) with true by (symmetry; apply Z.ltb_lt; exact Hf).
  rewrite date_range_from_axis by exact Hf. f_equal. lia.
Qed.

Lemma axis_length start freq n : List.length (axis start freq n) = n.
Proof. unfold axis. rewrite length_map, length_seq. reflexivity. Qed.

Lemma axis_nth start freq n i d :
  (i < n)%nat -> nth i (axis start freq n) d = start + Z.of_nat i * freq.
Proof.
  intros Hi. unfold axis.
  rewrite (nth_indep _ d (start + Z.of_nat 0 * freq))
    by (rewrite length_map, length_seq; exact Hi).
  rewrite (map_nth (fun i => start + Z.of_nat i * freq)).
  rewrite seq_nth by exact Hi. reflexivity.
Qed.

Lemma axis_In start freq n k :
  In k (axis start freq n) <->
  exists i, (i < n)%nat /\ k = start + Z.of_nat i * freq.
Proof.
  unfold axis. rewrite in_map_iff. split.
  - intros [i [Hk Hi]]. apply in_seq in Hi. exists i. split; [lia|auto].
  - intros [i [Hi Hk]]. exists i. split; [auto|]. apply in_seq. lia.
Qed.

Lemma axis_sorted start freq n :
  0 < freq -> StronglySorted Z.lt (axis start freq n).
Proof.
  intros Hf. revert start. induction n as [|n IH]; intros start.
  - constructor.
  - rewrite axis_S. constructor; [apply IH|].
    apply Forall_forall. intros k Hk. apply axis_In in Hk.
    destruct Hk as [i [_ ->]]. nia.
Qed.

Lemma date_range_In start end_ freq k :
  0 < freq ->
  In k (date_range start end_ freq) <->
  start <= k <= end_ /\ exists i, 0 <= i /\ k = start + i * freq.
Proof.
  intros Hf. rewrite date_range_axis by exact Hf. rewrite axis_In. split.
  - intros [i [Hi ->]]. split.
    + assert (Z.of_nat i <= (end_ - start) / freq) by lia.
      assert (freq * ((end_ - start) / freq) <= end_ - start)
        by (apply Z.mul_div_le; lia).
      nia.
    + exists (Z.of_nat i). split; [lia | reflexivity].
  - intros [[H1 H2] [i [Hi ->]]]. exists (Z.to_nat i). split.
    + assert (i <= (end_ - start) / freq).
      { apply Z.div_le_lower_bound; [exact Hf | nia]. }
      lia.
    + rewrite Z2Nat.id by exact Hi. reflexivity.
Qed.

Lemma date_range_sorted start end_ freq :
  StronglySorted Z.lt (date_range start end_ freq).
Proof.
  destruct (Z.ltb_spec 0 freq) as [Hf|Hf].
  - rewrite date_range_axis by exact Hf. apply axis_sorted. exact Hf.
  - unfold date_range.
    replace (0 <? freq) with false by (symmetry; apply Z.ltb_ge; exact Hf).
    constructor.
Qed.

(** ** Sorted indexes *)

Lemma sorted_NoDup (l : list Z) : StronglySorted Z.lt l -> NoDup l.
Proof.
  induction 1 as [|a l Hs IH Hall]; constructor; [|exact IH].
  intros Hin. rewrite Forall_forall in Hall. specialize (Hall a Hin). lia.
Qed.

Lemma sorted_unique (l1 l2 : list Z) :
  StronglySorted Z.lt l1 -> StronglySorted Z.lt l2 ->
  (forall k, In k l1 <-> In k l2) -> l1 = l2.
Proof.
  intros H1. revert l2. induction H1 as [|a l1 Hs1 IH Ha]; intros l2 H2 Heq.
  - destruct l2 as [|b l2]; [reflexivity|].
    exfalso. apply (proj2 (Heq b)). left. reflexivity.
  - destruct H2 as [|b l2 Hs2 Hb].
    + exfalso. apply (proj1 (Heq a)). left. reflexivity.
    + rewrite Forall_forall in Ha, Hb.
      assert (a = b).
      { destruct (proj1 (Heq a) (or_introl eq_refl)) as [E|Hin]; [auto|].
        destruct (proj2 (Heq b) (or_introl eq_refl)) as [E|Hin']; [auto|].
        specialize (Ha b Hin'). specialize (Hb a Hin). lia. }
      subst b. f_equal. apply IH; [exact Hs2|].
      intros k. split; intros Hk.
      * destruct (proj1 (Heq k) (or_intror Hk)) as [E|Hin]; [|exact Hin].
        subst k. specialize (Ha a Hk). lia.
      * destruct (proj2 (Heq k) (or_intror Hk)) as [E|Hin]; [|exact Hin].
        subst k. specialize (Hb a Hk). lia.
Qed.

Lemma insert_key_In k l x : In x (insert_key k l) <-> x = k \/ In x l.
Proof.
  induction l as [|y l IH]; simpl.
  - split; intros [H|H]; auto; contradiction.
  - destruct (k <? y); [simpl; intuition congruence|].
    destruct (k =? y) eqn:E.
    + apply Z.eqb_eq in E. subst y. simpl. intuition congruence.
    + simpl. rewrite IH. intuition congruence.
Qed.

Lemma insert_key_sorted k l :
  StronglySorted Z.lt l -> StronglySorted Z.lt (insert_key k l).
Proof.
  induction 1 as [|y l Hs IH Hy]; simpl.
  - repeat constructor.
  - destruct (Z.ltb_spec k y) as [Hlt|Hge].
    + constructor; [constructor; assumption|].
      constructor; [exact Hlt|].
      eapply Forall_impl; [|exact Hy]. intros z Hz. simpl in Hz. lia.
    + destruct (Z.eqb_spec k y) as [Heq|Hne]; [constructor; assumption|].
      constructor; [exact IH|].
      apply Forall_forall. intros z Hz. apply insert_key_In in Hz.
      rewrite Forall_forall in Hy. destruct Hz as [->|Hz]; [lia|auto].
Qed.

Lemma sorted_union_In l1 l2 k :
  In k (sorted_union l1 l2) <-> In k l1 \/ In k l2.
Proof.
  unfold sorted_union. rewrite <- in_app_iff.
  induction (l1 ++ l2) as [|x l IH]; simpl; [tauto|].
  rewrite insert_key_In, IH. intuition congruence.
Qed.

Lemma sorted_union_sorted l1 l2 : StronglySorted Z.lt (sorted_union l1 l2).
Proof.
  unfold sorted_union. induction (l1 ++ l2) as [|x l IH]; simpl.
  - constructor.
  - apply insert_key_sorted. exact IH.
Qed.

Lemma sorted_union_absorb l1 l2 :
  StronglySorted Z.lt l1 -> (forall k, In k l2 -> In k l1) ->
  sorted_union l1 l2 = l1.
Proof.
  intros Hs Hsub. apply sorted_unique; [apply sorted_union_sorted|exact Hs|].
  intros k. rewrite sorted_union_In. intuition.
Qed.

Lemma sorted_filter (p : Z -> bool) l :
  StronglySorted Z.lt l -> StronglySorted Z.lt (filter p l).
Proof.
  induction 1 as [|a l Hs IH Ha]; simpl; [constructor|].
  destruct (p a); [|exact IH]. constructor; [exact IH|].
  rewrite Forall_forall in *. intros x Hx. apply filter_In in Hx.
  apply Ha. tauto.
Qed.

Lemma sorted_app l1 l2 :
  StronglySorted Z.lt l1 -> StronglySorted Z.lt l2 ->
  (forall x y, In x l1 -> In y l2 -> x < y) ->
  StronglySorted Z.lt (l1 ++ l2).
Proof.
  intros H1 H2 Hlt. induction H1 as [|a l1 Hs IH Ha]; simpl; [exact H2|].
  constructor.
  - apply IH. intros x y Hx Hy. apply Hlt; [right; exact Hx | exact Hy].
  - apply Forall_app. split; [exact Ha|].
    apply Forall_forall. intros y Hy. apply Hlt; [left; reflexivity|exact Hy].
Qed.

(** ** Filters and maps over rows *)

Lemma filter_all {A} (p : A -> bool) (l : list A) :
  (forall x, In x l -> p x = true) -> filter p l = l.
Proof.
  induction l as [|a l IH]; intros H; simpl; [reflexivity|].
  rewrite (H a (or_introl eq_refl)). f_equal. apply IH.
  intros x Hx. apply H. right. exact Hx.
Qed.

Lemma filter_none {A} (p : A -> bool) (l : list A) :
  (forall x, In x l -> p x = false) -> filter p l = [].
Proof.
  induction l as [|a l IH]; intros H; simpl; [reflexivity|].
  rewrite (H a (or_introl eq_refl)). apply IH.
  intros x Hx. apply H. right. exact Hx.
Qed.

Lemma flat_map_ext_in {A B} (f g : A -> list B) (l : list A) :
  (forall a, In a l -> f a = g a) -> flat_map f l = flat_map g l.
Proof.
  induction l as [|a l IH]; intros H; simpl; [reflexivity|].
  rewrite (H a (or_introl eq_refl)). f_equal. apply IH.
  intros x Hx. apply H. right. exact Hx.
Qed.

Lemma flat_map_single {A B} (g : A -> B) (l : list A) :
  flat_map (fun a => [g a]) l = map g l.
Proof.
  induction l as [|a l IH]; simpl; [reflexivity|]. rewrite IH. reflexivity.
Qed.

Lemma filter_key_NoDup (k : Z) (l : list Z) :
  NoDup l -> In k l -> filter (fun x => x =? k) l = [k].
Proof.
  induction 1 as [|a l Hn Hnd IH]; intros Hin; [contradiction|]. simpl.
  destruct (Z.eqb_spec a k) as [->|Hne].
  - f_equal. apply filter_none. intros x Hx. apply Z.eqb_neq.
    intros ->. contradiction.
  - destruct Hin as [E|Hin]; [contradiction|]. apply IH. exact Hin.
Qed.

(** ** The outer join *)

Lemma rows_at_In k rs r : In r (rows_at k rs) <-> In r rs /\ fst r = k.
Proof. unfold rows_at. rewrite filter_In, Z.eqb_eq. tauto. Qed.

Lemma joined_rows_key w o k r : In r (joined_rows w o k) -> fst r = k.
Proof.
  unfold joined_rows. destruct (rows_at k o) as [|r0 m] eqn:E.
  - intros [<-|[]]. reflexivity.
  - rewrite <- E. intros H. apply rows_at_In in H. tauto.
Qed.

Lemma joined_rows_has_row w o k : exists r, In r (joined_rows w o k).
Proof.
  unfold joined_rows. destruct (rows_at k o) as [|r0 m].
  - eexists. left. reflexivity.
  - exists r0. left. reflexivity.
Qed.

Lemma joined_rows_found w o k :
  rows_at k o <> [] -> joined_rows w o k = rows_at k o.
Proof. unfold joined_rows. destruct (rows_at k o); congruence. Qed.

Lemma joined_rows_missing w o k :
  ~ In k (map fst o) -> joined_rows w o k = [(k, nan_row w)].
Proof.
  intros Hk. unfold joined_rows.
  replace (rows_at k o) with (@nil row); [reflexivity|].
  symmetry. apply filter_none. intros r Hr. apply Z.eqb_neq.
  intros <-. apply Hk. apply in_map. exact Hr.
Qed.

Lemma filter_flat_map_key (p : Z -> bool) (f : Z -> list row) (l : list Z) :
  (forall k r, In r (f k) -> fst r = k) ->
  filter (fun r => p (fst r)) (flat_map f l) = flat_map f (filter p l).
Proof.
  intros Hf. induction l as [|a l IH]; simpl; [reflexivity|].
  rewrite filter_app, IH. destruct (p a) eqn:E; simpl.
  - f_equal. apply filter_all. intros r Hr. rewrite (Hf a r Hr). exact E.
  - replace (filter (fun r => p (fst r)) (f a)) with (@nil row);
      [reflexivity|].
    symmetry. apply filter_none. intros r Hr. rewrite (Hf a r Hr). exact E.
Qed.

Lemma rows_at_flat_map (f : Z -> list row) (l : list Z) (k : Z) :
  (forall k r, In r (f k) -> fst r = k) -> NoDup l -> In k l ->
  rows_at k (flat_map f l) = f k.
Proof.
  intros Hf Hnd Hin. unfold rows_at.
  rewrite (filter_flat_map_key (fun x => x =? k) f l Hf).
  rewrite filter_key_NoDup by assumption. simpl. apply app_nil_r.
Qed.

Lemma flat_map_keys (f : Z -> list row) (l : list Z) (k : Z) :
  (forall k r, In r (f k) -> fst r = k) ->
  (forall k, exists r, In r (f k)) ->
  In k (map fst (flat_map f l)) <-> In k l.
Proof.
  intros Hf Hne. rewrite in_map_iff. split.
  - intros [r [Hk Hr]]. apply in_flat_map in Hr.
    destruct Hr as [k' [Hk' Hr]]. rewrite (Hf k' r Hr) in Hk. congruence.
  - intros Hin. destruct (Hne k) as [r Hr]. exists r.
    split; [apply (Hf k r Hr)|]. apply in_flat_map. exists k. tauto.
Qed.

(** Joining the sliced frame onto the index again puts back, as all-NaN
    rows, the labels of the index that the slice removed, and leaves the
    rows of the slice as they are. *)
Lemma join_of_slice (idx : list Z) (w : nat) (o : list row) (lo : Z) :
  StronglySorted Z.lt idx ->
  let kept :=
    filter (fun r => lo <=? fst r)
      (flat_map (joined_rows w o) (sorted_union idx (map fst o))) in
  flat_map (joined_rows w kept) (sorted_union idx (map fst kept))
  = map (fun k => (k, nan_row w)) (filter (fun k => k <? lo) idx) ++ kept.
Proof.
  intros Hidx kept.
  set (U := sorted_union idx (map fst o)).
  set (A := filter (fun k => k <? lo) idx).
  set (B := filter (fun k => lo <=? k) U).
  assert (HU : StronglySorted Z.lt U) by apply sorted_union_sorted.
  assert (HB : StronglySorted Z.lt B) by (apply sorted_filter; exact HU).
  assert (Hkept : kept = flat_map (joined_rows w o) B).
  { unfold kept, B.
    apply (filter_flat_map_key (fun k => lo <=? k) (joined_rows w o) U).
    apply joined_rows_key. }
  assert (Hkeys : forall k, In k (map fst kept) <-> In k B).
  { intros k. rewrite Hkept. apply flat_map_keys.
    - apply joined_rows_key.
    - apply joined_rows_has_row. }
  assert (HU2 : sorted_union idx (map fst kept) = A ++ B).
  { apply sorted_unique.
    - apply sorted_union_sorted.
    - apply sorted_app; [apply sorted_filter; exact Hidx | exact HB |].
      intros x y Hx Hy. apply filter_In in Hx, Hy.
      destruct Hx as [_ Hx], Hy as [_ Hy].
      apply Z.ltb_lt in Hx. apply Z.leb_le in Hy. lia.
    - intros k. rewrite sorted_union_In, in_app_iff, Hkeys.
      unfold A, B. rewrite !filter_In. unfold U.
      rewrite sorted_union_In, Z.ltb_lt, Z.leb_le.
      destruct (Z.lt_ge_cases k lo); intuition lia. }
  rewrite HU2, flat_map_app. f_equal.
  - rewrite <- flat_map_single. apply flat_map_ext_in. intros k Hk.
    apply joined_rows_missing. rewrite Hkeys. unfold A, B in *.
    rewrite filter_In in *. rewrite Z.ltb_lt in Hk. rewrite Z.leb_le. lia.
  - rewrite Hkept at 2. apply flat_map_ext_in. intros k Hk.
    assert (E : rows_at k kept = joined_rows w o k).
    { rewrite Hkept. apply rows_at_flat_map;
        [apply joined_rows_key | apply sorted_NoDup; exact HB | exact Hk]. }
    rewrite joined_rows_found; [exact E|].
    rewrite E. destruct (joined_rows_has_row w o k) as [r Hr].
    intros Hnil. rewrite Hnil in Hr. exact Hr.
Qed.

(** ** Forward fill *)

Lemma fill_row_length prev cs : List.length (fill_row prev cs) = List.length cs.
Proof.
  revert prev. induction cs as [|c cs IH]; intros [|p prev]; simpl;
    try reflexivity; f_equal; apply IH.
Qed.

Lemma fill_row_no_prev prev cs :
  Forall (fun c => c = NaN) prev -> fill_row prev cs = cs.
Proof.
  intros H. revert cs. induction H as [|p prev Hp Hprev IH]; intros cs.
  - induction cs as [|c cs IHc]; simpl; [reflexivity|]. f_equal. exact IHc.
  - destruct cs as [|c cs]; simpl; [reflexivity|]. subst p.
    rewrite IH. destruct c; reflexivity.
Qed.

Lemma fill_row_no_null prev cs :
  existsb isnull cs = false -> fill_row prev cs = cs.
Proof.
  revert prev. induction cs as [|c cs IH]; intros prev H; simpl in *.
  - reflexivity.
  - apply orb_false_elim in H. destruct H as [Hc Hcs].
    destruct prev as [|p prev]; rewrite ?Hc; f_equal; apply IH; exact Hcs.
Qed.

Lemma fill_row_gap (prev : list cell) :
  fill_row prev (nan_row (List.length prev)) = prev.
Proof.
  induction prev as [|p prev IH]; simpl; [reflexivity|]. f_equal. exact IH.
Qed.

Lemma ffill_rows_index prev rs : map fst (ffill_rows prev rs) = map fst rs.
Proof.
  revert prev. induction rs as [|r rs IH]; intros prev; simpl;
    [reflexivity|]. f_equal. apply IH.
Qed.

Lemma ffill_rows_no_prev prev rs :
  Forall (fun c => c = NaN) prev -> ffill_rows prev rs = ffill_rows [] rs.
Proof.
  intros H. destruct rs as [|r rs]; simpl; [reflexivity|].
  rewrite (fill_row_no_prev prev) by exact H.
  rewrite (fill_row_no_prev []) by constructor. reflexivity.
Qed.

Lemma nan_row_all w : Forall (fun c => c = NaN) (nan_row w).
Proof. unfold nan_row. apply Forall_forall. intros c. apply repeat_spec. Qed.

Lemma ffill_rows_nan_rows (w : nat) (ks : list Z) (rs : list row) prev :
  Forall (fun c => c = NaN) prev ->
  ffill_rows prev (map (fun k => (k, nan_row w)) ks ++ rs)
  = map (fun k => (k, nan_row w)) ks ++ ffill_rows [] rs.
Proof.
  revert prev. induction ks as [|k ks IH]; intros prev H; simpl.
  - apply ffill_rows_no_prev. exact H.
  - rewrite (fill_row_no_prev prev) by exact H. f_equal.
    apply IH. apply nan_row_all.
Qed.

Lemma replace_nan_row w : map replace_cell (nan_row w) = nan_row w.
Proof.
  unfold nan_row. induction w as [|w IH]; simpl; [reflexivity|].
  f_equal. exact IH.
Qed.

(** ** The related frame is the forward fill of the sliced join *)

Lemma join_outer_rows (idx : list Z) (other : DataFrame) :
  idx <> [] ->
  rows (join_outer idx other)
  = flat_map (joined_rows (List.length (columns other)) (rows other))
      (sorted_union idx (index other)).
Proof. destruct idx; [contradiction | reflexivity]. Qed.

Lemma filled_rows_from (lo : Z) (rs : list row) :
  filter (fun r => lo <=? fst r)
    (ffill_rows [] (map replace_row (filter (fun r => lo <=? fst r) rs)))
  = ffill_rows [] (map replace_row (filter (fun r => lo <=? fst r) rs)).
Proof.
  set (kept := filter (fun r : row => lo <=? fst r) rs).
  apply filter_all. intros r Hr.
  assert (Hk : In (fst r) (map fst kept)).
  { replace (map fst kept)
      with (map fst (ffill_rows [] (map replace_row kept))).
    - apply in_map. exact Hr.
    - rewrite ffill_rows_index, map_map. apply map_ext. intros [k cs].
      reflexivity. }
  apply in_map_iff in Hk. destruct Hk as [r' [<- Hr']].
  unfold kept in Hr'. apply filter_In in Hr'. tauto.
Qed.

Lemma related_rows (start end_ freq lo : Z) (original_data : DataFrame) :
  rows (related_time_series_df start end_ freq lo original_data)
  = ffill_rows []
      (map replace_row (rows (target_df start end_ freq lo original_data))).
Proof.
  unfold related_time_series_df, target_df, full_historical_df.
  cbv zeta.
  destruct (idx start end_ freq) as [|t0 axis_rest] eqn:E.
  - unfold loc_from, ffill, replace_empty, join_outer.
    cbn [rows columns]. apply filled_rows_from.
  - assert (Hs : StronglySorted Z.lt (t0 :: axis_rest))
      by (rewrite <- E; apply date_range_sorted).
    unfold loc_from at 1. unfold ffill, replace_empty, join_outer.
    cbn [rows columns]. unfold loc_from, index. cbn [rows columns].
    set (w := List.length (columns (drop_duplicates original_data))).
    rewrite (join_of_slice (t0 :: axis_rest) w
               (rows (drop_duplicates original_data)) lo Hs).
    set (kept := filter (fun r : row => lo <=? fst r) (flat_map _ _)).
    rewrite map_app, map_map.
    rewrite (map_ext (fun k => replace_row (k, nan_row w))
                     (fun k => (k, nan_row w))).
    2: { intros k. unfold replace_row. cbn [fst snd].
         rewrite replace_nan_row. reflexivity. }
    rewrite ffill_rows_nan_rows by constructor.
    rewrite filter_app.
    rewrite (filter_none _ (map _ _)).
    2: { intros r Hr. apply in_map_iff in Hr. destruct Hr as [k [<- Hk]].
         apply filter_In in Hk. destruct Hk as [_ Hk]. apply Z.ltb_lt in Hk.
         cbn [fst]. apply Z.leb_gt. exact Hk. }
    apply filter_all. intros r Hr.
    assert (Hk : In (fst r) (map fst kept)).
    { replace (map fst kept)
        with (map fst (ffill_rows [] (map replace_row kept))).
      - apply in_map. exact Hr.
      - rewrite ffill_rows_index, map_map. apply map_ext. intros [k cs].
        reflexivity. }
    apply in_map_iff in Hk. destruct Hk as [r' [<- Hr']].
    unfold kept in Hr'. apply filter_In in Hr'. tauto.
Qed.

(** ** Well-formed frames *)

Lemma rows_width_app w l1 l2 :
  rows_width w (l1 ++ l2) <-> rows_width w l1 /\ rows_width w l2.
Proof. unfold rows_width. apply Forall_app. Qed.

Lemma rows_width_filter w (p : row -> bool) rs :
  rows_width w rs -> rows_width w (filter p rs).
Proof.
  unfold rows_width. rewrite !Forall_forall. intros H r Hr.
  apply filter_In in Hr. apply H. tauto.
Qed.

Lemma drop_duplicates_rows_subset seen rs r :
  In r (drop_duplicates_rows seen rs) -> In r rs.
Proof.
  rewrite drop_duplicates_rows_In. intros [l1 [l2 [-> _]]].
  apply in_or_app. right. left. reflexivity.
Qed.

Lemma rows_width_drop_duplicates w seen rs :
  rows_width w rs -> rows_width w (drop_duplicates_rows seen rs).
Proof.
  unfold rows_width. rewrite !Forall_forall. intros H r Hr.
  apply H. eapply drop_duplicates_rows_subset. exact Hr.
Qed.

Lemma nan_row_length w : List.length (nan_row w) = w.
Proof. apply repeat_length. Qed.

Lemma rows_width_joined w o k :
  rows_width w o -> rows_width w (joined_rows w o k).
Proof.
  intros H. unfold joined_rows. destruct (rows_at k o) as [|r m] eqn:E.
  - constructor; [apply nan_row_length | constructor].
  - rewrite <- E. apply rows_width_filter. exact H.
Qed.

Lemma rows_width_join w o ks :
  rows_width w o -> rows_width w (flat_map (joined_rows w o) ks).
Proof.
  intros H. induction ks as [|k ks IH]; simpl; [constructor|].
  apply rows_width_app. split; [apply rows_width_joined; exact H | exact IH].
Qed.

Lemma rows_width_replace w rs :
  rows_width w rs -> rows_width w (map replace_row rs).
Proof.
  unfold rows_width. rewrite !Forall_forall. intros H r Hr.
  apply in_map_iff in Hr. destruct Hr as [r' [<- Hr']].
  unfold replace_row. cbn [snd]. rewrite length_map. apply H. exact Hr'.
Qed.

Lemma well_formed_target_df start end_ freq lo original_data :
  well_formed original_data ->
  well_formed (target_df start end_ freq lo original_data).
Proof.
  intros H. unfold well_formed, target_df, full_historical_df.
  cbv zeta. unfold loc_from, join_outer. cbn [rows columns].
  apply rows_width_filter.
  destruct (idx start end_ freq).
  - unfold drop_duplicates. cbn [rows columns].
    apply rows_width_drop_duplicates. exact H.
  - apply rows_width_join.
    unfold drop_duplicates. cbn [rows columns].
    apply rows_width_drop_duplicates. exact H.
Qed.

(** ** What the forward fill leaves null *)

Lemma fill_row_complete prev cs :
  List.length prev = List.length cs -> existsb isnull prev = false ->
  existsb isnull (fill_row prev cs) = false.
Proof.
  revert prev. induction cs as [|c cs IH]; intros [|p prev] Hl Hp;
    simpl in *; try reflexivity; try discriminate.
  apply orb_false_elim in Hp. destruct Hp as [Hp Hprev].
  rewrite (IH prev) by (auto; lia).
  destruct (isnull c) eqn:E; rewrite ?Hp, ?E; reflexivity.
Qed.

Lemma ffill_rows_complete w prev rs :
  rows_width w rs -> List.length prev = w -> existsb isnull prev = false ->
  forallb (fun r => negb (row_has_null r)) (ffill_rows prev rs) = true.
Proof.
  intros Hw. revert prev. induction Hw as [|r rs Hr Hrs IH];
    intros prev Hl Hp; simpl; [reflexivity|].
  assert (E : existsb isnull (fill_row prev (snd r)) = false).
  { apply fill_row_complete; [lia | exact Hp]. }
  unfold row_has_null at 1. cbn [snd]. rewrite E. simpl.
  apply IH; [rewrite fill_row_length; exact Hr | exact E].
Qed.

Lemma ffill_rows_null_free w rs :
  rows_width w rs ->
  forallb (fun r => negb (row_has_null r)) (ffill_rows [] rs) = true <->
  match ffill_rows [] rs with
  | [] => True
  | r :: _ => row_has_null r = false
  end.
Proof.
  intros Hw. destruct Hw as [|r rs Hr Hrs]; simpl; [tauto|].
  rewrite andb_true_iff, negb_true_iff. split; [tauto|].
  intros H. split; [exact H|].
  apply (ffill_rows_complete w); [exact Hrs | | exact H].
  rewrite fill_row_length. exact Hr.
Qed.

(** In the target notebook the result of [target_df.ffill()] is dropped:
    an hour without a raw row is written to the target file with an empty
    value. *)
Lemma target_file_keeps_gaps :
  write_csv (target_time_series_df 1483228800 1483236000 3600 1483228800
               1514764799
               (mkFrame ["traffic_volume"%string]
                  [(1483228800, [Num 554500]); (1483236000, [Num 476700])]))
  = Some ["2017-01-01 00:00:00,5545.0,1";
          "2017-01-01 01:00:00,,1";
          "2017-01-01 02:00:00,4767.0,1"]%string.
Proof. vm_compute. reflexivity. Qed.

(** ** Empty cells and the forward fill *)

Lemma replace_cell_null c : isnull (replace_cell c) = negb (holds_value c).
Proof.
  destruct c as [| x | s]; simpl; try reflexivity.
  destruct (String.eqb s EmptyString); reflexivity.
Qed.

Lemma replace_cell_value c : holds_value c = true -> replace_cell c = c.
Proof.
  destruct c as [| x | s]; simpl; try reflexivity.
  destruct (String.eqb s EmptyString); [discriminate | reflexivity].
Qed.

Lemma nth_fill_row prev cs j :
  (j < List.length cs)%nat ->
  nth j (fill_row prev cs) NaN
  = if isnull (nth j cs NaN) then nth j prev NaN else nth j cs NaN.
Proof.
  revert prev j. induction cs as [|c cs IH]; intros prev j Hj; simpl in Hj;
    [lia|].
  destruct prev as [|p prev].
  - rewrite fill_row_no_prev by constructor.
    destruct j as [|j]; simpl; [destruct c | destruct (nth j cs NaN)];
      reflexivity.
  - destruct j as [|j]; simpl; [reflexivity|]. apply IH. lia.
Qed.

Lemma filled_cell prev cs j :
  (j < List.length cs)%nat ->
  nth j (fill_row prev (map replace_cell cs)) NaN
  = match (if holds_value (nth j cs NaN) then nth j cs NaN else NaN) with
    | NaN => nth j prev NaN
    | v => v
    end.
Proof.
  intros Hj. rewrite nth_fill_row by (rewrite length_map; exact Hj).
  change NaN with (replace_cell NaN) at 1 3. rewrite map_nth.
  rewrite replace_cell_null.
  destruct (holds_value (nth j cs NaN)) eqn:E; simpl.
  - rewrite replace_cell_value by exact E.
    destruct (nth j cs NaN); [discriminate | reflexivity | reflexivity].
  - reflexivity.
Qed.

Lemma ffill_replace_cell (w : nat) (rs : list row) :
  rows_width w rs ->
  forall prev i j,
    (i < List.length rs)%nat -> (j < w)%nat ->
    cell_at i j (ffill_rows prev (map replace_row rs))
    = match most_recent_value (firstn (S i) (column j rs)) with
      | NaN => nth j prev NaN
      | v => v
      end.
Proof.
  induction 1 as [|r rs Hr Hrs IH]; intros prev i j Hi Hj; simpl in Hi;
    [lia|].
  destruct i as [|i].
  - unfold cell_at. simpl. rewrite filled_cell by lia. reflexivity.
  - change (cell_at (S i) j (ffill_rows prev (map replace_row (r :: rs))))
      with (cell_at i j
              (ffill_rows (fill_row prev (snd (replace_row r)))
                 (map replace_row rs))).
    rewrite IH by lia. unfold replace_row. cbn [snd].
    change (firstn (S (S i)) (column j (r :: rs)))
      with (nth j (snd r) NaN :: firstn (S i) (column j rs)).
    cbn [most_recent_value].
    destruct (most_recent_value (firstn (S i) (column j rs)));
      try reflexivity.
    apply filled_cell. lia.
Qed.

(** C10: [replace('', np.nan).ffill()] gives every cell the most recent
    value of its column, read from the top down to the cell itself, the
    empty text counting as no value like NaN; the cell stays NaN when no
    cell above holds a value.  So it is in the related frame, whose cells
    are those of the sliced join filled in this way. *)
Theorem ffill_replace_most_recent_value (df : DataFrame) (j : nat) :
  well_formed df ->
  (j < List.length (columns df))%nat ->
  (forall i : nat,
     (i < List.length (rows df))%nat ->
     cell_at i j (rows (ffill (replace_empty df)))
     = most_recent_value (firstn (S i) (column j (rows df))))
  /\
  (forall (start end_ freq lo : Z) (i : nat),
     (i < List.length (rows (target_df start end_ freq lo df)))%nat ->
     cell_at i j (rows (related_time_series_df start end_ freq lo df))
     = most_recent_value
         (firstn (S i) (column j (rows (target_df start end_ freq lo df))))).
Proof.
  intros Hwf Hj. split.
  - intros i Hi. unfold ffill, replace_empty. cbn [rows columns].
    rewrite (ffill_replace_cell _ _ Hwf [] i j Hi Hj).
    destruct (most_recent_value _); try reflexivity.
    destruct j; reflexivity.
  - intros start end_ freq lo i Hi. rewrite related_rows.
    rewrite (ffill_replace_cell _ _
               (well_formed_target_df start end_ freq lo df Hwf) [] i j Hi Hj).
    destruct (most_recent_value _); try reflexivity.
    destruct j; reflexivity.
Qed.

Lemma ffill_replace_example :
  cell_at 3 1
    (rows (ffill (replace_empty
       (mkFrame ["temp"; "weather_description"]%string
          [(1483228800, [Num 26975; Str "mist"]);
           (1483232400, [Num 26995; Str EmptyString]);
           (1483236000, [NaN; Str "haze"]);
           (1483239600, [NaN; Str EmptyString])]))))
  = Str "haze".
Proof.
  refine (proj1 (ffill_replace_most_recent_value _ 1 _ _) 3%nat _).
  - repeat constructor.
  - simpl. lia.
  - simpl. lia.
Defined.

(** ** Frames whose labels do not repeat *)

Lemma drop_duplicates_rows_index_NoDup seen rs :
  NoDup (map fst rs) -> NoDup (map fst (drop_duplicates_rows seen rs)).
Proof.
  revert seen. induction rs as [|r rs IH]; intros seen Hnd; simpl;
    [constructor|].
  simpl in Hnd. inversion Hnd as [|? ? Hn Hnd']; subst.
  destruct (existsb (cells_eqb (snd r)) seen); [apply IH; exact Hnd'|].
  simpl. constructor; [|apply IH; exact Hnd'].
  rewrite in_map_iff. intros [r' [Heq Hin]]. apply Hn. rewrite <- Heq.
  apply in_map. eapply drop_duplicates_rows_subset. exact Hin.
Qed.

Lemma rows_at_head_only (r : row) (rs : list row) :
  ~ In (fst r) (map fst rs) -> rows_at (fst r) (r :: rs) = [r].
Proof.
  intros Hn. unfold rows_at. simpl. rewrite Z.eqb_refl. f_equal.
  apply filter_none. intros r' Hr'. apply Z.eqb_neq. intros E.
  apply Hn. rewrite <- E. apply in_map. exact Hr'.
Qed.

Lemma rows_at_skip_head (r : row) (rs : list row) (k : Z) :
  fst r <> k -> rows_at k (r :: rs) = rows_at k rs.
Proof.
  intros Hne. unfold rows_at. simpl.
  destruct (Z.eqb_spec (fst r) k); [contradiction | reflexivity].
Qed.

Lemma rows_at_NoDup (rs : list row) (k : Z) :
  NoDup (map fst rs) ->
  rows_at k rs = [] \/ exists r, rows_at k rs = [r].
Proof.
  induction rs as [|r rs IH]; intros Hnd; [left; reflexivity|].
  simpl in Hnd. inversion Hnd as [|? ? Hn Hnd']; subst.
  destruct (Z.eq_dec (fst r) k) as [E|E].
  - right. exists r. rewrite <- E. apply rows_at_head_only. exact Hn.
  - rewrite rows_at_skip_head by exact E. apply IH. exact Hnd'.
Qed.

Lemma joined_rows_single w (o : list row) (k : Z) :
  NoDup (map fst o) -> joined_rows w o k = [joined_row w o k].
Proof.
  intros Hnd. unfold joined_rows, joined_row.
  destruct (rows_at_NoDup o k Hnd) as [E|[r E]]; rewrite E; reflexivity.
Qed.

Lemma joined_row_key w (o : list row) (k : Z) : fst (joined_row w o k) = k.
Proof.
  unfold joined_row. destruct (rows_at k o) as [|r m] eqn:E; [reflexivity|].
  assert (H : In r (rows_at k o)) by (rewrite E; left; reflexivity).
  apply rows_at_In in H. tauto.
Qed.

Lemma join_unique_labels w (o : list row) (ks : list Z) :
  NoDup (map fst o) ->
  flat_map (joined_rows w o) ks = map (joined_row w o) ks.
Proof.
  intros Hnd. rewrite <- flat_map_single. apply flat_map_ext_in.
  intros k _. apply joined_rows_single. exact Hnd.
Qed.

Lemma joined_index w (o : list row) (ks : list Z) :
  map fst (map (joined_row w o) ks) = ks.
Proof.
  rewrite map_map. rewrite <- (map_id ks) at 2. apply map_ext.
  intros k. apply joined_row_key.
Qed.

Lemma replace_rows_index rs : map fst (map replace_row rs) = map fst rs.
Proof. rewrite map_map. apply map_ext. intros [k cs]. reflexivity. Qed.

Lemma related_index start end_ freq lo original_data :
  index (related_time_series_df start end_ freq lo original_data)
  = index (target_df start end_ freq lo original_data).
Proof.
  unfold index. rewrite related_rows, ffill_rows_index.
  apply replace_rows_index.
Qed.

Lemma target_rows start end_ freq lo original_data :
  date_range start end_ freq <> [] ->
  rows (target_df start end_ freq lo original_data)
  = flat_map
      (joined_rows (List.length (columns original_data))
         (rows (drop_duplicates original_data)))
      (filter (fun k => lo <=? k)
         (sorted_union (date_range start end_ freq)
            (index (drop_duplicates original_data)))).
Proof.
  intros Hne. unfold target_df, full_historical_df. cbv zeta.
  unfold loc_from. cbn [rows columns].
  rewrite join_outer_rows by exact Hne. unfold idx.
  apply (filter_flat_map_key (fun k => lo <=? k)).
  apply joined_rows_key.
Qed.

Lemma target_rows_empty start end_ freq lo original_data :
  date_range start end_ freq = [] ->
  rows (target_df start end_ freq lo original_data)
  = filter (fun r => lo <=? fst r) (rows (drop_duplicates original_data)).
Proof.
  intros He. unfold target_df, full_historical_df. cbv zeta.
  unfold loc_from, join_outer, idx. cbn [rows columns].
  rewrite He. reflexivity.
Qed.

Lemma date_range_start start end_ freq :
  0 < freq -> start <= end_ -> In start (date_range start end_ freq).
Proof.
  intros Hf Hse. apply date_range_In; [exact Hf|].
  split; [lia|]. exists 0. lia.
Qed.

Lemma date_range_not_empty start end_ freq :
  0 < freq -> start <= end_ -> date_range start end_ freq <> [].
Proof.
  intros Hf Hse E. pose proof (date_range_start start end_ freq Hf Hse) as H.
  rewrite E in H. exact H.
Qed.

Lemma In_not_empty {A} (x : A) (l : list A) : In x l -> l <> [].
Proof. intros H E. rewrite E in H. exact H. Qed.

Lemma axis_from (lo start freq : Z) (n : nat) :
  0 < freq ->
  exists start' n',
    filter (fun t => lo <=? t) (axis start freq n) = axis start' freq n'.
Proof.
  intros Hf. revert start. induction n as [|n IH]; intros start.
  - exists start, O. reflexivity.
  - rewrite axis_S. cbn [filter].
    destruct (lo <=? start) eqn:E.
    + exists start, (S n). rewrite axis_S. f_equal.
      apply filter_all. intros t Ht. apply axis_In in Ht.
      destruct Ht as [i [Hi ->]]. apply Z.leb_le in E. apply Z.leb_le. nia.
    + apply IH.
Qed.

Lemma date_range_from_instant start end_ freq lo :
  0 < freq -> In lo (date_range start end_ freq) ->
  filter (fun t => lo <=? t) (date_range start end_ freq)
  = date_range lo end_ freq.
Proof.
  intros Hf Hlo. apply sorted_unique.
  - apply sorted_filter, date_range_sorted.
  - apply date_range_sorted.
  - intros k. rewrite filter_In, Z.leb_le.
    apply date_range_In in Hlo; [|exact Hf].
    destruct Hlo as [[Hl1 Hl2] [a [Ha Hlo]]].
    rewrite !date_range_In by exact Hf. split.
    + intros [[[Hk1 Hk2] [i [Hi Hk]]] Hge].
      split; [lia|]. exists (i - a). split; [nia | lia].
    + intros [[Hk1 Hk2] [i [Hi Hk]]]. split; [|lia].
      split; [lia|]. exists (a + i). split; lia.
Qed.

Lemma joined_index_from w (o : list row) (lo : Z) (ks : list Z) :
  map fst (filter (fun r => lo <=? fst r) (map (joined_row w o) ks))
  = filter (fun t => lo <=? t) ks.
Proof.
  induction ks as [|t l IH]; [reflexivity|].
  cbn [map filter]. rewrite joined_row_key.
  destruct (lo <=? t); cbn [map]; rewrite IH, ?joined_row_key; reflexivity.
Qed.

(** When the labels left by [drop_duplicates] are all on the axis and do
    not repeat, the joined frame is labelled by the axis itself, and the
    rows kept from [lo] on by the instants of the axis that are not
    before [lo]. *)
Section Regular_labels.

Variables (start end_ freq : Z) (original_data : DataFrame).
Hypothesis freq_positive : 0 < freq.
Hypothesis labels_distinct : NoDup (index (drop_duplicates original_data)).
Hypothesis labels_on_axis :
  forall t, In t (index (drop_duplicates original_data)) ->
            In t (date_range start end_ freq).

Lemma regular_no_axis :
  date_range start end_ freq = [] ->
  rows (drop_duplicates original_data) = [].
Proof.
  intros He. destruct (rows (drop_duplicates original_data)) as [|r l] eqn:E;
    [reflexivity|].
  exfalso. assert (H : In (fst r) (date_range start end_ freq)).
  { apply labels_on_axis. unfold index. rewrite E. left. reflexivity. }
  rewrite He in H. exact H.
Qed.

Lemma regular_join_rows :
  rows (full_historical_df start end_ freq original_data)
  = map (joined_row (List.length (columns original_data))
           (rows (drop_duplicates original_data)))
      (date_range start end_ freq).
Proof.
  unfold full_historical_df.
  destruct (list_eq_dec Z.eq_dec (date_range start end_ freq) [])
    as [He|Hne].
  - unfold join_outer, idx. cbn [rows columns]. rewrite He.
    apply regular_no_axis. exact He.
  - rewrite join_outer_rows by exact Hne. unfold idx.
    rewrite sorted_union_absorb
      by (apply date_range_sorted || exact labels_on_axis).
    apply join_unique_labels. exact labels_distinct.
Qed.

Lemma regular_join_index :
  index (full_historical_df start end_ freq original_data)
  = date_range start end_ freq.
Proof.
  unfold index at 1. rewrite regular_join_rows. apply joined_index.
Qed.

Lemma regular_index (lo : Z) :
  index (target_df start end_ freq lo original_data)
  = filter (fun t => lo <=? t) (date_range start end_ freq).
Proof.
  unfold index at 1, target_df. cbv zeta. unfold loc_from. cbn [rows].
  rewrite regular_join_rows. apply joined_index_from.
Qed.

End Regular_labels.

(** C2 (as the code has it): the axis built by [date_range] has
    [(end - start) / frequency + 1] instants that start at [start] and go
    up in steps of [frequency].  The join is an outer one, so raw labels
    that are off the axis or repeated stay in the output; when, once
    [drop_duplicates] has run, every raw label is on the axis and none
    repeats, the joined frame has exactly one row per instant of the
    axis, and the related frame one row per instant of the axis that is
    not before the first label [lo] kept by the slice, in steps of
    [frequency]: all the instants when [lo] is not after [start], and the
    [(end - lo) / frequency + 1] instants from [lo] on when [lo] is an
    instant of the axis, as it is in the notebook. *)
Theorem regular_output_follows_axis (start end_ freq lo : Z)
    (original_data : DataFrame) :
  0 < freq -> start <= end_ ->
  NoDup (index (drop_duplicates original_data)) ->
  (forall t, In t (index (drop_duplicates original_data)) ->
             In t (date_range start end_ freq)) ->
  let axis_instants := date_range start end_ freq in
  let out := related_time_series_df start end_ freq lo original_data in
  (Z.of_nat (List.length axis_instants) = (end_ - start) / freq + 1
   /\ StronglySorted Z.lt axis_instants
   /\ forall i : nat,
        (i < List.length axis_instants)%nat ->
        nth i axis_instants 0 = start + Z.of_nat i * freq)
  /\ index (full_historical_df start end_ freq original_data) = axis_instants
  /\ index out = filter (fun t => lo <=? t) axis_instants
  /\ StronglySorted Z.lt (index out)
  /\ (forall i : nat,
        (S i < List.length (rows out))%nat ->
        nth (S i) (index out) 0 = nth i (index out) 0 + freq)
  /\ (lo <= start ->
      index out = axis_instants
      /\ Z.of_nat (List.length (rows out)) = (end_ - start) / freq + 1)
  /\ (In lo axis_instants ->
      index out = date_range lo end_ freq
      /\ Z.of_nat (List.length (rows out)) = (end_ - lo) / freq + 1
      /\ forall i : nat,
           (i < List.length (rows out))%nat ->
           nth i (index out) 0 = lo + Z.of_nat i * freq).
Proof.
  intros Hf Hse Hnd Hon axis_instants out.
  assert (Hout : index out = filter (fun t => lo <=? t) axis_instants).
  { unfold out. rewrite related_index.
    apply regular_index; assumption. }
  assert (Hrows : List.length (rows out) = List.length (index out))
    by (unfold index; rewrite length_map; reflexivity).
  assert (Hcount : forall a, a <= end_ ->
             Z.of_nat (List.length (date_range a end_ freq))
             = (end_ - a) / freq + 1).
  { intros a Ha. rewrite date_range_axis by exact Hf. rewrite axis_length.
    assert (0 <= (end_ - a) / freq) by (apply Z.div_pos; lia). lia. }
  split; [|split; [|split; [|split; [|split; [|split]]]]].
  - split; [apply Hcount; exact Hse|]. split; [apply date_range_sorted|].
    intros i Hi. unfold axis_instants in *.
    rewrite date_range_axis in * by exact Hf. rewrite axis_length in Hi.
    apply axis_nth. exact Hi.
  - apply regular_join_index; assumption.
  - exact Hout.
  - rewrite Hout. apply sorted_filter, date_range_sorted.
  - intros i Hi. rewrite Hrows in Hi. rewrite Hout in *.
    unfold axis_instants in *. rewrite date_range_axis in * by exact Hf.
    destruct (axis_from lo start freq
                (Z.to_nat ((end_ - start) / freq + 1)) Hf)
      as [start' [n' E]].
    rewrite E in *. rewrite axis_length in Hi.
    rewrite !axis_nth by lia. lia.
  - intros Hlo.
    assert (E : index out = axis_instants).
    { rewrite Hout. apply filter_all. intros t Ht.
      apply date_range_In in Ht; [|exact Hf]. apply Z.leb_le. lia. }
    split; [exact E|]. rewrite Hrows, E. apply Hcount. exact Hse.
  - intros Hlo.
    assert (E : index out = date_range lo end_ freq).
    { rewrite Hout. apply date_range_from_instant; assumption. }
    assert (Hle : lo <= end_).
    { apply date_range_In in Hlo; [|exact Hf]. lia. }
    split; [exact E|]. split.
    + rewrite Hrows, E. apply Hcount. exact Hle.
    + intros i Hi. rewrite Hrows, E in Hi. rewrite E.
      rewrite date_range_axis in * by exact Hf. rewrite axis_length in Hi.
      apply axis_nth. exact Hi.
Qed.

(** Two raw rows out of order and one that repeats the first exactly,
    on an axis that starts an hour before the slice: the repeat is
    dropped, and the output follows the axis from the first label of the
    slice on. *)
Lemma regular_output_example :
  let raw := mkFrame ["traffic_volume"%string]
               [(1483232400, [Num 551600]); (1483228800, [Num 554500]);
                (1483232400, [Num 551600])] in
  let out :=
    related_time_series_df 1483225200 1483236000 3600 1483228800 raw in
  NoDup (index (drop_duplicates raw)) /\
  index out = date_range 1483228800 1483236000 3600 /\
  Z.of_nat (List.length (rows out)) = (1483236000 - 1483228800) / 3600 + 1 /\
  forall i : nat,
    (i < List.length (rows out))%nat ->
    nth i (index out) 0 = 1483228800 + Z.of_nat i * 3600.
Proof.
  intros raw out.
  assert (Hnd : NoDup (index (drop_duplicates raw))).
  { repeat constructor; simpl; intuition discriminate. }
  split; [exact Hnd|].
  destruct (regular_output_follows_axis
              1483225200 1483236000 3600 1483228800 raw)
    as [_ [_ [_ [_ [_ [_ Hlo]]]]]].
  - lia.
  - lia.
  - exact Hnd.
  - intros t Ht. apply date_range_In; [lia|]. simpl in Ht.
    destruct Ht as [<-|[<-|[]]].
    + split; [lia|]. exists 2. lia.
    + split; [lia|]. exists 1. lia.
  - apply Hlo. apply date_range_In; [lia|].
    split; [lia|]. exists 1. lia.
Defined.

(** C2, the claim refuted: with the axis ending at '09/30/2018' (midnight)
    and raw rows up to 01:00 of that day, the output has three rows where
    [(end - start) / frequency + 1] is two; and two raw rows of the same
    hour both stay, so that the labels are not pairwise distinct. *)
Lemma outer_join_keeps_extra_rows :
  index (related_time_series_df 1538262000 1538265600 3600 1538262000
           (mkFrame ["traffic_volume"%string]
              [(1538262000, [Num 145000]); (1538265600, [Num 95400]);
               (1538269200, [Num 66100])]))
  = [1538262000; 1538265600; 1538269200]
  /\ (1538265600 - 1538262000) / 3600 + 1 = 2
  /\
  index (related_time_series_df 1538262000 1538265600 3600 1538262000
           (mkFrame ["weather_description"; "traffic_volume"]%string
              [(1538262000, [Str "mist"; Num 145000]);
               (1538262000, [Str "haze"; Num 145000]);
               (1538265600, [Str "haze"; Num 95400])]))
  = [1538262000; 1538262000; 1538265600].
Proof. repeat split. Qed.

(** ** A regular series goes through unchanged *)

Lemma frame_eq (a b : DataFrame) :
  columns a = columns b -> rows a = rows b -> a = b.
Proof. destruct a, b. simpl. intros -> ->. reflexivity. Qed.

Lemma related_columns_kept start end_ freq lo original_data :
  columns (related_time_series_df start end_ freq lo original_data)
  = columns original_data.
Proof. reflexivity. Qed.

Lemma holds_value_not_null c : holds_value c = true -> isnull c = false.
Proof. destruct c; simpl; congruence. Qed.

Lemma join_of_deduplicated (w : nat) (rs : list row) :
  NoDup (map fst rs) ->
  forall seen,
    map (joined_row w (drop_duplicates_rows seen rs)) (map fst rs)
    = masked w seen rs.
Proof.
  induction rs as [|r rs IH]; intros Hnd seen; [reflexivity|].
  simpl in Hnd. inversion Hnd as [|? ? Hn Hnd']; subst.
  cbn [map drop_duplicates_rows masked].
  destruct (existsb (cells_eqb (snd r)) seen).
  - f_equal; [|apply IH; exact Hnd'].
    unfold joined_row.
    replace (rows_at (fst r) (drop_duplicates_rows seen rs)) with (@nil row);
      [reflexivity|].
    symmetry. apply filter_none. intros r' Hr'. apply Z.eqb_neq. intros E.
    apply Hn. rewrite <- E. apply in_map.
    eapply drop_duplicates_rows_subset. exact Hr'.
  - f_equal.
    + unfold joined_row, rows_at. simpl. rewrite Z.eqb_refl. reflexivity.
    + rewrite <- (IH Hnd' (snd r :: seen)). apply map_ext_in. intros k Hk.
      unfold joined_row. rewrite rows_at_skip_head; [reflexivity|].
      intros E. apply Hn. rewrite E. exact Hk.
Qed.

Lemma replace_masked (w : nat) (rs : list row) :
  (forall r c, In r rs -> In c (snd r) -> holds_value c = true) ->
  forall seen, map replace_row (masked w seen rs) = masked w seen rs.
Proof.
  induction rs as [|r rs IH]; intros H seen; [reflexivity|].
  cbn [masked]. destruct (existsb (cells_eqb (snd r)) seen); cbn [map].
  - f_equal.
    + unfold replace_row. cbn [fst snd]. rewrite replace_nan_row. reflexivity.
    + apply IH. intros r' c Hr'. apply H. right. exact Hr'.
  - f_equal.
    + destruct r as [k cs]. unfold replace_row. cbn [fst snd]. f_equal.
      rewrite <- (map_id cs) at 2. apply map_ext_in. intros c Hc.
      apply replace_cell_value. apply (H (k, cs)); [left; reflexivity|exact Hc].
    + apply IH. intros r' c Hr'. apply H. right. exact Hr'.
Qed.

Lemma nan_row_not_values (w : nat) (cs : list cell) :
  List.length cs = w ->
  (forall c, In c cs -> holds_value c = true) ->
  nan_row w = cs <-> cs = [].
Proof.
  intros Hl Hc. split.
  - intros E. destruct cs as [|c cs]; [reflexivity|].
    exfalso. subst w. cbn in E. injection E as E _.
    specialize (Hc c (or_introl eq_refl)). rewrite <- E in Hc.
    discriminate Hc.
  - intros ->. subst w. reflexivity.
Qed.

Lemma ffill_masked (w : nat) (rs : list row) :
  rows_width w rs ->
  (forall r c, In r rs -> In c (snd r) -> holds_value c = true) ->
  forall seen prev,
    prev = [] \/ List.length prev = w ->
    ffill_rows prev (masked w seen rs) = rs <-> repeats_follow seen prev rs.
Proof.
  induction 1 as [|r rs Hr Hrs IH]; intros Hcells seen prev Hprev.
  - simpl. tauto.
  - assert (Hcells' : forall r' c, In r' rs -> In c (snd r') ->
                                   holds_value c = true).
    { intros r' c Hr'. apply Hcells. right. exact Hr'. }
    assert (Hvals : forall c, In c (snd r) -> holds_value c = true).
    { intros c. apply Hcells. left. reflexivity. }
    cbn [masked repeats_follow].
    destruct (existsb (cells_eqb (snd r)) seen) eqn:E.
    + cbn [ffill_rows fst snd].
      destruct Hprev as [->|Hl].
      * rewrite fill_row_no_prev by constructor.
        destruct (Nat.eq_dec w 0) as [Hw|Hw].
        -- assert (Hnil : snd r = []).
           { rewrite Hw in Hr. destruct (snd r); [reflexivity|discriminate]. }
           destruct r as [k cs]. cbn [fst snd] in *. subst cs.
           clear Hw. cbn [List.length] in Hr. subst w.
           cbn [nan_row repeat].
           rewrite <- (IH Hcells' seen [] (or_introl eq_refl)). split.
           ++ intros H. injection H as H. split; [reflexivity | exact H].
           ++ intros [_ ->]. reflexivity.
        -- split.
           ++ intros H. exfalso. destruct r as [k cs]. cbn [fst snd] in *.
              injection H as H _.
              apply (nan_row_not_values w cs Hr Hvals) in H.
              subst cs. cbn in Hr. lia.
           ++ intros [H _]. exfalso. rewrite H in Hr. cbn in Hr. lia.
      * rewrite <- Hl, fill_row_gap, Hl.
        rewrite <- (IH Hcells' seen prev (or_intror Hl)).
        destruct r as [k cs]. cbn [fst snd]. split.
        -- intros H. injection H as H1 H2.
           split; [symmetry; exact H1|exact H2].
        -- intros [-> ->]. reflexivity.
    + cbn [ffill_rows].
      assert (Hfill : fill_row prev (snd r) = snd r).
      { apply fill_row_no_null.
        destruct (existsb isnull (snd r)) eqn:En; [|reflexivity].
        apply existsb_exists in En. destruct En as [c [Hc Hn]].
        rewrite (holds_value_not_null c) in Hn; [discriminate|].
        apply Hvals. exact Hc. }
      rewrite Hfill.
      rewrite <- (IH Hcells' (snd r :: seen) (snd r) (or_intror Hr)).
      destruct r as [k cs]. cbn [fst snd]. split.
      * intros H. injection H as H. exact H.
      * intros ->. reflexivity.
Qed.

Lemma repeats_follow_positions (rs : list row) :
  forall seen prev,
    repeats_follow seen prev rs <->
    forall j : nat,
      (j < List.length rs)%nat ->
      In (nth j (map snd rs) []) seen
      \/ (exists i, (i < j)%nat /\ nth i (map snd rs) [] = nth j (map snd rs) []) ->
      nth j (map snd rs) []
      = match j with O => prev | S j' => nth j' (map snd rs) [] end.
Proof.
  induction rs as [|r rs IH]; intros seen prev.
  - simpl. split; [intros _ j Hj; lia | tauto].
  - cbn [repeats_follow].
    destruct (existsb (cells_eqb (snd r)) seen) eqn:E.
    + apply existsb_cells_In in E.
      rewrite (IH seen prev). split.
      * intros [Hhead Htail] j Hj Hrep. destruct j as [|j].
        -- exact Hhead.
        -- cbn [map nth]. cbn [map nth List.length] in Hj, Hrep.
           destruct j as [|j].
           ++ cbn [nth]. rewrite (Htail 0%nat); [symmetry; exact Hhead|lia|].
              destruct Hrep as [Hin|[i [Hi Hv]]]; [left; exact Hin|].
              destruct i as [|i]; [|lia]. cbn [nth] in Hv.
              left. rewrite <- Hv. exact E.
           ++ apply (Htail (S j)); [lia|].
              destruct Hrep as [Hin|[i [Hi Hv]]]; [left; exact Hin|].
              destruct i as [|i].
              ** cbn [nth] in Hv. left. rewrite <- Hv. exact E.
              ** right. exists i. split; [lia | exact Hv].
      * intros H. split.
        -- apply (H 0%nat); [simpl; lia|]. left. exact E.
        -- intros j Hj Hrep.
           assert (Hj' : (S j < List.length (r :: rs))%nat) by (simpl; lia).
           assert (Hrep' :
                     In (nth (S j) (map snd (r :: rs)) []) seen
                     \/ (exists i, (i < S j)%nat /\
                                   nth i (map snd (r :: rs)) []
                                   = nth (S j) (map snd (r :: rs)) [])).
           { destruct Hrep as [Hin|[i [Hi Hv]]]; [left; exact Hin|].
             right. exists (S i). split; [lia | exact Hv]. }
           pose proof (H (S j) Hj' Hrep') as Hval. cbn [map nth] in Hval.
           rewrite Hval. destruct j as [|j]; [|reflexivity].
           cbn [nth]. apply (H 0%nat); [simpl; lia|].
           left. exact E.
    + apply existsb_cells_not_In in E.
      rewrite (IH (snd r :: seen) (snd r)). split.
      * intros Htail j Hj Hrep. destruct j as [|j].
        -- cbn [map nth] in Hrep. destruct Hrep as [Hin|[i [Hi _]]];
             [contradiction | lia].
        -- cbn [map nth]. cbn [map nth List.length] in Hj, Hrep.
           rewrite (Htail j); [destruct j; reflexivity | lia |].
           destruct Hrep as [Hin|[i [Hi Hv]]]; [left; right; exact Hin|].
           destruct i as [|i].
           ++ cbn [nth] in Hv. left. left. exact Hv.
           ++ right. exists i. split; [lia | exact Hv].
      * intros H j Hj Hrep.
        assert (Hj' : (S j < List.length (r :: rs))%nat) by (simpl; lia).
        assert (Hrep' :
                  In (nth (S j) (map snd (r :: rs)) []) seen
                  \/ (exists i, (i < S j)%nat /\
                                nth i (map snd (r :: rs)) []
                                = nth (S j) (map snd (r :: rs)) [])).
        { destruct Hrep as [[Heq|Hin]|[i [Hi Hv]]].
          - right. exists 0%nat. split; [lia|]. cbn [map nth]. exact Heq.
          - left. exact Hin.
          - right. exists (S i). split; [lia | exact Hv]. }
        pose proof (H (S j) Hj' Hrep') as Hval. cbn [map nth] in Hval.
        rewrite Hval. destruct j; reflexivity.
Qed.

Lemma repeats_follow_adjacent (rs : list row) :
  repeats_follow [] [] rs <-> repeats_adjacent (map snd rs).
Proof.
  rewrite repeats_follow_positions. unfold repeats_adjacent.
  rewrite length_map. split.
  - intros H i j Hij Hj Hv. destruct j as [|j]; [lia|].
    replace (S j - 1)%nat with j by lia. symmetry.
    apply (H (S j) Hj). right. exists i. split; [lia | exact Hv].
  - intros H j Hj [[]|[i [Hi Hv]]]. destruct j as [|j]; [lia|].
    symmetry. replace j with (S j - 1)%nat at 1 by lia.
    apply (H i (S j)); [lia | exact Hj | exact Hv].
Qed.

Lemma masked_app (w : nat) (l1 l2 : list row) :
  forall seen,
    masked w seen (l1 ++ l2)
    = masked w seen l1 ++ masked w (seen_values seen l1) l2.
Proof.
  induction l1 as [|r l1 IH]; intros seen; [reflexivity|].
  cbn [app masked seen_values].
  destruct (existsb (cells_eqb (snd r)) seen); cbn [app]; f_equal; apply IH.
Qed.

Lemma seen_values_In (rs : list row) (v : list cell) :
  forall seen,
    In v (seen_values seen rs) <-> In v seen \/ In v (map snd rs).
Proof.
  induction rs as [|r rs IH]; intros seen; cbn [seen_values map].
  - simpl. tauto.
  - destruct (existsb (cells_eqb (snd r)) seen) eqn:E.
    + apply existsb_cells_In in E. rewrite IH. simpl. split; [tauto|].
      intros [H|[<-|H]]; tauto.
    + rewrite IH. simpl. tauto.
Qed.

Lemma masked_index (w : nat) (rs : list row) :
  forall seen, map fst (masked w seen rs) = map fst rs.
Proof.
  induction rs as [|r rs IH]; intros seen; [reflexivity|].
  cbn [masked]. destruct (existsb (cells_eqb (snd r)) seen);
    cbn [map fst]; f_equal; apply IH.
Qed.

Lemma sorted_rows_split (lo : Z) (rs : list row) :
  StronglySorted Z.lt (map fst rs) ->
  rs = filter (fun r => fst r <? lo) rs ++ filter (fun r => lo <=? fst r) rs.
Proof.
  induction rs as [|r rs IH]; intros Hs; [reflexivity|].
  cbn [map] in Hs. inversion Hs as [|? ? Hs' Hf]; subst.
  cbn [filter]. destruct (Z.ltb_spec (fst r) lo) as [Hlt|Hge].
  - replace (lo <=? fst r) with false by (symmetry; apply Z.leb_gt; exact Hlt).
    cbn [app]. f_equal. apply IH. exact Hs'.
  - replace (lo <=? fst r) with true by (symmetry; apply Z.leb_le; exact Hge).
    rewrite filter_none.
    + cbn [app]. f_equal. symmetry. apply filter_all. intros x Hx.
      rewrite Forall_forall in Hf.
      specialize (Hf (fst x) (in_map fst _ _ Hx)). apply Z.leb_le. lia.
    + intros x Hx. rewrite Forall_forall in Hf.
      specialize (Hf (fst x) (in_map fst _ _ Hx)). apply Z.ltb_ge. lia.
Qed.

Lemma masked_from (w : nat) (lo : Z) (rs : list row) :
  StronglySorted Z.lt (map fst rs) ->
  filter (fun r => lo <=? fst r) (masked w [] rs)
  = masked w (seen_values [] (filter (fun r => fst r <? lo) rs))
      (filter (fun r => lo <=? fst r) rs).
Proof.
  intros Hs.
  set (pre := filter (fun r => fst r <? lo) rs).
  set (post := filter (fun r => lo <=? fst r) rs).
  rewrite (sorted_rows_split lo rs Hs) at 1. fold pre post.
  rewrite masked_app, filter_app.
  rewrite filter_none.
  - cbn [app]. apply filter_all. intros r Hr.
    assert (Hk : In (fst r) (map fst post)).
    { rewrite <- (masked_index w post (seen_values [] pre)).
      apply in_map. exact Hr. }
    apply in_map_iff in Hk. destruct Hk as [r' [<- Hr']].
    unfold post in Hr'. apply filter_In in Hr'. tauto.
  - intros r Hr.
    assert (Hk : In (fst r) (map fst pre)).
    { rewrite <- (masked_index w pre []). apply in_map. exact Hr. }
    apply in_map_iff in Hk. destruct Hk as [r' [<- Hr']].
    unfold pre in Hr'. apply filter_In in Hr'. destruct Hr' as [_ Hr'].
    apply Z.ltb_lt in Hr'. apply Z.leb_gt. exact Hr'.
Qed.

Lemma regular_series_rows (start end_ freq lo : Z) (df : DataFrame) :
  0 < freq ->
  index df = date_range start end_ freq ->
  (forall r c, In r (rows df) -> In c (snd r) -> holds_value c = true) ->
  rows (related_time_series_df start end_ freq lo df)
  = ffill_rows []
      (masked (List.length (columns df))
         (seen_values [] (filter (fun r => fst r <? lo) (rows df)))
         (filter (fun r => lo <=? fst r) (rows df))).
Proof.
  intros Hf Hidx Hcells.
  assert (Hs : StronglySorted Z.lt (map fst (rows df))).
  { fold (index df). rewrite Hidx. apply date_range_sorted. }
  assert (Hnd : NoDup (index df)) by (apply sorted_NoDup; exact Hs).
  rewrite related_rows.
  unfold target_df. cbv zeta. unfold loc_from. cbn [rows].
  rewrite (regular_join_rows start end_ freq df).
  2: { apply drop_duplicates_rows_index_NoDup. exact Hnd. }
  2: { intros k Hk. rewrite <- Hidx. unfold index in *.
       apply in_map_iff in Hk. destruct Hk as [r [<- Hr]]. apply in_map.
       eapply drop_duplicates_rows_subset. exact Hr. }
  rewrite <- Hidx. unfold index, drop_duplicates. cbn [rows].
  rewrite join_of_deduplicated by exact Hnd.
  rewrite masked_from by exact Hs.
  rewrite replace_masked; [reflexivity|].
  intros r c Hr. apply Hcells. apply filter_In in Hr. tauto.
Qed.

Lemma nth_values (rs : list row) (j : nat) :
  nth j (map snd rs) [] = snd (nth j rs (0, [])).
Proof.
  change (@nil cell) with (snd (0, @nil cell)) at 1. apply map_nth.
Qed.

Lemma repeats_follow_from (w : nat) (lo : Z) (rs : list row) :
  (0 < w)%nat -> rows_width w rs ->
  StronglySorted Z.lt (map fst rs) ->
  repeats_follow (seen_values [] (filter (fun r => fst r <? lo) rs)) []
    (filter (fun r => lo <=? fst r) rs)
  <-> repeats_adjacent_from lo rs.
Proof.
  intros Hw Hwidth Hs.
  set (pre := filter (fun r => fst r <? lo) rs).
  set (post := filter (fun r => lo <=? fst r) rs).
  assert (Hrs : rs = pre ++ post) by (apply sorted_rows_split; exact Hs).
  assert (Hpre : forall i, (i < List.length pre)%nat ->
                           fst (nth i pre (0, [])) < lo).
  { intros i Hi. assert (H : In (nth i pre (0, [])) pre)
      by (apply nth_In; exact Hi).
    unfold pre in H. apply filter_In in H. apply Z.ltb_lt. tauto. }
  assert (Hpost : forall i, (i < List.length post)%nat ->
                            lo <= fst (nth i post (0, []))).
  { intros i Hi. assert (H : In (nth i post (0, [])) post)
      by (apply nth_In; exact Hi).
    unfold post in H. apply filter_In in H. apply Z.leb_le. tauto. }
  assert (Hlen : forall i, (i < List.length post)%nat ->
                           snd (nth i post (0, [])) <> []).
  { intros i Hi E. assert (H : In (nth i post (0, [])) post)
      by (apply nth_In; exact Hi).
    unfold post in H. apply filter_In in H. destruct H as [H _].
    unfold rows_width in Hwidth. rewrite Forall_forall in Hwidth.
    specialize (Hwidth _ H). cbv beta in Hwidth. unfold post in E.
    rewrite E in Hwidth. cbn in Hwidth. lia. }
  clearbody pre post.
  assert (Hlens : List.length rs
                  = (List.length pre + List.length post)%nat)
    by (rewrite Hrs; apply length_app).
  assert (Hn1 : forall i, (i < List.length pre)%nat ->
                          nth i rs (0, []) = nth i pre (0, [])).
  { intros i Hi. rewrite Hrs. apply app_nth1. exact Hi. }
  assert (Hn2 : forall i, (List.length pre <= i)%nat ->
                          nth i rs (0, [])
                          = nth (i - List.length pre) post (0, [])).
  { intros i Hi. rewrite Hrs. apply app_nth2. exact Hi. }
  clear Hrs.
  rewrite repeats_follow_positions. unfold repeats_adjacent_from.
  split.
  - intros H i j Hij Hj Hlabel Hv.
    assert (Hjn : (List.length pre <= j)%nat).
    { destruct (Nat.le_gt_cases (List.length pre) j) as [Hle|Hgt];
        [exact Hle|].
      exfalso. rewrite (Hn1 j Hgt) in Hlabel.
      specialize (Hpre j Hgt). lia. }
    remember (j - List.length pre)%nat as j' eqn:Ej.
    assert (Hj' : (j' < List.length post)%nat) by lia.
    assert (Enj : nth j rs (0, []) = nth j' post (0, []))
      by (rewrite (Hn2 j Hjn), <- Ej; reflexivity).
    assert (Htrig :
              In (nth j' (map snd post) []) (seen_values [] pre)
              \/ (exists i', (i' < j')%nat /\
                             nth i' (map snd post) []
                             = nth j' (map snd post) [])).
    { rewrite nth_values, <- Enj, <- Hv.
      destruct (Nat.le_gt_cases (List.length pre) i) as [Hle|Hgt].
      - right. exists (i - List.length pre)%nat. split; [lia|].
        rewrite nth_values, (Hn2 i Hle). reflexivity.
      - left. apply seen_values_In. right.
        rewrite (Hn1 i Hgt). apply in_map. apply nth_In. exact Hgt. }
    specialize (H j' Hj' Htrig).
    destruct j' as [|j''].
    + exfalso. rewrite nth_values in H. apply (Hlen 0%nat Hj'). exact H.
    + rewrite !nth_values in H.
      assert (Ep : nth (j - 1) rs (0, []) = nth j'' post (0, [])).
      { rewrite (Hn2 (j - 1)%nat) by lia. f_equal. lia. }
      rewrite Ep, Enj. split; [apply Hpost; lia | symmetry; exact H].
  - intros H j' Hj' Htrig.
    remember (List.length pre + j')%nat as j eqn:Ej.
    assert (Enj : nth j rs (0, []) = nth j' post (0, [])).
    { rewrite (Hn2 j) by lia. f_equal. lia. }
    assert (Hex : exists i, (i < j)%nat /\
                            snd (nth i rs (0, [])) = snd (nth j rs (0, []))).
    { destruct Htrig as [Hin|[i' [Hi' Hv]]].
      - apply seen_values_In in Hin. destruct Hin as [[]|Hin].
        apply (In_nth _ _ []) in Hin. destruct Hin as [i [Hi Hv]].
        rewrite length_map in Hi. exists i. split; [lia|].
        rewrite (Hn1 i Hi), Enj, <- !nth_values. exact Hv.
      - exists (List.length pre + i')%nat. split; [lia|].
        rewrite (Hn2 (List.length pre + i')%nat) by lia.
        replace (List.length pre + i' - List.length pre)%nat with i' by lia.
        rewrite Enj, <- !nth_values. exact Hv. }
    destruct Hex as [i [Hij Hv]].
    assert (Hj : (j < List.length rs)%nat) by lia.
    assert (Hlabel : lo <= fst (nth j rs (0, [])))
      by (rewrite Enj; apply Hpost; exact Hj').
    destruct (H i j Hij Hj Hlabel Hv) as [Hl1 Hl2].
    destruct j' as [|j''].
    + exfalso.
      assert (Hn : (0 < List.length pre)%nat) by lia.
      rewrite (Hn1 (j - 1)%nat) in Hl1 by lia.
      specialize (Hpre (j - 1)%nat ltac:(lia)). lia.
    + rewrite !nth_values.
      assert (Ep : nth (j - 1) rs (0, []) = nth j'' post (0, [])).
      { rewrite (Hn2 (j - 1)%nat) by lia. f_equal. lia. }
      rewrite <- Enj, <- Ep. symmetry. exact Hl2.
Qed.

Lemma distinct_values_adjacent (values : list (list cell)) :
  NoDup values -> repeats_adjacent values.
Proof.
  intros Hnd i j Hij Hj Hv. exfalso.
  apply (proj1 (NoDup_nth values []) Hnd i j) in Hv; lia.
Qed.

(** C7 (as the code has it): of a series that has exactly one row per
    instant of the axis and no cell null or empty, the cells give back
    the rows from the first label [lo] kept by the slice on.  When [lo]
    is not after [start] nothing is cut, and the series comes back
    unchanged exactly when every row that has the values of an earlier
    row has the values of the row just before it; in particular when no
    two rows have the same values.  For any [lo], and a series with a
    column, the rows from [lo] on come back as they are exactly when
    every such row that has the values of an earlier row, be it one
    before [lo], follows a row from [lo] on with these values. *)
Theorem regular_series_unchanged (start end_ freq lo : Z) (df : DataFrame) :
  0 < freq ->
  index df = date_range start end_ freq ->
  well_formed df ->
  (forall r c, In r (rows df) -> In c (snd r) -> holds_value c = true) ->
  (lo <= start ->
   (related_time_series_df start end_ freq lo df = df
    <-> repeats_adjacent (map snd (rows df)))
   /\ (NoDup (map snd (rows df)) ->
       related_time_series_df start end_ freq lo df = df))
  /\ (columns df <> [] ->
      (related_time_series_df start end_ freq lo df = loc_from lo df
       <-> repeats_adjacent_from lo (rows df)))
  /\ index (related_time_series_df start end_ freq lo df)
     = index (loc_from lo df).
Proof.
  intros Hf Hidx Hwf Hcells.
  assert (Hs : StronglySorted Z.lt (map fst (rows df))).
  { fold (index df). rewrite Hidx. apply date_range_sorted. }
  pose proof (regular_series_rows start end_ freq lo df Hf Hidx Hcells)
    as Hrows.
  set (post := filter (fun r : row => lo <=? fst r) (rows df)) in *.
  set (pre := filter (fun r : row => fst r <? lo) (rows df)) in *.
  assert (Hwpost : rows_width (List.length (columns df)) post)
    by (apply rows_width_filter; exact Hwf).
  assert (Hcpost : forall r c, In r post -> In c (snd r) ->
                               holds_value c = true).
  { intros r c Hr. apply Hcells. apply filter_In in Hr. tauto. }
  pose proof (ffill_masked (List.length (columns df)) post Hwpost Hcpost
                (seen_values [] pre) [] (or_introl eq_refl)) as Hfill.
  rewrite <- Hrows in Hfill.
  split; [|split].
  - intros Hlo.
    assert (Hpost : post = rows df).
    { apply filter_all. intros r Hr.
      assert (Hk : In (fst r) (date_range start end_ freq))
        by (rewrite <- Hidx; apply in_map; exact Hr).
      apply date_range_In in Hk; [|exact Hf]. apply Z.leb_le. lia. }
    assert (Hpre : pre = []).
    { apply filter_none. intros r Hr.
      assert (Hk : In (fst r) (date_range start end_ freq))
        by (rewrite <- Hidx; apply in_map; exact Hr).
      apply date_range_In in Hk; [|exact Hf]. apply Z.ltb_ge. lia. }
    rewrite Hpost, Hpre in Hfill. cbn [seen_values] in Hfill.
    assert (Hiff : related_time_series_df start end_ freq lo df = df
                   <-> repeats_adjacent (map snd (rows df))).
    { rewrite <- repeats_follow_adjacent, <- Hfill. split.
      - intros ->. reflexivity.
      - intros H. apply frame_eq; [apply related_columns_kept | exact H]. }
    split; [exact Hiff|]. intros Hnd. apply Hiff.
    apply distinct_values_adjacent. exact Hnd.
  - intros Hcols.
    rewrite <- (repeats_follow_from (List.length (columns df)) lo (rows df)).
    + fold pre post. rewrite <- Hfill. split.
      * intros ->. reflexivity.
      * intros H. apply frame_eq; [reflexivity | exact H].
    + destruct (columns df); [contradiction | cbn; lia].
    + exact Hwf.
    + exact Hs.
  - unfold index. rewrite Hrows, ffill_rows_index, masked_index.
    reflexivity.
Qed.

Lemma regular_series_unchanged_example :
  let df := mkFrame ["traffic_volume"%string]
              [(1483228800, [Num 554500]); (1483232400, [Num 551600]);
               (1483236000, [Num 551600])] in
  related_time_series_df 1483228800 1483236000 3600 1483228800 df = df
  /\ related_time_series_df 1483228800 1483236000 3600 1483232400 df
     = loc_from 1483232400 df.
Proof.
  intros df.
  assert (Hidx : index df = date_range 1483228800 1483236000 3600)
    by reflexivity.
  assert (Hwf : well_formed df) by (repeat constructor).
  assert (Hcells : forall r c, In r (rows df) -> In c (snd r) ->
                               holds_value c = true).
  { intros r c Hr Hc. simpl in Hr.
    destruct Hr as [<-|[<-|[<-|[]]]]; simpl in Hc;
      destruct Hc as [<-|[]]; reflexivity. }
  split.
  - apply (proj1 (proj1 (regular_series_unchanged
                           1483228800 1483236000 3600 1483228800 df
                           ltac:(lia) Hidx Hwf Hcells) ltac:(lia))).
    intros i j Hij Hj Hv. simpl in Hj.
    destruct j as [|[|[|j]]]; try lia.
    + destruct i as [|i]; [discriminate Hv | lia].
    + destruct i as [|[|i]]; try lia; [discriminate Hv | reflexivity].
  - apply (proj1 (proj2 (regular_series_unchanged
                           1483228800 1483236000 3600 1483232400 df
                           ltac:(lia) Hidx Hwf Hcells))); [discriminate|].
    intros i j Hij Hj Hl Hv. simpl in Hj.
    destruct j as [|[|[|j]]]; try lia.
    + destruct i as [|i]; [discriminate Hv | lia].
    + destruct i as [|[|i]]; try lia; [discriminate Hv|].
      split; [cbn; lia | reflexivity].
Defined.

(** C7, the claim refuted: a series with one row per hour and no null,
    whose third hour has the same value as the first, comes out with the
    value of the second hour in its third hour; and a series whose values
    all differ comes out without its first hour when the slice starts at
    the second. *)
Lemma regular_series_changed_by_value_duplicates :
  index (mkFrame ["traffic_volume"%string]
           [(1483228800, [Num 554500]); (1483232400, [Num 551600]);
            (1483236000, [Num 554500])])
  = date_range 1483228800 1483236000 3600
  /\
  related_time_series_df 1483228800 1483236000 3600 1483228800
    (mkFrame ["traffic_volume"%string]
       [(1483228800, [Num 554500]); (1483232400, [Num 551600]);
        (1483236000, [Num 554500])])
  = mkFrame ["traffic_volume"%string]
      [(1483228800, [Num 554500]); (1483232400, [Num 551600]);
       (1483236000, [Num 551600])]
  /\
  related_time_series_df 1483228800 1483236000 3600 1483232400
    (mkFrame ["traffic_volume"%string]
       [(1483228800, [Num 554500]); (1483232400, [Num 551600]);
        (1483236000, [Num 476700])])
  = mkFrame ["traffic_volume"%string]
      [(1483232400, [Num 551600]); (1483236000, [Num 476700])].
Proof. repeat split. Qed.

(** ** Counting the rows of the sliced join *)

Lemma filter_or_length {A} (p q : A -> bool) (l : list A) :
  (forall x, In x l -> p x = true -> q x = false) ->
  List.length (filter (fun x => p x || q x) l)
  = (List.length (filter p l) + List.length (filter q l))%nat.
Proof.
  induction l as [|a l IH]; intros H; [reflexivity|].
  simpl. specialize (IH (fun x Hx => H x (or_intror Hx))).
  pose proof (H a (or_introl eq_refl)) as Ha.
  destruct (p a) eqn:Ep.
  - rewrite (Ha eq_refl). simpl. rewrite IH. reflexivity.
  - simpl. destruct (q a); simpl; rewrite IH; lia.
Qed.

Lemma flat_map_partition_length {A B} (p : A -> bool) (f : A -> list B)
    (l : list A) :
  List.length (flat_map f l)
  = (List.length (flat_map f (filter p l))
     + List.length (flat_map f (filter (fun a => negb (p a)) l)))%nat.
Proof.
  induction l as [|a l IH]; [reflexivity|].
  simpl. rewrite length_app, IH.
  destruct (p a); simpl; rewrite length_app; lia.
Qed.

Lemma existsb_eqb_In (k : Z) (l : list Z) :
  existsb (Z.eqb k) l = true <-> In k l.
Proof.
  rewrite existsb_exists. split.
  - intros [x [Hx E]]. apply Z.eqb_eq in E. subst x. exact Hx.
  - intros H. exists k. split; [exact H | apply Z.eqb_refl].
Qed.

Lemma rows_at_labels_length (rs : list row) (l : list Z) :
  NoDup l ->
  List.length (flat_map (fun k => rows_at k rs) l)
  = List.length (filter (fun r => existsb (Z.eqb (fst r)) l) rs).
Proof.
  induction l as [|a l IH]; intros Hnd.
  - simpl. rewrite filter_none; [reflexivity|]. intros; reflexivity.
  - inversion Hnd as [|? ? Ha Hnd']; subst.
    cbn [flat_map]. rewrite length_app, (IH Hnd').
    cbn [existsb].
    rewrite (filter_or_length (fun r => fst r =? a)
               (fun r => existsb (Z.eqb (fst r)) l)).
    + reflexivity.
    + intros r _ E. apply Z.eqb_eq in E.
      destruct (existsb (Z.eqb (fst r)) l) eqn:E'; [|reflexivity].
      apply existsb_eqb_In in E'. rewrite E in E'. contradiction.
Qed.

Lemma ffill_rows_length prev rs :
  List.length (ffill_rows prev rs) = List.length rs.
Proof.
  rewrite <- (length_map fst (ffill_rows prev rs)), ffill_rows_index.
  apply length_map.
Qed.

Lemma target_row_count (start end_ freq lo : Z) (original_data : DataFrame) :
  let data := drop_duplicates original_data in
  List.length (rows (target_df start end_ freq lo original_data))
  = Nat.add
      (List.length (filter (fun r => lo <=? fst r) (rows data)))
      (List.length
         (filter (fun t => (lo <=? t) && negb (existsb (Z.eqb t) (index data)))
            (date_range start end_ freq))).
Proof.
  intros data.
  destruct (list_eq_dec Z.eq_dec (date_range start end_ freq) [])
    as [He|Hne].
  { rewrite target_rows_empty by exact He. rewrite He. cbn [filter].
    cbn [List.length]. fold data. lia. }
  rewrite target_rows by exact Hne. fold data.
  set (w := List.length (columns original_data)).
  set (U := sorted_union (date_range start end_ freq) (index data)).
  set (B := filter (fun k => lo <=? k) U).
  set (p := fun k : Z => existsb (Z.eqb k) (index data)).
  assert (HB : StronglySorted Z.lt B)
    by (apply sorted_filter, sorted_union_sorted).
  rewrite (flat_map_partition_length p). f_equal.
  - rewrite (flat_map_ext_in (joined_rows w (rows data))
               (fun k => rows_at k (rows data))).
    + rewrite rows_at_labels_length
        by (apply sorted_NoDup, sorted_filter; exact HB).
      f_equal. apply filter_ext_in. intros r Hr.
      assert (Hk : In (fst r) (index data)) by (apply in_map; exact Hr).
      destruct (lo <=? fst r) eqn:El.
      * apply existsb_eqb_In. apply filter_In. split.
        -- apply filter_In. split; [|exact El].
           apply sorted_union_In. right. exact Hk.
        -- apply existsb_eqb_In. exact Hk.
      * destruct (existsb _ _) eqn:E; [|reflexivity].
        apply existsb_eqb_In in E. apply filter_In in E.
        destruct E as [E _]. apply filter_In in E. destruct E as [_ E].
        rewrite El in E. discriminate.
    + intros k Hk. apply filter_In in Hk. destruct Hk as [_ Hk].
      apply existsb_eqb_In in Hk. apply joined_rows_found.
      intros E. unfold index in Hk. apply in_map_iff in Hk.
      destruct Hk as [r [Hf Hr]].
      assert (Hat : In r (rows_at k (rows data)))
        by (apply rows_at_In; split; assumption).
      rewrite E in Hat. destruct Hat.
  - rewrite (flat_map_ext_in (joined_rows w (rows data))
               (fun k => [(k, nan_row w)])).
    + rewrite flat_map_single, length_map. f_equal.
      apply sorted_unique.
      * apply sorted_filter. exact HB.
      * apply sorted_filter. apply date_range_sorted.
      * intros k. rewrite !filter_In. unfold B, U.
        rewrite filter_In, sorted_union_In, andb_true_iff.
        unfold p. split.
        -- intros [[[H|H] Hl] Hn].
           ++ split; [exact H|]. split; [exact Hl | exact Hn].
           ++ apply existsb_eqb_In in H. rewrite H in Hn. discriminate.
        -- intros [H [Hl Hn]]. split; [|exact Hn].
           split; [left; exact H | exact Hl].
    + intros k Hk. apply filter_In in Hk. destruct Hk as [_ Hk].
      apply negb_true_iff in Hk. apply joined_rows_missing.
      intros Hin. apply existsb_eqb_In in Hin. unfold p in Hk.
      fold (index data) in Hin. rewrite Hin in Hk. discriminate.
Qed.

(** ** Gaps inside the range *)

Lemma carried_app prev (l1 l2 : list row) :
  carried prev (l1 ++ l2) = carried (carried prev l1) l2.
Proof.
  revert prev. induction l1 as [|r l1 IH]; intros prev; [reflexivity|].
  cbn [app carried]. apply IH.
Qed.

Lemma ffill_rows_app prev (l1 l2 : list row) :
  ffill_rows prev (l1 ++ l2)
  = ffill_rows prev l1 ++ ffill_rows (carried prev l1) l2.
Proof.
  revert prev. induction l1 as [|r l1 IH]; intros prev; [reflexivity|].
  cbn [app ffill_rows carried]. f_equal. apply IH.
Qed.

Lemma ffill_rows_last prev (l : list row) :
  l <> [] ->
  exists init r,
    ffill_rows prev l = init ++ [r] /\ snd r = carried prev l.
Proof.
  revert prev. induction l as [|r l IH]; intros prev Hl; [contradiction|].
  cbn [ffill_rows carried]. destruct l as [|r' l].
  - exists [], (fst r, fill_row prev (snd r)). split; reflexivity.
  - destruct (IH (fill_row prev (snd r)) ltac:(discriminate))
      as [init [x [E Hx]]].
    exists ((fst r, fill_row prev (snd r)) :: init), x.
    rewrite E. split; [reflexivity | exact Hx].
Qed.

Lemma carried_length (w : nat) prev (l : list row) :
  rows_width w l -> l <> [] -> List.length (carried prev l) = w.
Proof.
  intros Hw. revert prev. induction Hw as [|r l Hr Hl IH]; intros prev Hne;
    [contradiction|].
  cbn [carried]. destruct l as [|r' l].
  - cbn [carried]. rewrite fill_row_length. exact Hr.
  - apply IH. discriminate.
Qed.

Lemma axis_app start freq (a b : nat) :
  axis start freq (a + b)
  = axis start freq a ++ axis (start + Z.of_nat a * freq) freq b.
Proof.
  revert start. induction a as [|a IH]; intros start.
  - cbn [Nat.add app]. replace (start + Z.of_nat 0 * freq) with start by lia.
    reflexivity.
  - cbn [Nat.add]. rewrite !axis_S, IH. cbn [app]. f_equal. f_equal.
    f_equal. lia.
Qed.

Lemma filled_labels prev (l : list row) (r : row) :
  In r (ffill_rows prev (map replace_row l)) -> In (fst r) (map fst l).
Proof.
  intros H. apply (in_map fst) in H.
  rewrite ffill_rows_index, replace_rows_index in H. exact H.
Qed.

Lemma NoDup_same_length {A} (l1 l2 : list A) :
  NoDup l1 -> NoDup l2 -> (forall x, In x l1 <-> In x l2) ->
  List.length l1 = List.length l2.
Proof.
  intros H1 H2 H. apply Nat.le_antisymm.
  - apply NoDup_incl_length; [exact H1|]. intros x Hx. apply H. exact Hx.
  - apply NoDup_incl_length; [exact H2|]. intros x Hx. apply H. exact Hx.
Qed.

Section Gap_fill.

Variables (start end_ freq lo last : Z).
Variables (raw : DataFrame) (missing : list Z).

Hypothesis freq_positive : 0 < freq.
Hypothesis lo_on_axis : In lo (date_range start end_ freq).
Hypothesis data_past_axis : end_ <= last.
Hypothesis raw_hours :
  forall t, In t (index raw)
            <-> In t (date_range lo last freq)
                /\ is_missing missing t = false.
Hypothesis gaps_inside :
  Forall (fun m => In m (date_range (lo + freq) end_ freq)) missing.
Hypothesis gaps_distinct : NoDup missing.
Hypothesis hours_kept :
  forall t, In t (index raw) -> In t (index (drop_duplicates raw)).
Hypothesis first_row_holds_values :
  forall r c, In r (rows raw) -> fst r = lo -> In c (snd r) ->
              holds_value c = true.
Hypothesis raw_well_formed : well_formed raw.

Let w : nat := List.length (columns raw).
Let hours : list Z := date_range lo last freq.
Let kept : list row := rows (drop_duplicates raw).
Let out : DataFrame := related_time_series_df start end_ freq lo raw.

Lemma kept_subset (r : row) : In r kept -> In r (rows raw).
Proof. apply drop_duplicates_rows_subset. Qed.

Lemma kept_index_In (k : Z) :
  In k (map fst kept) <-> In k hours /\ is_missing missing k = false.
Proof.
  unfold hours. rewrite <- raw_hours. split.
  - intros Hk. apply in_map_iff in Hk. destruct Hk as [r [<- Hr]].
    apply in_map, kept_subset. exact Hr.
  - apply hours_kept.
Qed.

Lemma missing_In (m : Z) :
  In m missing -> is_missing missing m = true.
Proof.
  intros Hm. unfold is_missing. apply existsb_exists. exists m.
  split; [exact Hm | apply Z.eqb_refl].
Qed.

Lemma is_missing_In (k : Z) :
  is_missing missing k = true -> In k missing.
Proof.
  unfold is_missing. intros H. apply existsb_exists in H.
  destruct H as [m [Hm E]]. apply Z.eqb_eq in E. subst m. exact Hm.
Qed.

Lemma missing_inside (m : Z) :
  In m missing -> lo + freq <= m <= end_.
Proof.
  intros Hm. pose proof gaps_inside as H. rewrite Forall_forall in H.
  specialize (H m Hm). apply date_range_In in H; [|exact freq_positive].
  tauto.
Qed.

Lemma not_missing_In (k : Z) :
  ~ In k missing -> is_missing missing k = false.
Proof.
  intros H. destruct (is_missing missing k) eqn:E; [|reflexivity].
  exfalso. apply H, is_missing_In. exact E.
Qed.

Lemma hours_start :
  hours = lo :: axis (lo + freq) freq
                  (Z.to_nat ((last - (lo + freq)) / freq + 1)).
Proof.
  pose proof lo_on_axis as Hlo.
  apply date_range_In in Hlo; [|exact freq_positive].
  unfold hours. rewrite date_range_axis by exact freq_positive.
  rewrite steps_succ by lia. apply axis_S.
Qed.

Lemma lo_on_hours : In lo hours.
Proof. rewrite hours_start. left. reflexivity. Qed.

Lemma first_hour_kept : In lo (map fst kept).
Proof.
  apply kept_index_In. split; [exact lo_on_hours|].
  apply not_missing_In. intros H. apply missing_inside in H. lia.
Qed.

Lemma axis_hours (k : Z) :
  lo <= k -> In k (date_range start end_ freq) -> In k hours.
Proof.
  intros Hge Hk. pose proof lo_on_axis as Hlo.
  apply date_range_In in Hlo; [|exact freq_positive].
  destruct Hlo as [[Hl1 Hl2] [a [Ha Hlo]]].
  apply date_range_In in Hk; [|exact freq_positive].
  destruct Hk as [[Hk1 Hk2] [i [Hi Hk]]].
  unfold hours. apply date_range_In; [exact freq_positive|].
  split; [lia|]. exists (i - a). split; [nia | lia].
Qed.

Lemma hours_axis (k : Z) :
  In k hours -> k <= end_ -> In k (date_range start end_ freq).
Proof.
  intros Hk Hle. pose proof lo_on_axis as Hlo.
  apply date_range_In in Hlo; [|exact freq_positive].
  destruct Hlo as [[Hl1 Hl2] [a [Ha Hlo]]].
  unfold hours in Hk. apply date_range_In in Hk; [|exact freq_positive].
  destruct Hk as [[Hk1 Hk2] [i [Hi Hk]]].
  apply date_range_In; [exact freq_positive|].
  split; [lia|]. exists (a + i). split; lia.
Qed.

Lemma hours_from (k : Z) : In k hours -> lo <= k.
Proof.
  intros Hk. unfold hours in Hk.
  apply date_range_In in Hk; [|exact freq_positive]. lia.
Qed.

Lemma kept_labels :
  filter (fun k => lo <=? k)
    (sorted_union (date_range start end_ freq) (map fst kept))
  = hours.
Proof.
  apply sorted_unique.
  - apply sorted_filter, sorted_union_sorted.
  - apply date_range_sorted.
  - intros k. rewrite filter_In, sorted_union_In, Z.leb_le. split.
    + intros [[Hk|Hk] Hge].
      * apply axis_hours; assumption.
      * apply kept_index_In in Hk. tauto.
    + intros Hk. split; [|apply hours_from; exact Hk].
      destruct (Z_le_gt_dec k end_) as [Hle|Hgt].
      * left. apply hours_axis; assumption.
      * right. apply kept_index_In. split; [exact Hk|].
        apply not_missing_In. intros H. apply missing_inside in H. lia.
Qed.

Lemma gap_target_rows :
  rows (target_df start end_ freq lo raw) = flat_map (joined_rows w kept) hours.
Proof.
  rewrite target_rows by (apply (In_not_empty lo); exact lo_on_axis).
  unfold index. fold kept. rewrite kept_labels. reflexivity.
Qed.

Lemma gap_out_rows :
  rows out
  = ffill_rows [] (map replace_row (flat_map (joined_rows w kept) hours)).
Proof. unfold out. rewrite related_rows, gap_target_rows. reflexivity. Qed.

Lemma gap_out_index_In (t : Z) : In t (index out) <-> In t hours.
Proof.
  unfold index. rewrite gap_out_rows, ffill_rows_index, replace_rows_index.
  apply flat_map_keys.
  - intros k r. apply joined_rows_key.
  - intros k. apply joined_rows_has_row.
Qed.

Lemma gap_out_length :
  List.length (rows out) = (List.length kept + List.length missing)%nat.
Proof.
  unfold out. rewrite related_rows, ffill_rows_length, length_map.
  rewrite target_row_count. fold kept. f_equal.
  - f_equal. apply filter_all. intros r Hr. apply Z.leb_le.
    apply hours_from. apply (kept_index_In (fst r)).
    apply in_map. exact Hr.
  - apply NoDup_same_length.
    + apply sorted_NoDup, sorted_filter, date_range_sorted.
    + exact gaps_distinct.
    + intros t. rewrite filter_In, andb_true_iff, negb_true_iff, Z.leb_le.
      split.
      * intros [Ht [Hge Hn]]. apply is_missing_In.
        destruct (is_missing missing t) eqn:E; [reflexivity|].
        exfalso.
        assert (Hk : In t (map fst kept)).
        { apply kept_index_In. split; [|exact E].
          apply axis_hours; assumption. }
        apply existsb_eqb_In in Hk. unfold index in Hn. fold kept in Hn.
        rewrite Hk in Hn. discriminate Hn.
      * intros Hm. pose proof (missing_inside t Hm) as Hin.
        pose proof gaps_inside as Hg. rewrite Forall_forall in Hg.
        specialize (Hg t Hm).
        assert (Hh : In t hours).
        { unfold hours. apply date_range_In in Hg; [|exact freq_positive].
          destruct Hg as [_ [i [Hi Ht]]].
          apply date_range_In; [exact freq_positive|].
          split; [lia|]. exists (i + 1). split; lia. }
        split; [apply hours_axis; [exact Hh | lia]|].
        split; [lia|].
        destruct (existsb (Z.eqb t) (index (drop_duplicates raw))) eqn:E;
          [|reflexivity].
        apply existsb_eqb_In in E. unfold index in E. fold kept in E.
        apply kept_index_In in E. rewrite (missing_In t Hm) in E.
        destruct E; discriminate.
Qed.

Lemma joined_rows_width :
  rows_width w (map replace_row (flat_map (joined_rows w kept) hours)).
Proof.
  apply rows_width_replace. apply rows_width_join.
  apply rows_width_drop_duplicates. exact raw_well_formed.
Qed.

Lemma joined_rows_gap (m : Z) :
  In m missing -> joined_rows w kept m = [(m, nan_row w)].
Proof.
  intros Hm. apply joined_rows_missing. intros Hk.
  apply kept_index_In in Hk. rewrite (missing_In m Hm) in Hk.
  destruct Hk; discriminate.
Qed.

Lemma gap_null_free : null_free out = true.
Proof.
  unfold null_free. rewrite gap_out_rows.
  apply (ffill_rows_null_free w); [exact joined_rows_width|].
  rewrite hours_start. cbn [flat_map].
  assert (Hne : rows_at lo kept <> []).
  { pose proof first_hour_kept as Hk. apply in_map_iff in Hk.
    destruct Hk as [r [Hr Hin]]. intros E.
    assert (H : In r (rows_at lo kept)) by (apply rows_at_In; tauto).
    rewrite E in H. exact H. }
  rewrite (joined_rows_found w kept lo Hne).
  destruct (rows_at lo kept) as [|r0 rest] eqn:E; [contradiction|].
  assert (Hr0 : In r0 (rows_at lo kept)) by (rewrite E; left; reflexivity).
  apply rows_at_In in Hr0. destruct Hr0 as [Hr0 Hlabel].
  apply kept_subset in Hr0.
  cbn [app map ffill_rows].
  rewrite fill_row_no_prev by constructor.
  unfold row_has_null, replace_row. cbn [snd].
  destruct (existsb isnull (map replace_cell (snd r0))) eqn:En;
    [|reflexivity].
  apply existsb_exists in En. destruct En as [c [Hc Hn]].
  apply in_map_iff in Hc. destruct Hc as [c' [<- Hc']].
  rewrite replace_cell_null in Hn.
  rewrite (first_row_holds_values r0 c' Hr0 Hlabel Hc') in Hn.
  discriminate.
Qed.

Lemma gap_carries_previous (m : Z) :
  In m missing ->
  exists before cs,
    loc m out = [cs] /\ loc (m - freq) out = before ++ [cs].
Proof.
  intros Hm.
  pose proof gaps_inside as Hgap. rewrite Forall_forall in Hgap.
  specialize (Hgap m Hm).
  apply date_range_In in Hgap; [|exact freq_positive].
  destruct Hgap as [[Hm1 Hm2] [i [Hi Hmi]]].
  set (n := Z.to_nat ((last - lo) / freq + 1)).
  set (p := Z.to_nat i).
  assert (Hp : (S p < n)%nat).
  { unfold n, p.
    assert (i + 1 <= (last - lo) / freq)
      by (apply Z.div_le_lower_bound; [exact freq_positive | nia]).
    lia. }
  assert (Hhours : hours
                   = axis lo freq p
                     ++ (m - freq) :: m :: axis (m + freq) freq (n - p - 2)).
  { unfold hours. rewrite date_range_axis by exact freq_positive. fold n.
    replace n with (p + S (S (n - p - 2)))%nat at 1 by lia.
    rewrite axis_app, !axis_S. f_equal.
    replace (lo + Z.of_nat p * freq) with (m - freq) by (unfold p; nia).
    f_equal. replace (m - freq + freq) with m by lia. reflexivity. }
  set (f := joined_rows w kept).
  set (A := flat_map f (axis lo freq p)).
  set (P := f (m - freq)).
  set (B := flat_map f (axis (m + freq) freq (n - p - 2))).
  assert (HT : flat_map f hours = (A ++ P) ++ (m, nan_row w) :: B).
  { rewrite Hhours, flat_map_app. cbn [flat_map]. fold A P B.
    replace (f m) with [(m, nan_row w)]
      by (symmetry; apply joined_rows_gap; exact Hm).
    cbn [app]. rewrite <- app_assoc. reflexivity. }
  assert (HP : P <> []).
  { unfold P, f. destruct (joined_rows_has_row w kept (m - freq)) as [r Hr].
    intros E. rewrite E in Hr. exact Hr. }
  assert (Hkeys : forall k r, In r (f k) -> fst r = k)
    by (intros k r; apply joined_rows_key).
  assert (HA : forall r, In r A -> fst r < m - freq).
  { intros r Hr. unfold A in Hr. apply in_flat_map in Hr.
    destruct Hr as [k [Hk Hr]]. rewrite (Hkeys k r Hr).
    apply axis_In in Hk. destruct Hk as [j [Hj ->]]. unfold p in Hj. nia. }
  assert (HB : forall r, In r B -> m < fst r).
  { intros r Hr. unfold B in Hr. apply in_flat_map in Hr.
    destruct Hr as [k [Hk Hr]]. rewrite (Hkeys k r Hr).
    apply axis_In in Hk. destruct Hk as [j [Hj ->]]. nia. }
  set (c := carried [] (map replace_row (A ++ P))).
  assert (Hwidth : rows_width w (map replace_row (A ++ P))).
  { pose proof joined_rows_width as H. fold f in H. rewrite HT in H.
    rewrite map_app in H. apply rows_width_app in H. tauto. }
  assert (Hc : List.length c = w).
  { apply carried_length; [exact Hwidth|].
    rewrite map_app. intros E. apply app_eq_nil in E.
    destruct E as [_ E]. apply map_eq_nil in E. contradiction. }
  assert (Hout : rows out
                 = ffill_rows [] (map replace_row A)
                   ++ ffill_rows (carried [] (map replace_row A))
                        (map replace_row P)
                   ++ (m, c) :: ffill_rows c (map replace_row B)).
  { assert (Eg : replace_row (m, nan_row w) = (m, nan_row w)).
    { unfold replace_row. cbn [fst snd]. rewrite replace_nan_row.
      reflexivity. }
    assert (Ef : fill_row c (nan_row w) = c)
      by (rewrite <- Hc; apply fill_row_gap).
    rewrite gap_out_rows. fold f. rewrite HT, map_app, ffill_rows_app.
    fold c. cbn [map ffill_rows]. rewrite Eg. cbn [fst snd]. rewrite Ef.
    rewrite map_app, ffill_rows_app, <- app_assoc. reflexivity. }
  destruct (ffill_rows_last (carried [] (map replace_row A))
              (map replace_row P)) as [init [x [Elast Hx]]].
  { intros E. apply map_eq_nil in E. contradiction. }
  assert (Hx' : snd x = c).
  { rewrite Hx. unfold c. rewrite map_app, carried_app. reflexivity. }
  assert (HOA : forall r, In r (ffill_rows [] (map replace_row A)) ->
                          fst r < m - freq).
  { intros r Hr. apply filled_labels in Hr. apply in_map_iff in Hr.
    destruct Hr as [r' [<- Hr']]. apply HA. exact Hr'. }
  assert (HOP : forall r,
             In r (ffill_rows (carried [] (map replace_row A))
                     (map replace_row P)) -> fst r = m - freq).
  { intros r Hr. apply filled_labels in Hr. apply in_map_iff in Hr.
    destruct Hr as [r' [<- Hr']]. apply (Hkeys (m - freq)). exact Hr'. }
  assert (HOB : forall r, In r (ffill_rows c (map replace_row B)) ->
                          m < fst r).
  { intros r Hr. apply filled_labels in Hr. apply in_map_iff in Hr.
    destruct Hr as [r' [<- Hr']]. apply HB. exact Hr'. }
  exists (map snd init), c. unfold loc. rewrite Hout. unfold rows_at.
  rewrite !filter_app. cbn [filter fst].
  split.
  - rewrite Z.eqb_refl.
    rewrite (filter_none _ (ffill_rows [] _)).
    2: { intros r Hr. apply Z.eqb_neq. specialize (HOA r Hr). lia. }
    rewrite (filter_none _ (ffill_rows (carried _ _) _)).
    2: { intros r Hr. apply Z.eqb_neq. specialize (HOP r Hr). lia. }
    rewrite (filter_none _ (ffill_rows c _)).
    2: { intros r Hr. apply Z.eqb_neq. specialize (HOB r Hr). lia. }
    reflexivity.
  - replace (m =? m - freq) with false by (symmetry; apply Z.eqb_neq; lia).
    rewrite (filter_none _ (ffill_rows [] _)).
    2: { intros r Hr. apply Z.eqb_neq. specialize (HOA r Hr). lia. }
    rewrite (filter_all _ (ffill_rows (carried _ _) _)).
    2: { intros r Hr. apply Z.eqb_eq. apply HOP. exact Hr. }
    rewrite (filter_none _ (ffill_rows c _)).
    2: { intros r Hr. apply Z.eqb_neq. specialize (HOB r Hr). lia. }
    cbn [app]. rewrite app_nil_r, Elast, map_app. cbn [map].
    rewrite Hx'. reflexivity.
Qed.

End Gap_fill.

(** ** The reference run *)

Lemma reference_first_label_on_axis :
  In from_2017_01_01 (date_range start_2012_10_02 end_2018_09_30 freq_H).
Proof.
  apply date_range_In; [reflexivity|]. split.
  - split; discriminate.
  - exists 37248. split; [discriminate | reflexivity].
Qed.

Lemma reference_hours :
  Z.of_nat (List.length (date_range from_2017_01_01 last_2018_09_30_23 freq_H))
  = 15312.
Proof.
  rewrite date_range_axis by reflexivity. rewrite axis_length. reflexivity.
Qed.


Lemma scenario_rows_label (t : Z) (r : row) :
  In r (scenario_rows t) -> fst r = t.
Proof.
  unfold scenario_rows. destruct (t <? scenario_repeated_until);
    simpl; intros [<-|[<-|[]]] || intros [<-|[]]; reflexivity.
Qed.

Lemma scenario_rows_value (t : Z) (r : row) :
  In r (scenario_rows t) -> snd r = [Num t] \/ snd r = [Num (- t)].
Proof.
  unfold scenario_rows. destruct (t <? scenario_repeated_until);
    simpl; intros [<-|[<-|[]]] || intros [<-|[]]; auto.
Qed.

Lemma scenario_raw_well_formed : well_formed scenario_raw.
Proof.
  unfold well_formed, rows_width, scenario_raw. cbn [rows columns].
  apply Forall_forall. intros r Hr. apply in_flat_map in Hr.
  destruct Hr as [t [_ Hr]]. apply scenario_rows_value in Hr.
  destruct Hr as [-> | ->]; reflexivity.
Qed.

Lemma scenario_raw_index (t : Z) :
  In t (index scenario_raw)
  <-> In t (date_range from_2017_01_01 last_2018_09_30_23 freq_H)
      /\ is_missing scenario_missing t = false.
Proof.
  unfold index, scenario_raw. cbn [rows].
  rewrite flat_map_keys.
  - unfold hours_present. rewrite filter_In, negb_true_iff. reflexivity.
  - intros k r. apply scenario_rows_label.
  - intros k. unfold scenario_rows.
    destruct (k <? scenario_repeated_until); eexists; left; reflexivity.
Qed.

Lemma scenario_gaps_inside :
  Forall (fun m => In m (date_range (from_2017_01_01 + freq_H)
                           end_2018_09_30 freq_H)) scenario_missing.
Proof.
  unfold scenario_missing.
  apply Forall_cons; [|apply Forall_cons; [|apply Forall_cons;
                                              [|apply Forall_nil]]];
    (apply date_range_In; [reflexivity|]);
    (split; [split; discriminate|]).
  - exists 1681. split; [discriminate | reflexivity].
  - exists 7392. split; [discriminate | reflexivity].
  - exists 10417. split; [discriminate | reflexivity].
Qed.

Lemma NoDup_flat_map {A B} (g : A -> list B) (l : list A) :
  NoDup l -> (forall x, In x l -> NoDup (g x)) ->
  (forall x y v, In x l -> In y l -> In v (g x) -> In v (g y) -> x = y) ->
  NoDup (flat_map g l).
Proof.
  induction l as [|a l IH]; intros Hl Hg Hd; [constructor|].
  inversion Hl as [|? ? Ha Hl']; subst. cbn [flat_map].
  apply NoDup_app.
  - apply Hg. left. reflexivity.
  - apply IH; [exact Hl' | intros x Hx; apply Hg; right; exact Hx |].
    intros x y v Hx Hy. apply Hd; right; assumption.
  - intros v Hv Hin. apply in_flat_map in Hin. destruct Hin as [y [Hy Hvy]].
    apply Ha. rewrite (Hd a y v); [exact Hy | left; reflexivity
                                  | right; exact Hy | exact Hv | exact Hvy].
Qed.

Lemma scenario_hours_positive (t : Z) :
  In t (hours_present scenario_missing from_2017_01_01 last_2018_09_30_23
          freq_H) -> 0 < t.
Proof.
  unfold hours_present. intros H. apply filter_In in H. destruct H as [H _].
  apply date_range_In in H; [|reflexivity]. unfold from_2017_01_01 in H. lia.
Qed.

Lemma scenario_values_distinct : NoDup (map snd (rows scenario_raw)).
Proof.
  unfold scenario_raw. cbn [rows].
  rewrite flat_map_concat_map, concat_map, map_map, <- flat_map_concat_map.
  apply NoDup_flat_map.
  - apply sorted_NoDup. unfold hours_present.
    apply sorted_filter, date_range_sorted.
  - intros t Ht. apply scenario_hours_positive in Ht.
    unfold scenario_rows.
    destruct (t <? scenario_repeated_until); cbn [map snd].
    + constructor; [|constructor; [intros []|constructor]].
      intros [H|[]]. injection H as H. lia.
    + constructor; [intros []|constructor].
  - intros x y v Hx Hy Hvx Hvy.
    apply scenario_hours_positive in Hx, Hy.
    apply in_map_iff in Hvx, Hvy.
    destruct Hvx as [rx [<- Hrx]], Hvy as [ry [E Hry]].
    apply scenario_rows_value in Hrx, Hry.
    destruct Hrx as [Ex|Ex], Hry as [Ey|Ey]; rewrite Ex, Ey in E;
      injection E as E; lia.
Qed.

Lemma drop_duplicates_distinct (df : DataFrame) :
  NoDup (map snd (rows df)) -> drop_duplicates df = df.
Proof.
  intros H. destruct df as [cols rs]. unfold drop_duplicates.
  cbn [rows columns] in *. f_equal.
  apply drop_duplicates_rows_id; [exact H | intros r' _ []].
Qed.

Lemma scenario_deduplicated : drop_duplicates scenario_raw = scenario_raw.
Proof. apply drop_duplicates_distinct. exact scenario_values_distinct. Qed.

Lemma scenario_cells_hold_values :
  forall r c, In r (rows scenario_raw) -> In c (snd r) -> holds_value c = true.
Proof.
  intros r c Hr Hc. unfold scenario_raw in Hr. cbn [rows] in Hr.
  apply in_flat_map in Hr. destruct Hr as [t [_ Hr]].
  apply scenario_rows_value in Hr.
  destruct Hr as [E|E]; rewrite E in Hc; destruct Hc as [<-|[]]; reflexivity.
Qed.

Lemma scenario_raw_length :
  Z.of_nat (List.length (rows scenario_raw)) = 18606.
Proof. vm_compute. reflexivity. Qed.


(** ** Lines of comma-separated fields *)

Lemma string_app_nil_r (s : string) : (s ++ EmptyString)%string = s.
Proof. induction s as [|c s IH]; simpl; [reflexivity|]. rewrite IH. reflexivity. Qed.

Lemma string_app_assoc (a b c : string) :
  ((a ++ b) ++ c)%string = (a ++ (b ++ c))%string.
Proof. induction a as [|x a IH]; simpl; [reflexivity|]. rewrite IH. reflexivity. Qed.

Lemma special_false (c : ascii) :
  special c = false ->
  Ascii.eqb c ","%char = false /\ Ascii.eqb c dquote = false.
Proof.
  unfold special. intros H.
  apply orb_false_elim in H. destruct H as [H _].
  apply orb_false_elim in H. exact H.
Qed.

Lemma read_plain (f rest field : string) :
  contains special f = false ->
  read_fields false field (f ++ rest)
  = read_fields false (field ++ f) rest.
Proof.
  revert field. induction f as [|c f IH]; intros field Hf; simpl in *.
  - rewrite string_app_nil_r. reflexivity.
  - apply orb_false_elim in Hf. destruct Hf as [Hc Hf].
    destruct (special_false c Hc) as [H1 H2]. rewrite H1, H2.
    rewrite (IH _ Hf), string_app_assoc. reflexivity.
Qed.

Lemma read_quoted (f rest field : string) :
  ends_field rest ->
  read_fields true field (escape_quotes f ++ String dquote rest)
  = read_fields false (field ++ f) rest.
Proof.
  intros Hrest. revert field. induction f as [|c f IH]; intros field.
  - cbn [escape_quotes append read_fields]. rewrite Ascii.eqb_refl.
    rewrite string_app_nil_r.
    destruct rest as [|c' r]; [reflexivity|]. simpl in Hrest.
    rewrite Hrest. reflexivity.
  - cbn [escape_quotes]. destruct (Ascii.eqb c dquote) eqn:E.
    + apply Ascii.eqb_eq in E. subst c.
      cbn [append read_fields]. rewrite !Ascii.eqb_refl.
      rewrite IH, string_app_assoc. reflexivity.
    + cbn [append read_fields]. rewrite E.
      rewrite IH, string_app_assoc. reflexivity.
Qed.

Lemma read_field (f rest field : string) :
  ends_field rest ->
  read_fields false field (quote_minimal f ++ rest)
  = read_fields false (field ++ f) rest.
Proof.
  intros Hrest. unfold quote_minimal.
  destruct (contains special f) eqn:E.
  - cbn [append read_fields].
    change (Ascii.eqb dquote ","%char) with false. rewrite Ascii.eqb_refl.
    rewrite string_app_assoc. cbn [append].
    apply read_quoted. exact Hrest.
  - apply read_plain. exact E.
Qed.

Lemma read_write_line (fields : list string) :
  fields <> [] -> read_line (write_line fields) = fields.
Proof.
  unfold read_line, write_line.
  induction fields as [|f fs IH]; intros Hne; [contradiction|].
  destruct fs as [|g fs].
  - cbn [map join_fields].
    rewrite <- (string_app_nil_r (quote_minimal f)).
    rewrite read_field by exact I. reflexivity.
  - change (join_fields (map quote_minimal (f :: g :: fs)))
      with (quote_minimal f
              ++ String ","%char (join_fields (map quote_minimal (g :: fs))))%string.
    rewrite read_field by reflexivity.
    cbn [append read_fields]. rewrite Ascii.eqb_refl.
    f_equal. apply IH. discriminate.
Qed.

(** ** The files written *)

Lemma chunks_of_lines (n : nat) :
  forall fuel rs,
    (0 < n)%nat -> (List.length rs <= fuel)%nat ->
    Forall2 (fun line r =>
               exists dates_only,
                 line = write_line (fields_of_row dates_only r))
      (flat_map write_chunk (chunks_of fuel n rs)) rs.
Proof.
  induction fuel as [|fuel IH]; intros rs Hn Hfuel.
  - destruct rs; [constructor | simpl in Hfuel; lia].
  - destruct rs as [|r rs]; [constructor|].
    cbn [chunks_of flat_map].
    rewrite <- (firstn_skipn n (r :: rs)) at 3.
    apply Forall2_app.
    + unfold write_chunk.
      set (d := forallb is_midnight (map fst (firstn n (r :: rs)))).
      clearbody d. induction (firstn n (r :: rs)) as [|x l IHl];
        constructor; [exists d; reflexivity | exact IHl].
    + apply IH; [exact Hn|].
      rewrite length_skipn. lia.
Qed.

Lemma to_csv_no_header (df : DataFrame) :
  Forall2 (fun line r =>
             exists dates_only, line = write_line (fields_of_row dates_only r))
    (to_csv false df) (rows df).
Proof.
  unfold to_csv. cbn [app]. apply chunks_of_lines; [|lia].
  unfold chunksize. lia.
Qed.

Lemma select_columns (names : list string) (df out : DataFrame) :
  select names df = Some out ->
  columns out = names /\
  List.length (rows out) = List.length (rows df) /\
  index out = index df /\
  forall r, In r (rows out) -> List.length (snd r) = List.length names.
Proof.
  unfold select. destruct (positions names (columns df)) as [ps|] eqn:E;
    [|discriminate].
  intros H. injection H as <-. cbn [columns rows]. unfold index.
  cbn [rows].
  assert (Hps : List.length ps = List.length names).
  { revert ps E. induction names as [|n names IH]; intros ps E; simpl in E.
    - injection E as <-. reflexivity.
    - destruct (position n (columns df)); [|discriminate].
      destruct (positions names (columns df)) as [ps'|]; [|discriminate].
      injection E as <-. simpl. f_equal. apply IH. reflexivity. }
  split; [reflexivity|]. split; [apply length_map|]. split.
  - rewrite map_map. apply map_ext. intros r. reflexivity.
  - intros r Hr. apply in_map_iff in Hr. destruct Hr as [r' [<- _]].
    cbn [snd]. rewrite length_map. exact Hps.
Qed.

Lemma with_item_ID_last (names : list string) (df out : DataFrame) :
  position "item_ID" names = None ->
  with_item_ID names df = Some out ->
  columns out = names ++ ["item_ID"%string] /\
  index out = index df /\
  forall r, In r (rows out) ->
    exists cs, snd r = cs ++ [Str "1"]
               /\ List.length cs = List.length names.
Proof.
  intros Hpos. unfold with_item_ID.
  destruct (select names df) as [sel|] eqn:E; [|discriminate].
  cbn [option_map]. intros H. injection H as <-.
  destruct (select_columns names df sel E) as [Hc [_ [Hi Hw]]].
  unfold assign. rewrite Hc, Hpos. cbn [columns rows]. split; [reflexivity|].
  split.
  - unfold index. cbn [rows]. rewrite map_map. exact Hi.
  - intros r Hr. apply in_map_iff in Hr. destruct Hr as [r' [<- Hr']].
    cbn [snd]. exists (snd r'). split; [reflexivity | apply Hw; exact Hr'].
Qed.

Lemma contains_app (p : ascii -> bool) (a b : string) :
  contains p (a ++ b) = contains p a || contains p b.
Proof.
  induction a as [|c a IH]; [reflexivity|].
  cbn [append contains]. rewrite IH. apply orb_assoc.
Qed.

Lemma string_of_uint_plain (u : Decimal.uint) :
  contains special (NilEmpty.string_of_uint u) = false.
Proof. induction u; cbn; try exact IHu; reflexivity. Qed.

Lemma decimal_plain (n : Z) : contains special (decimal n) = false.
Proof.
  unfold decimal, NilZero.string_of_uint.
  destruct (N.to_uint (Z.to_N n)) eqn:E; try reflexivity;
    rewrite <- E; apply string_of_uint_plain.
Qed.

Lemma digit_plain (n : Z) : 0 <= n <= 9 -> special (digit n) = false.
Proof.
  intros H. unfold digit.
  assert (Hn : (Z.to_nat n < 10)%nat) by lia.
  destruct (Z.to_nat n) as [|[|[|[|[|[|[|[|[|[|k]]]]]]]]]]; try reflexivity.
  lia.
Qed.

Lemma float_repr_plain (x : Z) :
  float_repr x <> EmptyString /\ contains special (float_repr x) = false.
Proof.
  unfold float_repr. cbv zeta.
  set (a := Z.abs x). set (fp := a mod 100).
  assert (Hfp : 0 <= fp < 100) by (apply Z.mod_pos_bound; lia).
  assert (Hd : 0 <= fp / 10 <= 9).
  { split; [apply Z.div_pos; lia|].
    assert (fp / 10 < 10) by (apply Z.div_lt_upper_bound; lia). lia. }
  split.
  - destruct (x <? 0); [discriminate|].
    destruct (decimal (a / 100)); discriminate.
  - rewrite !contains_app, decimal_plain.
    assert (Hsign : contains special (if x <? 0 then "-" else EmptyString)
                    = false) by (destruct (x <? 0); reflexivity).
    rewrite Hsign. cbn [orb contains].
    replace (special ".") with false by reflexivity. cbn [orb].
    destruct (fp mod 10 =? 0).
    + cbn [contains]. rewrite digit_plain; [reflexivity | exact Hd].
    + unfold pad2. cbn [contains].
      rewrite !digit_plain; [reflexivity | | exact Hd].
      pose proof (Z.mod_pos_bound fp 10 ltac:(lia)). lia.
Qed.

Lemma cell_field_of_cell (c : cell) : field_of_cell c (cell_field c).
Proof.
  destruct c as [|x|s]; cbn; [reflexivity | apply float_repr_plain
                             | reflexivity].
Qed.

Lemma frame_written_as (df : DataFrame) : written_as (to_csv false df) df.
Proof.
  unfold written_as. eapply Forall2_impl; [|apply to_csv_no_header].
  intros line r [dates_only ->].
  exists dates_only, (map cell_field (snd r)). split.
  - apply read_write_line. discriminate.
  - induction (snd r) as [|c cs IH]; constructor;
      [apply cell_field_of_cell | exact IH].
Qed.

Lemma traffic_volume_frame (df : DataFrame) :
  columns df = original_columns ->
  with_item_ID ["traffic_volume"%string] df
  = Some (mkFrame ["traffic_volume"; "item_ID"]%string
            (map (fun r => (fst r, [nth 7 (snd r) NaN; Str "1"])) (rows df))).
Proof.
  intros Hc. unfold with_item_ID, select. rewrite Hc.
  cbn [positions position original_columns String.eqb Ascii.eqb Bool.eqb
       option_map].
  unfold assign.
  cbn [columns rows position String.eqb Ascii.eqb Bool.eqb option_map app].
  rewrite map_map. reflexivity.
Qed.

Lemma related_frame (df : DataFrame) :
  columns df = original_columns ->
  with_item_ID related_columns df
  = Some (mkFrame ["temp"; "rain_1h"; "snow_1h"; "clouds_all";
                   "weather_description"; "item_ID"]%string
            (map (fun r =>
                    (fst r,
                     [nth 1 (snd r) NaN; nth 2 (snd r) NaN;
                      nth 3 (snd r) NaN; nth 4 (snd r) NaN;
                      nth 6 (snd r) NaN; Str "1"]))
               (rows df))).
Proof.
  intros Hc. unfold with_item_ID, select. rewrite Hc.
  cbn [positions position original_columns related_columns String.eqb
       Ascii.eqb Bool.eqb option_map].
  unfold assign.
  cbn [columns rows position String.eqb Ascii.eqb Bool.eqb option_map app].
  rewrite map_map. reflexivity.
Qed.

(** C8: the three files are written by [to_csv(header=False)] from the
    frames made for them.  With a positive step, as that of the
    frequency "H", and the columns of the data set, each frame
    exists and holds, for every row of its slice and in the same order,
    the cells of the columns kept, in the order asked for, and the item
    identifier "1" last: the traffic volume for the target and validation
    files, and temperature, rain, snow, clouds and weather description
    for the related file.  Each file has one line per row of its frame
    and no header line; read back as comma-separated values a line gives
    the text of the timestamp and then one field per cell.  By position
    the fields are the attributes of the schema handed to
    [create_dataset]: timestamp, target_value, item_id, and timestamp,
    temperature, rain_1h, snow_1h, clouds_all, weather, item_id. *)
Theorem written_files_follow_schema (start end_ freq lo hi lo' : Z)
    (original_data : DataFrame) :
  0 < freq ->
  columns original_data = original_columns ->
  let whole := target_df start end_ freq lo original_data in
  let filled := related_time_series_df start end_ freq lo original_data in
  exists target validation related : DataFrame,
  exists target_lines validation_lines related_lines : list string,
    (target_time_series_df start end_ freq lo hi original_data = Some target
     /\ validation_time_series_df start end_ freq lo lo' original_data
        = Some validation
     /\ related_time_series_export start end_ freq lo original_data
        = Some related)
    /\ (write_csv (target_time_series_df start end_ freq lo hi original_data)
        = Some target_lines
        /\ write_csv
             (validation_time_series_df start end_ freq lo lo' original_data)
           = Some validation_lines
        /\ write_csv
             (related_time_series_export start end_ freq lo original_data)
           = Some related_lines)
    /\ (rows target
        = map (fun r => (fst r, [nth 7 (snd r) NaN; Str "1"]))
            (rows (loc_between lo hi whole))
        /\ rows validation
           = map (fun r => (fst r, [nth 7 (snd r) NaN; Str "1"]))
               (rows (loc_from lo' whole))
        /\ rows related
           = map (fun r =>
                    (fst r,
                     [nth 1 (snd r) NaN; nth 2 (snd r) NaN;
                      nth 3 (snd r) NaN; nth 4 (snd r) NaN;
                      nth 6 (snd r) NaN; Str "1"]))
               (rows filled))
    /\ (file_layout target = map Some schema
        /\ file_layout validation = map Some schema
        /\ file_layout related = map Some related_schema)
    /\ (written_as target_lines target
        /\ written_as validation_lines validation
        /\ written_as related_lines related).
Proof.
  intros _ Hcols whole filled.
  pose proof (traffic_volume_frame (loc_between lo hi whole) Hcols) as Ht.
  pose proof (traffic_volume_frame (loc_from lo' whole) Hcols) as Hv.
  pose proof (related_frame filled Hcols) as Hr.
  unfold target_time_series_df, validation_time_series_df,
    related_time_series_export.
  fold whole filled. rewrite Ht, Hv, Hr.
  eexists. eexists. eexists. eexists. eexists. eexists.
  split; [split; [reflexivity | split; reflexivity]|].
  split; [split; [reflexivity | split; reflexivity]|].
  split; [split; [reflexivity | split; reflexivity]|].
  split; [split; [reflexivity | split; reflexivity]|].
  split; [apply frame_written_as | split; apply frame_written_as].
Qed.

Lemma written_files_example :
  let raw :=
    mkFrame original_columns
      [(1483228800,
        [Str "None"; Num 26975; Num 0; Num 0; Num 7500; Str "Clouds";
         Str "broken clouds"; Num 554500]);
       (1483236000,
        [Str "None"; Num 26995; Num 0; Num 0; Num 100; Str "Clear";
         Str "sky is clear"; Num 551600])]%string in
  exists target validation related : DataFrame,
  exists target_lines validation_lines related_lines : list string,
    target_time_series_csv raw = Some target_lines
    /\ validation_time_series_csv raw = Some validation_lines
    /\ related_time_series_csv raw = Some related_lines
    /\ file_layout target = map Some schema
    /\ file_layout validation = map Some schema
    /\ file_layout related = map Some related_schema
    /\ written_as target_lines target
    /\ written_as validation_lines validation
    /\ written_as related_lines related.
Proof.
  intros raw.
  destruct (written_files_follow_schema
              start_2012_10_02 end_2018_09_30 freq_H from_2017_01_01
              to_2017_12_31 from_2018_01_01 raw eq_refl eq_refl)
    as [target [validation [related [tl [vl [rl H]]]]]].
  destruct H as [_ [[Htl [Hvl Hrl]] [_ [[Hlt [Hlv Hlr]] [Hwt [Hwv Hwr]]]]]].
  exists target, validation, related, tl, vl, rl.
  split; [exact Htl|]. split; [exact Hvl|]. split; [exact Hrl|].
  split; [exact Hlt|]. split; [exact Hlv|]. split; [exact Hlr|].
  split; [exact Hwt|]. split; [exact Hwv | exact Hwr].
Defined.

(** The lines of the two files for three hours, the second of which has
    no raw row: the target file keeps the gap, the related file fills
    it. *)
Lemma written_files_lines :
  let raw :=
    mkFrame original_columns
      [(1483228800,
        [Str "None"; Num 26975; Num 0; Num 0; Num 7500; Str "Clouds";
         Str "broken clouds"; Num 554500]);
       (1483236000,
        [Str "None"; Num 26995; Num 0; Num 0; Num 100; Str "Clear";
         Str "sky is clear"; Num 551600])]%string in
  write_csv (target_time_series_df 1483228800 1483236000 3600 1483228800
               1514764799 raw)
  = Some ["2017-01-01 00:00:00,5545.0,1";
          "2017-01-01 01:00:00,,1";
          "2017-01-01 02:00:00,5516.0,1"]%string
  /\
  write_csv (related_time_series_export 1483228800 1483236000 3600
               1483228800 raw)
  = Some ["2017-01-01 00:00:00,269.75,0.0,0.0,75.0,broken clouds,1";
          "2017-01-01 01:00:00,269.75,0.0,0.0,75.0,broken clouds,1";
          "2017-01-01 02:00:00,269.95,0.0,0.0,1.0,sky is clear,1"]%string.
Proof. split; vm_compute; reflexivity. Qed.

(** ** Nothing is checked after the fill *)

Lemma fill_row_not_empty prev cs :
  Forall (fun c => c <> Str EmptyString) prev ->
  Forall (fun c => c <> Str EmptyString) cs ->
  Forall (fun c => c <> Str EmptyString) (fill_row prev cs).
Proof.
  revert prev. induction cs as [|c cs IH]; intros prev Hp Hc; [constructor|].
  inversion Hc as [|? ? Hc1 Hc2]; subst.
  destruct prev as [|p prev]; simpl.
  - constructor; [exact Hc1 | apply IH; [constructor | exact Hc2]].
  - inversion Hp as [|? ? Hp1 Hp2]; subst. constructor.
    + destruct (isnull c); assumption.
    + apply IH; assumption.
Qed.

Lemma ffill_rows_not_empty prev rs :
  Forall (fun c => c <> Str EmptyString) prev ->
  Forall (fun r : row => Forall (fun c => c <> Str EmptyString) (snd r)) rs ->
  Forall (fun r : row => Forall (fun c => c <> Str EmptyString) (snd r))
    (ffill_rows prev rs).
Proof.
  revert prev. induction rs as [|r rs IH]; intros prev Hp Hr; [constructor|].
  inversion Hr as [|? ? Hr1 Hr2]; subst. simpl.
  assert (H : Forall (fun c => c <> Str EmptyString) (fill_row prev (snd r)))
    by (apply fill_row_not_empty; assumption).
  constructor; [exact H | apply IH; assumption].
Qed.

Lemma replace_cell_not_empty c : replace_cell c <> Str EmptyString.
Proof.
  destruct c as [| |s]; simpl; try discriminate.
  destruct (String.eqb s EmptyString) eqn:E; [discriminate|].
  intros H. injection H as ->. discriminate E.
Qed.

Lemma replace_cell_id c : c <> Str EmptyString -> replace_cell c = c.
Proof.
  destruct c as [| |s]; simpl; try reflexivity.
  intros H. destruct (String.eqb s EmptyString) eqn:E; [|reflexivity].
  apply String.eqb_eq in E. subst s. contradiction.
Qed.

Lemma related_no_empty_text (start end_ freq lo : Z)
    (original_data : DataFrame) :
  Forall (fun r : row => Forall (fun c => c <> Str EmptyString) (snd r))
    (rows (related_time_series_df start end_ freq lo original_data)).
Proof.
  rewrite related_rows. apply ffill_rows_not_empty; [constructor|].
  apply Forall_forall. intros r Hr. apply in_map_iff in Hr.
  destruct Hr as [r' [<- _]]. unfold replace_row. cbn [snd].
  apply Forall_forall. intros c Hc. apply in_map_iff in Hc.
  destruct Hc as [c' [<- _]]. apply replace_cell_not_empty.
Qed.

Lemma nth_not_empty (p : nat) (cs : list cell) :
  Forall (fun c => c <> Str EmptyString) cs ->
  nth p cs NaN <> Str EmptyString.
Proof.
  intros H. destruct (Nat.lt_ge_cases p (List.length cs)) as [Hp|Hp].
  - rewrite Forall_forall in H. apply H. apply nth_In. exact Hp.
  - rewrite nth_overflow by exact Hp. discriminate.
Qed.

Lemma Forall2_impl_right {A B} (R : B -> Prop) (P Q : A -> B -> Prop)
    (l1 : list A) (l2 : list B) :
  Forall R l2 -> (forall a b, R b -> P a b -> Q a b) ->
  Forall2 P l1 l2 -> Forall2 Q l1 l2.
Proof.
  intros HR HPQ H. induction H as [|a b l1 l2 Hab Hl IH]; [constructor|].
  inversion HR as [|? ? Hb HR']; subst.
  constructor; [apply HPQ; assumption | apply IH; exact HR'].
Qed.

Lemma empty_field_iff_null (cs : list cell) (fields : list string) :
  Forall (fun c => c <> Str EmptyString) cs ->
  Forall2 field_of_cell cs fields ->
  Forall2 (fun c f => f = EmptyString <-> isnull c = true) cs fields.
Proof.
  intros Hc H. induction H as [|c f cs fs Hcf Hl IH]; [constructor|].
  inversion Hc as [|? ? Hc1 Hc2]; subst.
  constructor; [|apply IH; exact Hc2].
  destruct c as [|x|s]; cbn in *.
  - tauto.
  - destruct Hcf as [Hne _]. split; [contradiction | discriminate].
  - subst f. split; [|discriminate]. intros ->. contradiction.
Qed.

(** C1 (as the code has it): nothing is checked after the forward fill
    and nothing is raised.  For a positive step, and data that has a row
    (the notebook reads its first and last date before anything else) and
    the columns of the data set, the related frame is made and written
    whatever its gaps:
    the frame written has, for every row of [related_time_series_df], the
    cells of the five columns kept and the item id, and the file one line
    per row.  The related frame is free of nulls exactly when its first
    row is, and a field of the file is empty exactly when the cell it is
    written for is null: the nulls of a leading gap stay and are written
    as empty fields. *)
Theorem related_null_free_iff_first_row (start end_ freq lo : Z)
    (original_data : DataFrame) :
  0 < freq ->
  rows original_data <> [] ->
  well_formed original_data ->
  columns original_data = original_columns ->
  let related := related_time_series_df start end_ freq lo original_data in
  (null_free related = true
   <-> match rows related with
       | [] => True
       | r :: _ => row_has_null r = false
       end)
  /\ exists (written : DataFrame) (lines : list string),
       related_time_series_export start end_ freq lo original_data
       = Some written
       /\ write_csv
            (related_time_series_export start end_ freq lo original_data)
          = Some lines
       /\ rows written
          = map (fun r =>
                   (fst r,
                    [nth 1 (snd r) NaN; nth 2 (snd r) NaN;
                     nth 3 (snd r) NaN; nth 4 (snd r) NaN;
                     nth 6 (snd r) NaN; Str "1"]))
              (rows related)
       /\ List.length lines = List.length (rows related)
       /\ Forall2
            (fun line r =>
               exists (dates_only : bool) (fields : list string),
                 read_line line = index_field dates_only (fst r) :: fields
                 /\ Forall2
                      (fun c f => f = EmptyString <-> isnull c = true)
                      (snd r) fields)
            lines (rows written).
Proof.
  intros _ _ Hwf Hcols related.
  split.
  - unfold null_free, related. rewrite related_rows.
    apply (ffill_rows_null_free
             (List.length
                (columns (target_df start end_ freq lo original_data)))).
    apply rows_width_replace.
    apply (well_formed_target_df start end_ freq lo original_data Hwf).
  - pose proof (related_frame related Hcols) as Hr.
    unfold related_time_series_export. fold related. rewrite Hr.
    eexists. eexists.
    split; [reflexivity|]. split; [reflexivity|]. split; [reflexivity|].
    set (written := mkFrame _ _).
    pose proof (frame_written_as written) as Hw. unfold written_as in Hw.
    split.
    + apply Forall2_length in Hw. rewrite Hw. unfold written.
      cbn [rows]. apply length_map.
    + assert (HR : Forall
                       (fun r : row =>
                          Forall (fun c => c <> Str EmptyString) (snd r))
                       (rows written)).
      { unfold written. cbn [rows]. apply Forall_forall. intros r Hr'.
        apply in_map_iff in Hr'. destruct Hr' as [r' [<- Hin]].
        cbn [snd].
        pose proof (related_no_empty_text start end_ freq lo original_data)
          as Hne.
        rewrite Forall_forall in Hne. specialize (Hne r' Hin).
        repeat (apply Forall_cons; [apply nth_not_empty; exact Hne|]).
        apply Forall_cons; [discriminate | apply Forall_nil]. }
      refine (Forall2_impl_right _ _ _ _ _ HR _ Hw).
      intros line r Hne [d [fields [Hread Hfields]]].
      exists d, fields. split; [exact Hread|].
      apply empty_field_iff_null; assumption.
Qed.

Lemma related_null_free_example :
  let raw :=
    mkFrame original_columns
      [(1483228800,
        [Str "None"; Num 26975; Num 0; Num 0; Num 7500; Str "Clouds";
         Str "broken clouds"; Num 554500]);
       (1483236000,
        [Str "None"; Num 26995; Num 0; Num 0; Num 100; Str "Clear";
         Str "sky is clear"; Num 551600])]%string in
  null_free (related_time_series_df 1483228800 1483236000 3600 1483228800 raw)
  = true
  /\ exists (written : DataFrame) (lines : list string),
       related_time_series_export 1483228800 1483236000 3600 1483228800 raw
       = Some written
       /\ write_csv (related_time_series_export 1483228800 1483236000 3600
                       1483228800 raw)
          = Some lines
       /\ List.length lines
          = List.length
              (rows (related_time_series_df 1483228800 1483236000 3600
                       1483228800 raw)).
Proof.
  intros raw.
  destruct (related_null_free_iff_first_row
              1483228800 1483236000 3600 1483228800 raw)
    as [Hnull [written [lines [Hw [Hl [_ [Hlen _]]]]]]].
  - lia.
  - discriminate.
  - repeat constructor.
  - reflexivity.
  - split; [apply (proj2 Hnull); reflexivity|].
    exists written, lines. repeat split; assumption.
Defined.

(** C1, the claim refuted: with a leading gap (the first raw row is at
    01:00 and the slice starts at 00:00) the related frame has a row of
    nulls, nothing is raised, and the file is written with the row of the
    gap as empty fields. *)
Lemma related_leading_gap_is_emitted :
  let raw :=
    mkFrame original_columns
      [(1483232400,
        [Str "None"; Num 26975; Num 0; Num 0; Num 7500; Str "Clouds";
         Str "broken clouds"; Num 554500])]%string in
  rows raw <> []
  /\ null_free
       (related_time_series_df 1483228800 1483236000 3600 1483228800 raw)
     = false
  /\ write_csv (related_time_series_export 1483228800 1483236000 3600
                  1483228800 raw)
     = Some ["2017-01-01 00:00:00,,,,,,1";
             "2017-01-01 01:00:00,269.75,0.0,0.0,75.0,broken clouds,1";
             "2017-01-01 02:00:00,269.75,0.0,0.0,75.0,broken clouds,1"]%string.
Proof.
  intros raw. split; [discriminate|]. split; vm_compute; reflexivity.
Qed.

(** ** The timestamp format *)

Lemma hour_of_range (t : Z) : 0 <= hour_of t <= 23.
Proof.
  unfold hour_of.
  assert (0 <= t mod 86400 < 86400) by (apply Z.mod_pos_bound; lia).
  split.
  - apply Z.div_pos; lia.
  - assert (t mod 86400 / 3600 < 24)
      by (apply Z.div_lt_upper_bound; lia).
    lia.
Qed.

(** C9, the run at 13:00: the file holds the hour on the 24-hour clock,
    "2017-01-01 13:00:00", as it does for every instant (the hour field is
    between 00 and 23), and the format handed to the import job is
    "yyyy-MM-dd hh:mm:ss", with the letters of the 12-hour clock, not
    "yyyy-MM-dd HH:mm:ss". *)
Theorem declared_timestamp_format :
  to_csv false
    (mkFrame ["traffic_volume"; "item_ID"]%string
       [(1483275600, [Num 554500; Str "1"])])
  = ["2017-01-01 13:00:00,5545.0,1"%string]
  /\
  (forall t : Z,
     index_field false t
     = (format_date t ++ " " ++ pad2 (hour_of t) ++ ":" ++ pad2 (minute_of t)
          ++ ":" ++ pad2 (second_of t))%string
     /\ 0 <= hour_of t <= 23)
  /\
  (forall name dataset path role,
     TimestampFormat (import_request name dataset path role)
     = "yyyy-MM-dd hh:mm:ss"%string)
  /\
  TIMESTAMP_FORMAT <> "yyyy-MM-dd HH:mm:ss"%string.
Proof.
  split; [vm_compute; reflexivity|]. split; [|split].
  - intros t. split; [reflexivity | apply hour_of_range].
  - reflexivity.
  - discriminate.
Qed.

(** * Further properties of the cells *)

Import Names.

(** ** The axis of [date_range] *)

(** X1: for a positive step, the instants of
    [pd.date_range(start, end, freq)] are exactly those between [start]
    and [end] (both included) that lie a whole number of steps after
    [start], each once and in increasing order; so the range is empty
    when [end] is before [start], and [end] itself is an instant only
    when the step divides [end - start]. *)
Theorem date_range_instants (start end_ freq : Z) :
  0 < freq ->
  StronglySorted Z.lt (date_range start end_ freq)
  /\ (forall t : Z,
        In t (date_range start end_ freq)
        <-> start <= t <= end_ /\ (t - start) mod freq = 0)
  /\ (end_ < start -> date_range start end_ freq = [])
  /\ (In end_ (date_range start end_ freq)
      <-> start <= end_ /\ (end_ - start) mod freq = 0).
Proof.
  intros Hf.
  assert (Hin : forall t : Z,
             In t (date_range start end_ freq)
             <-> start <= t <= end_ /\ (t - start) mod freq = 0).
  { intros t. rewrite (date_range_In start end_ freq t Hf). split.
    - intros [Hb [i [Hi Ht]]]. split; [exact Hb|].
      replace (t - start) with (i * freq) by lia.
      apply Z.mod_mul. lia.
    - intros [Hb Hm]. split; [exact Hb|].
      exists ((t - start) / freq). split.
      + apply Z.div_pos; lia.
      + pose proof (Z.div_mod (t - start) freq ltac:(lia)) as Hd.
        rewrite Hm in Hd. lia. }
  split; [apply date_range_sorted|]. split; [exact Hin|]. split.
  - intros Hlt. destruct (date_range start end_ freq) as [|t l].
    + reflexivity.
    + assert (Ht : In t (t :: l)) by (left; reflexivity).
      apply Hin in Ht. lia.
  - rewrite Hin. split; intros [H1 H2]; (split; [lia | exact H2]).
Qed.

Lemma date_range_instants_witness :
  StronglySorted Z.lt (date_range 0 10 4)
  /\ (forall t : Z,
        In t (date_range 0 10 4) <-> 0 <= t <= 10 /\ (t - 0) mod 4 = 0)
  /\ (10 < 0 -> date_range 0 10 4 = [])
  /\ (In 10 (date_range 0 10 4) <-> 0 <= 10 /\ (10 - 0) mod 4 = 0).
Proof. apply (date_range_instants 0 10 4). lia. Defined.

(** ** What the outer join keeps *)

Lemma strongly_sorted_le_app (l1 l2 : list Z) :
  StronglySorted Z.le l1 -> StronglySorted Z.le l2 ->
  (forall x y, In x l1 -> In y l2 -> x <= y) ->
  StronglySorted Z.le (l1 ++ l2).
Proof.
  induction l1 as [|a l1 IH]; intros H1 H2 H; [exact H2|].
  inversion H1 as [|? ? Hs Hf]; subst. simpl. constructor.
  - apply IH; [exact Hs | exact H2 |].
    intros x y Hx Hy. apply H; [right; exact Hx | exact Hy].
  - apply Forall_app. split.
    + exact Hf.
    + apply Forall_forall. intros y Hy. apply H; [left; reflexivity | exact Hy].
Qed.

Lemma flat_map_keys_sorted (f : Z -> list row) (l : list Z) :
  (forall k r, In r (f k) -> fst r = k) ->
  StronglySorted Z.lt l ->
  StronglySorted Z.le (map fst (flat_map f l)).
Proof.
  intros Hk. induction l as [|a l IH]; intros Hs; [constructor|].
  inversion Hs as [|? ? Hs' Hf]; subst. simpl. rewrite map_app.
  apply strongly_sorted_le_app.
  - assert (Ha : forall r, In r (f a) -> fst r = a) by (intros r; apply Hk).
    induction (f a) as [|r rs IHr]; [constructor|].
    simpl. constructor.
    + apply IHr. intros r' Hr'. apply Ha. right. exact Hr'.
    + apply Forall_forall. intros x Hx. apply in_map_iff in Hx.
      destruct Hx as [r' [<- Hr']].
      rewrite (Ha r (or_introl eq_refl)), (Ha r' (or_intror Hr')). lia.
  - apply IH. exact Hs'.
  - intros x y Hx Hy.
    apply in_map_iff in Hx. destruct Hx as [r [<- Hr]].
    apply in_map_iff in Hy. destruct Hy as [r' [<- Hr']].
    apply in_flat_map in Hr'. destruct Hr' as [k [Hkl Hr']].
    rewrite (Hk _ _ Hr), (Hk _ _ Hr').
    rewrite Forall_forall in Hf. specialize (Hf k Hkl). lia.
Qed.

Lemma join_outer_In (idx : list Z) (other : DataFrame) (r : row) :
  In r (rows (join_outer idx other))
  <-> In r (rows other)
      \/ (In (fst r) idx /\ ~ In (fst r) (index other)
          /\ snd r = nan_row (List.length (columns other))).
Proof.
  destruct idx as [|t0 idx'].
  { cbn [join_outer rows]. split; [tauto|]. intros [H|[[] _]]. exact H. }
  rewrite join_outer_rows by discriminate.
  set (ax := t0 :: idx'). rewrite in_flat_map. split.
  - intros [k [Hk Hr]]. unfold joined_rows in Hr.
    destruct (rows_at k (rows other)) as [|r0 m] eqn:E.
    + destruct Hr as [<-|[]]. right. cbn [fst snd].
      apply sorted_union_In in Hk. destruct Hk as [Hk|Hk].
      * split; [exact Hk|]. split; [|reflexivity].
        intros Hin. unfold index in Hin. apply in_map_iff in Hin.
        destruct Hin as [r' [Hf Hr']].
        assert (Hat : In r' (rows_at k (rows other)))
          by (apply rows_at_In; split; assumption).
        rewrite E in Hat. destruct Hat.
      * exfalso. unfold index in Hk. apply in_map_iff in Hk.
        destruct Hk as [r' [Hf Hr']].
        assert (Hat : In r' (rows_at k (rows other)))
          by (apply rows_at_In; split; assumption).
        rewrite E in Hat. destruct Hat.
    + left. rewrite <- E in Hr. apply rows_at_In in Hr. apply Hr.
  - intros [Hr|[Hi [Hn Hs]]].
    + exists (fst r). split.
      * apply sorted_union_In. right. unfold index. apply in_map. exact Hr.
      * rewrite joined_rows_found.
        -- apply rows_at_In. split; [exact Hr | reflexivity].
        -- intros E.
           assert (Hat : In r (rows_at (fst r) (rows other)))
             by (apply rows_at_In; split; [exact Hr | reflexivity]).
           rewrite E in Hat. destruct Hat.
    + exists (fst r). split.
      * apply sorted_union_In. left. exact Hi.
      * rewrite joined_rows_missing by exact Hn.
        left. destruct r as [k cs]. cbn [fst snd] in *. subst cs. reflexivity.
Qed.

Lemma full_historical_index_sorted start end_ freq original_data :
  date_range start end_ freq <> [] ->
  StronglySorted Z.le
    (index (full_historical_df start end_ freq original_data)).
Proof.
  intros Hne. unfold full_historical_df, index.
  rewrite join_outer_rows by exact Hne.
  apply flat_map_keys_sorted.
  - intros k r. apply joined_rows_key.
  - apply sorted_union_sorted.
Qed.

Lemma target_index_sorted start end_ freq lo original_data :
  date_range start end_ freq <> [] ->
  StronglySorted Z.le (index (target_df start end_ freq lo original_data)).
Proof.
  intros Hne. unfold index. rewrite target_rows by exact Hne.
  apply flat_map_keys_sorted.
  - intros k r. apply joined_rows_key.
  - apply sorted_filter. apply sorted_union_sorted.
Qed.

Lemma target_index_In start end_ freq lo original_data (t : Z) :
  In t (index (target_df start end_ freq lo original_data))
  <-> lo <= t
      /\ (In t (date_range start end_ freq)
          \/ In t (index (drop_duplicates original_data))).
Proof.
  destruct (list_eq_dec Z.eq_dec (date_range start end_ freq) [])
    as [He|Hne].
  - unfold index at 1. rewrite target_rows_empty by exact He. rewrite He.
    unfold index. rewrite !in_map_iff. split.
    + intros [r [<- Hr]]. apply filter_In in Hr. destruct Hr as [Hr Hl].
      apply Z.leb_le in Hl. split; [exact Hl|]. right.
      exists r. split; [reflexivity | exact Hr].
    + intros [Hl [[]|[r [<- Hr]]]]. exists r. split; [reflexivity|].
      apply filter_In. split; [exact Hr | apply Z.leb_le; exact Hl].
  - unfold index at 1. rewrite target_rows by exact Hne.
    rewrite flat_map_keys.
    + rewrite filter_In, sorted_union_In, Z.leb_le. tauto.
    + intros k r. apply joined_rows_key.
    + intros k. apply joined_rows_has_row.
Qed.

(** X2: for a positive step, [full_df.join(target_df, how='outer')] loses
    nothing and invents nothing but gaps: every row of the de-duplicated
    data is a row of [full_historical_df], every instant of the axis
    labels one, and a row that does not come from the data is an all-NaN
    row at an instant of the axis for which the data has no row; and when
    the axis has an instant ([start] not after [end]) the labels of the
    result are in non-decreasing order. *)
Theorem full_historical_df_rows (start end_ freq : Z)
    (original_data : DataFrame) :
  0 < freq ->
  let data := drop_duplicates original_data in
  let joined := full_historical_df start end_ freq original_data in
  (forall r : row, In r (rows data) -> In r (rows joined))
  /\ (forall t : Z, In t (date_range start end_ freq) -> In t (index joined))
  /\ (forall r : row,
        In r (rows joined) ->
        In r (rows data)
        \/ (In (fst r) (date_range start end_ freq)
            /\ ~ In (fst r) (index data)
            /\ snd r = nan_row (List.length (columns original_data))))
  /\ (start <= end_ -> StronglySorted Z.le (index joined)).
Proof.
  intros Hf data joined. subst data joined.
  split; [|split; [|split]].
  - intros r Hr. unfold full_historical_df. apply join_outer_In. left.
    exact Hr.
  - intros t Ht. unfold full_historical_df, index.
    rewrite join_outer_rows by (apply (In_not_empty t); exact Ht).
    apply flat_map_keys.
    + intros k r. apply joined_rows_key.
    + intros k. apply joined_rows_has_row.
    + apply sorted_union_In. left. exact Ht.
  - intros r Hr. unfold full_historical_df in Hr.
    apply join_outer_In in Hr. exact Hr.
  - intros Hse. apply full_historical_index_sorted.
    apply date_range_not_empty; assumption.
Qed.

Lemma full_historical_df_rows_witness :
  StronglySorted Z.le
    (index (full_historical_df 0 3 1
              (mkFrame ["traffic_volume"%string]
                 [(2, [Num 1]); (0, [Num 2]); (2, [Num 3]); (5, [Num 4])]))).
Proof.
  apply (proj2 (proj2 (proj2
           (full_historical_df_rows 0 3 1
              (mkFrame ["traffic_volume"%string]
                 [(2, [Num 1]); (0, [Num 2]); (2, [Num 3]);
                  (5, [Num 4])])
              ltac:(lia))))); lia.
Defined.

Lemma join_outer_again (idx : list Z) (other : DataFrame) :
  join_outer idx (join_outer idx other) = join_outer idx other.
Proof.
  apply frame_eq; [reflexivity|].
  destruct idx as [|t0 idx']; [reflexivity|].
  set (ax := t0 :: idx').
  assert (Hax : ax <> []) by discriminate.
  rewrite (join_outer_rows ax (join_outer ax other) Hax).
  cbn [columns].
  set (w := List.length (columns other)).
  set (U := sorted_union ax (index other)).
  assert (HU : StronglySorted Z.lt U) by apply sorted_union_sorted.
  assert (Hkeys : forall k r, In r (joined_rows w (rows other) k) -> fst r = k)
    by (intros k r; apply joined_rows_key).
  assert (Hrows : rows (join_outer ax other)
                  = flat_map (joined_rows w (rows other)) U)
    by (apply join_outer_rows; exact Hax).
  assert (HI : forall k,
             In k (index (join_outer ax other)) <-> In k U).
  { intros k. unfold index. rewrite Hrows.
    apply flat_map_keys; [exact Hkeys|].
    intros k'. apply joined_rows_has_row. }
  assert (HUU : sorted_union ax (index (join_outer ax other)) = U).
  { apply sorted_unique; [apply sorted_union_sorted | exact HU |].
    intros k. rewrite sorted_union_In, HI. unfold U at 1 2.
    rewrite sorted_union_In. tauto. }
  rewrite HUU, Hrows.
  apply flat_map_ext_in. intros k Hk.
  assert (Hat : rows_at k (flat_map (joined_rows w (rows other)) U)
                = joined_rows w (rows other) k).
  { apply rows_at_flat_map; [exact Hkeys | apply sorted_NoDup; exact HU
                            | exact Hk]. }
  unfold joined_rows at 1. rewrite Hat.
  destruct (joined_rows_has_row w (rows other) k) as [r Hr].
  destruct (joined_rows w (rows other) k); [destruct Hr | reflexivity].
Qed.

(** X3: joining [full_historical_df] onto [full_df] once more gives the
    same frame again: the outer join onto the axis is idempotent, so the
    second join, which the related notebook runs on a slice of this
    frame, can add rows only for instants the slice has lost. *)
Theorem join_onto_axis_again (start end_ freq : Z)
    (original_data : DataFrame) :
  join_outer (idx start end_ freq)
    (full_historical_df start end_ freq original_data)
  = full_historical_df start end_ freq original_data.
Proof. unfold full_historical_df. apply join_outer_again. Qed.

(** ** [drop_duplicates] run again, and the values it keeps *)

(** X4: [drop_duplicates(keep='first')] is idempotent: the frame it
    returns has no two rows with the same values, so a second call
    returns it unchanged. *)
Theorem drop_duplicates_again (df : DataFrame) :
  NoDup (map snd (rows (drop_duplicates df)))
  /\ drop_duplicates (drop_duplicates df) = drop_duplicates df.
Proof.
  assert (H : NoDup (map snd (rows (drop_duplicates df)))).
  { unfold drop_duplicates. cbn [rows].
    apply (drop_duplicates_rows_NoDup [] (rows df)). }
  split; [exact H|].
  apply frame_eq; [reflexivity|].
  unfold drop_duplicates at 1. cbn [rows].
  apply drop_duplicates_rows_id; [exact H|].
  intros v Hv [].
Qed.

Lemma drop_duplicates_rows_values seen rs v :
  In v (map snd (drop_duplicates_rows seen rs)) \/ In v seen
  <-> In v (map snd rs) \/ In v seen.
Proof.
  revert seen. induction rs as [|r rs IH]; intros seen; simpl; [tauto|].
  destruct (existsb (cells_eqb (snd r)) seen) eqn:E.
  - apply existsb_cells_In in E. rewrite IH. split; [tauto|].
    intros [[<-|H]|H]; tauto.
  - simpl. specialize (IH (snd r :: seen)). simpl in IH. tauto.
Qed.

Lemma drop_duplicates_rows_length seen rs :
  (List.length (drop_duplicates_rows seen rs) <= List.length rs)%nat.
Proof.
  revert seen. induction rs as [|r rs IH]; intros seen; simpl; [lia|].
  destruct (existsb (cells_eqb (snd r)) seen).
  - specialize (IH seen). lia.
  - simpl. specialize (IH (snd r :: seen)). lia.
Qed.

(** X5: [drop_duplicates] loses no combination of values: the values
    found in the rows of the result are exactly the values found in the
    rows of the frame, the result never has more rows, and it has as many
    exactly when nothing is changed. *)
Theorem drop_duplicates_keeps_every_value (df : DataFrame) :
  (forall v : list cell,
     In v (map snd (rows (drop_duplicates df))) <-> In v (map snd (rows df)))
  /\ (List.length (rows (drop_duplicates df)) <= List.length (rows df))%nat
  /\ (List.length (rows (drop_duplicates df)) = List.length (rows df)
      <-> drop_duplicates df = df).
Proof.
  split; [|split].
  - intros v. unfold drop_duplicates. cbn [rows].
    pose proof (drop_duplicates_rows_values [] (rows df) v) as H.
    simpl in H. tauto.
  - apply drop_duplicates_rows_length.
  - split.
    + intros Hlen. apply frame_eq; [reflexivity|].
      unfold drop_duplicates in *. cbn [rows] in *.
      assert (G : forall seen rs,
                 List.length (drop_duplicates_rows seen rs) = List.length rs ->
                 drop_duplicates_rows seen rs = rs).
      { clear. intros seen rs. revert seen.
        induction rs as [|r rs IH]; intros seen; simpl; [reflexivity|].
        destruct (existsb (cells_eqb (snd r)) seen).
        - intros H. pose proof (drop_duplicates_rows_length seen rs). lia.
        - simpl. intros H. f_equal. apply IH. lia. }
      apply G. exact Hlen.
    + intros ->. reflexivity.
Qed.

(** ** The related frame as a fill of [target_df] *)

Lemma target_columns start end_ freq lo original_data :
  columns (target_df start end_ freq lo original_data)
  = columns original_data.
Proof. reflexivity. Qed.

(** X6: the first cell of the related notebook only fills: joining
    [target_df] onto [full_df] again and slicing it again from the same
    label add and remove no row, so [related_time_series_df] is
    [target_df.replace('', np.nan).ffill()], whatever the data. *)
Theorem related_is_filled_target (start end_ freq lo : Z)
    (original_data : DataFrame) :
  related_time_series_df start end_ freq lo original_data
  = ffill (replace_empty (target_df start end_ freq lo original_data)).
Proof.
  apply frame_eq.
  - rewrite related_columns_kept. reflexivity.
  - rewrite related_rows. reflexivity.
Qed.

(** X7: for a positive step, the labels of [target_df] and of
    [related_time_series_df] are the same list, and a label occurs in it
    exactly when it is not before the first label of the slice and is an
    instant of the axis or the label of a row that [drop_duplicates]
    kept: from that label on no instant of the axis is left without a
    row; when the axis has an instant ([start] not after [end]) the
    labels are in non-decreasing order. *)
Theorem related_labels (start end_ freq lo : Z) (original_data : DataFrame) :
  0 < freq ->
  let related := related_time_series_df start end_ freq lo original_data in
  index related = index (target_df start end_ freq lo original_data)
  /\ (forall t : Z,
        In t (index related)
        <-> lo <= t
            /\ (In t (date_range start end_ freq)
                \/ In t (index (drop_duplicates original_data))))
  /\ (start <= end_ -> StronglySorted Z.le (index related)).
Proof.
  intros Hf related. subst related.
  split; [apply related_index|]. rewrite related_index. split.
  - apply target_index_In.
  - intros Hse. apply target_index_sorted.
    apply date_range_not_empty; assumption.
Qed.

Lemma related_labels_witness :
  StronglySorted Z.le
    (index (related_time_series_df 0 3 1 1
              (mkFrame ["traffic_volume"%string]
                 [(2, [Num 1]); (0, [Num 2]); (2, [Num 3]); (5, [Num 4])]))).
Proof.
  apply (proj2 (proj2
           (related_labels 0 3 1 1
              (mkFrame ["traffic_volume"%string]
                 [(2, [Num 1]); (0, [Num 2]); (2, [Num 3]);
                  (5, [Num 4])])
              ltac:(lia)))); lia.
Defined.

(** ** How many rows the frames have *)

(** X8: the number of rows of [target_df], and of
    [related_time_series_df], is the number of rows kept by
    [drop_duplicates] whose label is not before the first label of the
    slice, plus the number of instants of the axis from that label on for
    which no such row exists; rows with a repeated label, or with a label
    off the axis, are all counted. *)
Theorem related_row_count (start end_ freq lo : Z)
    (original_data : DataFrame) :
  let data := drop_duplicates original_data in
  let rows_kept := filter (fun r => lo <=? fst r) (rows data) in
  let gaps :=
    filter (fun t => (lo <=? t) && negb (existsb (Z.eqb t) (index data)))
      (date_range start end_ freq) in
  List.length (rows (target_df start end_ freq lo original_data))
  = (List.length rows_kept + List.length gaps)%nat
  /\ List.length (rows (related_time_series_df start end_ freq lo
                          original_data))
     = (List.length rows_kept + List.length gaps)%nat.
Proof.
  intros data rows_kept gaps. subst data rows_kept gaps.
  split.
  - apply target_row_count.
  - rewrite related_rows, ffill_rows_length, length_map.
    apply target_row_count.
Qed.

(** ** Values the fill leaves alone, and the fill run again *)

Lemma ffill_rows_keeps prev (rs : list row) (i j : nat) :
  isnull (cell_at i j rs) = false ->
  cell_at i j (ffill_rows prev rs) = cell_at i j rs.
Proof.
  revert prev i. induction rs as [|r rs IH]; intros prev i H.
  - unfold cell_at in H. destruct i, j; discriminate H.
  - destruct i as [|i].
    + unfold cell_at in *. cbn [ffill_rows nth snd] in *.
      destruct (Nat.lt_ge_cases j (List.length (snd r))) as [Hj|Hj].
      * rewrite nth_fill_row by exact Hj. rewrite H. reflexivity.
      * rewrite (nth_overflow _ _ Hj) in H. discriminate H.
    + unfold cell_at in *. cbn [ffill_rows nth] in *.
      apply (IH _ i). exact H.
Qed.

Lemma cell_at_replace (rs : list row) (i j : nat) :
  cell_at i j (map replace_row rs) = replace_cell (cell_at i j rs).
Proof.
  unfold cell_at.
  change (0, @nil cell) with (replace_row (0, @nil cell)) at 1.
  rewrite map_nth. unfold replace_row at 1. cbn [snd].
  change NaN with (replace_cell NaN) at 1. rewrite map_nth. reflexivity.
Qed.

(** X9: the fill never touches a value: a cell of [target_df] that holds
    a value (neither NaN nor the empty text) is found unchanged, at the
    same row and column, in [related_time_series_df]. *)
Theorem known_values_kept (start end_ freq lo : Z)
    (original_data : DataFrame) (i j : nat) :
  holds_value
    (cell_at i j (rows (target_df start end_ freq lo original_data))) = true ->
  cell_at i j (rows (related_time_series_df start end_ freq lo original_data))
  = cell_at i j (rows (target_df start end_ freq lo original_data)).
Proof.
  intros H. rewrite related_rows.
  rewrite ffill_rows_keeps; rewrite cell_at_replace.
  - apply replace_cell_value. exact H.
  - rewrite replace_cell_value by exact H.
    apply holds_value_not_null. exact H.
Qed.

Lemma known_values_kept_witness :
  cell_at 1 0
    (rows (related_time_series_df 0 3 1 0
             (mkFrame ["temp"%string]
                [(0, [Num 100]); (1, [Num 250]); (3, [Str EmptyString])])))
  = cell_at 1 0
      (rows (target_df 0 3 1 0
               (mkFrame ["temp"%string]
                  [(0, [Num 100]); (1, [Num 250]); (3, [Str EmptyString])]))).
Proof. apply known_values_kept. vm_compute. reflexivity. Defined.

Lemma fill_row_again prev cs :
  fill_row prev (fill_row prev cs) = fill_row prev cs.
Proof.
  revert prev. induction cs as [|c cs IH]; intros prev; [reflexivity|].
  destruct prev as [|p prev]; simpl.
  - f_equal. apply IH.
  - f_equal; [|apply IH].
    destruct (isnull c) eqn:E; [|rewrite E; reflexivity].
    destruct (isnull p); reflexivity.
Qed.

Lemma ffill_rows_again prev rs :
  ffill_rows prev (ffill_rows prev rs) = ffill_rows prev rs.
Proof.
  revert prev. induction rs as [|r rs IH]; intros prev; [reflexivity|].
  simpl. rewrite fill_row_again. f_equal. apply IH.
Qed.

(** X10: in [related_time_series_df] no cell is the empty text, and
    running [replace('', np.nan).ffill()] on it once more changes
    nothing: what the fill leaves null, the leading gaps, stays null. *)
Theorem related_fill_again (start end_ freq lo : Z)
    (original_data : DataFrame) :
  let related := related_time_series_df start end_ freq lo original_data in
  (forall (r : row) (c : cell),
     In r (rows related) -> In c (snd r) -> c <> Str EmptyString)
  /\ ffill (replace_empty related) = related.
Proof.
  intros related. subst related.
  assert (H : Forall
                (fun r : row => Forall (fun c => c <> Str EmptyString) (snd r))
                (rows (related_time_series_df start end_ freq lo
                         original_data))).
  { rewrite related_rows. apply ffill_rows_not_empty; [constructor|].
    apply Forall_forall. intros r Hr. apply in_map_iff in Hr.
    destruct Hr as [r' [<- _]]. unfold replace_row. cbn [snd].
    apply Forall_forall. intros c Hc. apply in_map_iff in Hc.
    destruct Hc as [c' [<- _]]. apply replace_cell_not_empty. }
  split.
  - intros r c Hr Hc. rewrite Forall_forall in H. specialize (H r Hr).
    rewrite Forall_forall in H. apply H. exact Hc.
  - apply frame_eq; [reflexivity|].
    unfold ffill, replace_empty. cbn [rows columns].
    replace (map replace_row
               (rows (related_time_series_df start end_ freq lo
                        original_data)))
      with (rows (related_time_series_df start end_ freq lo original_data)).
    + rewrite related_rows. apply ffill_rows_again.
    + symmetry. rewrite <- (map_id (rows _)) at 2.
      apply map_ext_in. intros [k cs] Hr.
      rewrite Forall_forall in H. specialize (H _ Hr). cbn [snd] in H.
      unfold replace_row. cbn [fst snd]. f_equal.
      rewrite <- (map_id cs) at 2. apply map_ext_in. intros c Hc.
      apply replace_cell_id. rewrite Forall_forall in H. apply H. exact Hc.
Qed.

(** ** Slices that follow one another *)

Lemma sorted_slices (u : Z -> bool) (a b : Z) (rs : list row) :
  StronglySorted Z.le (map fst rs) ->
  a <= b + 1 ->
  (forall k, k <= b -> u k = true) ->
  filter (fun r => (a <=? fst r) && (fst r <=? b)) rs
  ++ filter (fun r => (b + 1 <=? fst r) && u (fst r)) rs
  = filter (fun r => (a <=? fst r) && u (fst r)) rs.
Proof.
  intros Hs Hab Hu. induction rs as [|r rs IH]; [reflexivity|].
  cbn [map] in Hs. inversion Hs as [|? ? Hs' Hf]; subst.
  destruct (Z_le_gt_dec (fst r) b) as [Hk|Hk].
  - cbn [filter].
    replace (b + 1 <=? fst r) with false by (symmetry; apply Z.leb_gt; lia).
    replace (fst r <=? b) with true by (symmetry; apply Z.leb_le; lia).
    rewrite (Hu _ Hk). cbn [andb]. rewrite !andb_true_r.
    destruct (a <=? fst r).
    + cbn [app]. f_equal. apply IH. exact Hs'.
    + apply IH. exact Hs'.
  - assert (Hall : forall x : row, In x (r :: rs) -> b < fst x).
    { intros x [<-|Hx]; [lia|].
      rewrite Forall_forall in Hf.
      specialize (Hf (fst x) (in_map fst _ _ Hx)). lia. }
    rewrite filter_none.
    + cbn [app]. apply filter_ext_in. intros x Hx.
      specialize (Hall x Hx).
      replace (b + 1 <=? fst x) with true by (symmetry; apply Z.leb_le; lia).
      replace (a <=? fst x) with true by (symmetry; apply Z.leb_le; lia).
      reflexivity.
    + intros x Hx. specialize (Hall x Hx).
      replace (fst x <=? b) with false by (symmetry; apply Z.leb_gt; lia).
      apply andb_false_r.
Qed.

Lemma target_labels_from start end_ freq lo original_data (r : row) :
  In r (rows (target_df start end_ freq lo original_data)) -> lo <= fst r.
Proof.
  unfold target_df. cbv zeta. unfold loc_from. cbn [rows].
  intros H. apply filter_In in H. destruct H as [_ H].
  apply Z.leb_le. exact H.
Qed.

(** X11: when the axis has an instant (a positive step, and [start] not
    after [end]), the slices by year, [full_historical_df.loc['2013-01-01':
    '2013-12-31']] and the like, cut the frame without loss or overlap: a
    slice that ends at [b] followed by the slice that starts one second
    later is the slice over both, row for row and in the same order,
    repeated labels included. *)
Theorem year_slices_follow (start end_ freq a b c : Z)
    (original_data : DataFrame) :
  0 < freq -> start <= end_ ->
  a <= b + 1 -> b <= c ->
  let joined := full_historical_df start end_ freq original_data in
  rows (loc_between a b joined) ++ rows (loc_between (b + 1) c joined)
  = rows (loc_between a c joined).
Proof.
  intros Hf Hse Hab Hbc joined. unfold loc_between. cbn [rows].
  apply (sorted_slices (fun k => k <=? c)).
  - apply full_historical_index_sorted.
    apply date_range_not_empty; assumption.
  - exact Hab.
  - intros k Hk. apply Z.leb_le. lia.
Qed.

Lemma year_slices_follow_witness :
  let joined :=
    full_historical_df 0 5 1
      (mkFrame ["traffic_volume"%string]
         [(0, [Num 1]); (2, [Num 2]); (2, [Num 3]); (4, [Num 4])]) in
  rows (loc_between 0 1 joined) ++ rows (loc_between (1 + 1) 5 joined)
  = rows (loc_between 0 5 joined).
Proof. apply year_slices_follow; lia. Defined.

(** ** The columns kept and the KeyError *)

Lemma position_None (name : string) (cols : list string) :
  position name cols = None <-> ~ In name cols.
Proof.
  induction cols as [|c cols IH]; simpl; [tauto|].
  destruct (String.eqb name c) eqn:E.
  - apply String.eqb_eq in E. subst c. split; [discriminate | tauto].
  - apply String.eqb_neq in E.
    destruct (position name cols) as [n|]; simpl.
    + split; [discriminate|]. intros H. exfalso.
      assert (Hn : Some n = None) by (apply IH; tauto). discriminate Hn.
    + split; [|reflexivity]. intros _ [H|H]; [congruence|].
      apply (proj1 IH eq_refl). exact H.
Qed.

Lemma positions_None (names cols : list string) :
  positions names cols = None
  <-> exists name, In name names /\ ~ In name cols.
Proof.
  induction names as [|n names IH]; simpl.
  - split; [discriminate | intros [name [[] _]]].
  - destruct (position n cols) as [p|] eqn:P.
    + assert (Hn : In n cols).
      { destruct (in_dec string_dec n cols) as [H|H]; [exact H|].
        apply position_None in H. congruence. }
      destruct (positions names cols) as [ps|].
      * split; [discriminate|]. intros [name [[<-|Hin] Hc]]; [tauto|].
        assert (Hx : Some ps = None) by (apply IH; exists name; tauto).
        discriminate Hx.
      * split; [|reflexivity]. intros _.
        destruct (proj1 IH eq_refl) as [name [Hin Hc]].
        exists name. tauto.
    + split; [|reflexivity]. intros _. exists n. split; [left; reflexivity|].
      apply position_None. exact P.
Qed.

Lemma with_item_ID_None (names : list string) (df : DataFrame) :
  with_item_ID names df = None
  <-> exists name, In name names /\ ~ In name (columns df).
Proof.
  rewrite <- positions_None. unfold with_item_ID, select.
  destruct (positions names (columns df)); simpl.
  - split; discriminate.
  - tauto.
Qed.

(** X12: the frames to be written exist unless a column they keep is
    missing from the data: selecting [['traffic_volume']], or the five
    columns of the related series, raises a KeyError exactly when one of
    the names is not a column of the data set, whatever its rows and
    whatever the bounds of the slices. *)
Theorem export_key_error (start end_ freq lo hi lo' : Z)
    (original_data : DataFrame) :
  (target_time_series_df start end_ freq lo hi original_data = None
   <-> ~ In "traffic_volume"%string (columns original_data))
  /\ (validation_time_series_df start end_ freq lo lo' original_data = None
      <-> ~ In "traffic_volume"%string (columns original_data))
  /\ (related_time_series_export start end_ freq lo original_data = None
      <-> exists name : string,
            In name related_columns /\ ~ In name (columns original_data)).
Proof.
  unfold target_time_series_df, validation_time_series_df,
    related_time_series_export.
  rewrite !with_item_ID_None, related_columns_kept.
  cbn [loc_between loc_from columns].
  rewrite !target_columns.
  assert (H1 : (exists name : string,
                   In name ["traffic_volume"%string]
                   /\ ~ In name (columns original_data))
               <-> ~ In "traffic_volume"%string (columns original_data)).
  { split.
    - intros [name [[<-|[]] H]]. exact H.
    - intros H. exists "traffic_volume"%string.
      split; [left; reflexivity | exact H]. }
  rewrite H1. tauto.
Qed.

(** ** The slices written as target and validation files *)

Lemma with_item_ID_map (names cols : list string) (ps : list nat) :
  positions names cols = Some ps ->
  exists g : row -> row,
    forall rs : list row,
    exists out : DataFrame,
      with_item_ID names (mkFrame cols rs) = Some out
      /\ rows out = map g rs.
Proof.
  intros Hp. unfold with_item_ID, select. cbn [columns rows]. rewrite Hp.
  cbn [option_map]. unfold assign. cbn [columns rows].
  destruct (position "item_ID" names) as [p|].
  - eexists. intros rs. eexists. split; [reflexivity|].
    cbn [rows]. rewrite map_map. reflexivity.
  - eexists. intros rs. eexists. split; [reflexivity|].
    cbn [rows]. rewrite map_map. reflexivity.
Qed.

(** X13: the target and validation files split [target_df] between
    them: when the axis has an instant (a positive step, and [start] not
    after [end]) and the validation slice starts one second after the last
    label of the target slice, the rows of [target_time_series_df]
    followed by those of [validation_time_series_df] are the rows of the
    whole of [target_df] with the same column kept and the same item id,
    no row lost and none written twice; the labels of the first are not
    after the bound, those of the second are after it. *)
Theorem target_and_validation_split (start end_ freq lo hi : Z)
    (original_data target validation : DataFrame) :
  0 < freq -> start <= end_ ->
  lo <= hi + 1 ->
  target_time_series_df start end_ freq lo hi original_data = Some target ->
  validation_time_series_df start end_ freq lo (hi + 1) original_data
  = Some validation ->
  (exists whole : DataFrame,
     with_item_ID ["traffic_volume"%string]
       (target_df start end_ freq lo original_data) = Some whole
     /\ rows target ++ rows validation = rows whole)
  /\ (forall t : Z, In t (index target) -> lo <= t <= hi)
  /\ (forall t : Z, In t (index validation) -> hi < t).
Proof.
  intros Hf Hse Hlo Ht Hv.
  set (T := target_df start end_ freq lo original_data) in *.
  unfold target_time_series_df in Ht. unfold validation_time_series_df in Hv.
  fold T in Ht, Hv.
  destruct (positions ["traffic_volume"%string] (columns T)) as [ps|] eqn:Hp.
  2: { unfold with_item_ID, select in Ht. cbn [loc_between columns] in Ht.
       rewrite Hp in Ht. discriminate Ht. }
  destruct (with_item_ID_map _ _ _ Hp) as [g Hg].
  assert (HT : T = mkFrame (columns T) (rows T)) by (destruct T; reflexivity).
  split; [|split].
  - destruct (Hg (rows T)) as [whole [Hw Hrows]].
    exists whole. split; [rewrite HT; exact Hw|].
    unfold loc_between in Ht. unfold loc_from in Hv.
    destruct (Hg (filter (fun r => (lo <=? fst r) && (fst r <=? hi)) (rows T)))
      as [o1 [H1 R1]].
    destruct (Hg (filter (fun r => hi + 1 <=? fst r) (rows T)))
      as [o2 [H2 R2]].
    rewrite H1 in Ht. injection Ht as <-.
    rewrite H2 in Hv. injection Hv as <-.
    rewrite R1, R2, Hrows, <- map_app. f_equal.
    rewrite (filter_ext (fun r : row => hi + 1 <=? fst r)
               (fun r => (hi + 1 <=? fst r) && (fun _ : Z => true) (fst r)))
      by (intros r; rewrite andb_true_r; reflexivity).
    rewrite (sorted_slices (fun _ => true)).
    + apply filter_all. intros r Hr. rewrite andb_true_r.
      apply Z.leb_le. apply (target_labels_from _ _ _ _ _ r Hr).
    + apply target_index_sorted. apply date_range_not_empty; assumption.
    + exact Hlo.
    + reflexivity.
  - intros t Hin.
    destruct (with_item_ID_last ["traffic_volume"%string] _ _ eq_refl Ht)
      as [_ [Hi _]].
    rewrite Hi in Hin. unfold index, loc_between in Hin. cbn [rows] in Hin.
    apply in_map_iff in Hin. destruct Hin as [r [<- Hr]].
    apply filter_In in Hr. destruct Hr as [_ Hr].
    apply andb_true_iff in Hr. rewrite !Z.leb_le in Hr. exact Hr.
  - intros t Hin.
    destruct (with_item_ID_last ["traffic_volume"%string] _ _ eq_refl Hv)
      as [_ [Hi _]].
    rewrite Hi in Hin. unfold index, loc_from in Hin. cbn [rows] in Hin.
    apply in_map_iff in Hin. destruct Hin as [r [<- Hr]].
    apply filter_In in Hr. destruct Hr as [_ Hr].
    apply Z.leb_le in Hr. lia.
Qed.

Lemma target_and_validation_split_witness :
  let raw :=
    mkFrame ["temp"; "traffic_volume"]%string
      [(0, [Num 1; Num 10]); (1, [Num 2; Num 20]); (3, [Num 3; Num 30])] in
  (exists whole : DataFrame,
     with_item_ID ["traffic_volume"%string] (target_df 0 3 1 0 raw)
     = Some whole
     /\ rows (mkFrame ["traffic_volume"; "item_ID"]%string
                [(0, [Num 10; Str "1"]); (1, [Num 20; Str "1"])])
        ++ rows (mkFrame ["traffic_volume"; "item_ID"]%string
                   [(2, [NaN; Str "1"]); (3, [Num 30; Str "1"])])
        = rows whole)
  /\ (forall t : Z,
        In t (index (mkFrame ["traffic_volume"; "item_ID"]%string
                       [(0, [Num 10; Str "1"]); (1, [Num 20; Str "1"])])) ->
        0 <= t <= 1)
  /\ (forall t : Z,
        In t (index (mkFrame ["traffic_volume"; "item_ID"]%string
                       [(2, [NaN; Str "1"]); (3, [Num 30; Str "1"])])) ->
        1 < t).
Proof.
  intros raw.
  apply (target_and_validation_split 0 3 1 0 1 raw); [lia | lia | lia | | ];
    vm_compute; reflexivity.
Defined.

(** ** A loop without a bound *)

Lemma poll_goes_on arn (statuses : list string) :
  Forall (fun s => keep_polling s = true) statuses ->
  poll arn (map Ok statuses)
  = (flat_map (poll_round arn) statuses, Still_polling).
Proof.
  induction statuses as [|s l IH]; intros H; [reflexivity|].
  inversion H as [|? ? Hs Hl]; subst.
  cbn [map poll]. rewrite Hs, (IH Hl). reflexivity.
Qed.

(** X14: the loop has no bound of its own: as long as the statuses read
    are neither 'ACTIVE' nor 'CREATE_FAILED' it keeps going, with one
    request and one sleep of 30 seconds for each status read, however
    many there are; a job that stays in any other status, 'CREATE_STOPPED'
    for one, is polled for ever. *)
Theorem poll_has_no_bound (arn : string) (statuses : list string) :
  Forall (fun s => s <> "ACTIVE"%string /\ s <> "CREATE_FAILED"%string)
    statuses ->
  exists trace : list event,
    poll arn (map Ok statuses) = (trace, Still_polling)
    /\ trace = flat_map (poll_round arn) statuses
    /\ count is_describe trace = List.length statuses
    /\ count is_sleep trace = List.length statuses.
Proof.
  intros H. exists (flat_map (poll_round arn) statuses).
  split; [|split; [reflexivity|]].
  - apply poll_goes_on. apply Forall_forall. intros s Hs.
    rewrite Forall_forall in H. apply keep_polling_true. apply H. exact Hs.
  - destruct (count_rounds arn statuses) as [H1 [H2 _]]. split; assumption.
Qed.

Lemma poll_has_no_bound_witness :
  exists trace : list event,
    poll "arn:job"
      (map Ok ["CREATE_PENDING"; "CREATE_IN_PROGRESS"; "CREATE_STOPPED";
               "CREATE_STOPPED"]%string)
    = (trace, Still_polling)
    /\ trace
       = flat_map (poll_round "arn:job")
           ["CREATE_PENDING"; "CREATE_IN_PROGRESS"; "CREATE_STOPPED";
            "CREATE_STOPPED"]%string
    /\ count is_describe trace
       = List.length
           ["CREATE_PENDING"; "CREATE_IN_PROGRESS"; "CREATE_STOPPED";
            "CREATE_STOPPED"]%string
    /\ count is_sleep trace
       = List.length
           ["CREATE_PENDING"; "CREATE_IN_PROGRESS"; "CREATE_STOPPED";
            "CREATE_STOPPED"]%string.
Proof.
  apply poll_has_no_bound.
  repeat (apply Forall_cons; [split; discriminate|]). apply Forall_nil.
Defined.

(** ** The names of the resources *)

Lemma all_chars_app (p : ascii -> bool) (a b : string) :
  all_chars p (a ++ b) = all_chars p a && all_chars p b.
Proof.
  induction a as [|c a IH]; [reflexivity|].
  simpl. rewrite IH. apply andb_assoc.
Qed.

Lemma uuid_char_replaced (c : ascii) :
  uuid_char c = true ->
  name_char (if Ascii.eqb c "-" then "_"%char else c) = true.
Proof.
  destruct c as [[] [] [] [] [] [] [] []]; vm_compute;
    solve [reflexivity | discriminate].
Qed.

Lemma replace_char_plain (s : string) :
  all_chars uuid_char s = true ->
  all_chars name_char (replace_char "-" "_" s) = true.
Proof.
  induction s as [|c s IH]; [reflexivity|].
  cbn [all_chars replace_char]. intros H.
  apply andb_true_iff in H. destruct H as [Hc Hs].
  rewrite (uuid_char_replaced c Hc), (IH Hs). reflexivity.
Qed.

Lemma plain_name_app (a b : string) :
  plain_name a = true -> all_chars name_char b = true ->
  plain_name (a ++ b) = true.
Proof.
  destruct a as [|c a]; [discriminate|].
  cbn [plain_name append]. intros Ha Hb.
  apply andb_true_iff in Ha. destruct Ha as [Hc Ha].
  rewrite Hc. cbn [andb].
  change (String c (a ++ b)) with (String c a ++ b)%string.
  rewrite all_chars_app, Ha, Hb. reflexivity.
Qed.

Lemma replace_char_no_old (old new : ascii) (s : string) :
  old <> new -> count_char old (replace_char old new s) = O.
Proof.
  intros Hn. induction s as [|c s IH]; [reflexivity|].
  cbn [replace_char count_char]. rewrite IH.
  destruct (Ascii.eqb c old) eqn:E.
  - destruct (Ascii.eqb new old) eqn:E'; [|reflexivity].
    apply Ascii.eqb_eq in E'. congruence.
  - rewrite E. reflexivity.
Qed.

Lemma count_char_app (c : ascii) (a b : string) :
  count_char c (a ++ b) = (count_char c a + count_char c b)%nat.
Proof.
  induction a as [|x a IH]; [reflexivity|].
  cbn [append count_char]. rewrite IH. lia.
Qed.

(** X15: the names given to the project, the dataset, the dataset
    group, the related dataset, the role and the related import job hold
    no hyphen, whatever text stands for the UUID, since
    [replace("-", "_")] turns each one into an underscore; and for the
    text of a UUID (hexadecimal digits and hyphens) each name is made of
    letters, digits and underscores and starts with a letter. *)
Theorem resource_names_plain (uuid4 : string) :
  (count_char "-" (project uuid4) = O
   /\ count_char "-" (datasetName (project uuid4)) = O
   /\ count_char "-" (datasetGroupName (project uuid4)) = O
   /\ count_char "-" (related_DSN (datasetName (project uuid4))) = O
   /\ count_char "-" (role_name uuid4) = O
   /\ count_char "-" (related_datasetImportJobName uuid4) = O)
  /\ (all_chars uuid_char uuid4 = true ->
      plain_name (project uuid4) = true
      /\ plain_name (datasetName (project uuid4)) = true
      /\ plain_name (datasetGroupName (project uuid4)) = true
      /\ plain_name (related_DSN (datasetName (project uuid4))) = true
      /\ plain_name (role_name uuid4) = true
      /\ plain_name (related_datasetImportJobName uuid4) = true).
Proof.
  assert (Hn : count_char "-" (replace_char "-" "_" uuid4) = O)
    by (apply replace_char_no_old; discriminate).
  split.
  - unfold related_DSN, datasetGroupName, datasetName, project, role_name,
      related_datasetImportJobName.
    rewrite !count_char_app, Hn. repeat split; reflexivity.
  - intros H. apply replace_char_plain in H.
    assert (Hp : plain_name (project uuid4) = true)
      by (unfold project; apply plain_name_app; [reflexivity | exact H]).
    assert (Hd : plain_name (datasetName (project uuid4)) = true)
      by (unfold datasetName; apply plain_name_app; [exact Hp | reflexivity]).
    split; [exact Hp|]. split; [exact Hd|]. split; [|split; [|split]].
    + unfold datasetGroupName. apply plain_name_app; [exact Hp | reflexivity].
    + unfold related_DSN. apply plain_name_app; [exact Hd | reflexivity].
    + unfold role_name. apply plain_name_app; [reflexivity | exact H].
    + unfold related_datasetImportJobName.
      apply plain_name_app; [reflexivity | exact H].
Qed.

Lemma resource_names_plain_witness :
  plain_name (project "44f98ff8-f28e-4be1-8871-0f127c3f3632") = true
  /\ plain_name
       (datasetName (project "44f98ff8-f28e-4be1-8871-0f127c3f3632")) = true
  /\ plain_name
       (datasetGroupName (project "44f98ff8-f28e-4be1-8871-0f127c3f3632"))
     = true
  /\ plain_name
       (related_DSN
          (datasetName (project "44f98ff8-f28e-4be1-8871-0f127c3f3632")))
     = true
  /\ plain_name (role_name "44f98ff8-f28e-4be1-8871-0f127c3f3632") = true
  /\ plain_name
       (related_datasetImportJobName "44f98ff8-f28e-4be1-8871-0f127c3f3632")
     = true.
Proof.
  apply (proj2 (resource_names_plain "44f98ff8-f28e-4be1-8871-0f127c3f3632")).
  reflexivity.
Defined.

(** ** The region read from an ARN *)

Lemma split_from_length (sep : ascii) (field s : string) :
  List.length (split_from sep field s) = S (count_char sep s).
Proof.
  revert field. induction s as [|c s IH]; intros field; [reflexivity|].
  cbn [split_from count_char]. destruct (Ascii.eqb c sep).
  - cbn [List.length]. rewrite IH. reflexivity.
  - rewrite IH. reflexivity.
Qed.

Lemma split_from_last (sep : ascii) (field f : string) :
  count_char sep f = O -> split_from sep field f = [(field ++ f)%string].
Proof.
  revert field. induction f as [|c f IH]; intros field H.
  - cbn [split_from]. rewrite string_app_nil_r. reflexivity.
  - cbn [count_char] in H. cbn [split_from].
    destruct (Ascii.eqb c sep); [discriminate H|].
    rewrite (IH _ H), string_app_assoc. reflexivity.
Qed.

Lemma split_from_field (sep : ascii) (field f rest : string) :
  count_char sep f = O ->
  split_from sep field (f ++ String sep rest)
  = (field ++ f)%string :: split_from sep EmptyString rest.
Proof.
  revert field. induction f as [|c f IH]; intros field H.
  - cbn [append split_from]. rewrite Ascii.eqb_refl, string_app_nil_r.
    reflexivity.
  - cbn [count_char] in H. cbn [append split_from].
    destruct (Ascii.eqb c sep); [discriminate H|].
    rewrite (IH _ H), string_app_assoc. reflexivity.
Qed.

(** X16: [resource_arn.split(':')[3]] raises an IndexError exactly when
    the ARN holds fewer than three colons; otherwise a region is read,
    whatever the text. *)
Theorem region_index_error (resource_arn : string) :
  region resource_arn = None <-> (count_char ":" resource_arn < 3)%nat.
Proof.
  unfold region, split_on. rewrite nth_error_None, split_from_length. lia.
Qed.

(** X17: for an ARN of the form [a:b:c:r] or [a:b:c:r:rest], where the
    first four parts hold no colon, the region read is the fourth part
    [r], the rest taking no part. *)
Theorem region_is_fourth_field (a b c r rest : string) :
  count_char ":" a = O -> count_char ":" b = O -> count_char ":" c = O ->
  count_char ":" r = O ->
  region (a ++ ":" ++ b ++ ":" ++ c ++ ":" ++ r) = Some r
  /\ region (a ++ ":" ++ b ++ ":" ++ c ++ ":" ++ r ++ ":" ++ rest) = Some r.
Proof.
  intros Ha Hb Hc Hr. unfold region, split_on.
  cbn [append].
  split.
  - rewrite (split_from_field ":" EmptyString a _ Ha).
    rewrite (split_from_field ":" EmptyString b _ Hb).
    rewrite (split_from_field ":" EmptyString c _ Hc).
    rewrite (split_from_last ":" EmptyString r Hr). reflexivity.
  - rewrite (split_from_field ":" EmptyString a _ Ha).
    rewrite (split_from_field ":" EmptyString b _ Hb).
    rewrite (split_from_field ":" EmptyString c _ Hc).
    rewrite (split_from_field ":" EmptyString r _ Hr). reflexivity.
Qed.

Lemma region_is_fourth_field_witness :
  region ("arn" ++ ":" ++ "aws" ++ ":" ++ "sts" ++ ":" ++ "us-east-1")
  = Some "us-east-1"%string
  /\ region ("arn" ++ ":" ++ "aws" ++ ":" ++ "sts" ++ ":" ++ "us-east-1"
               ++ ":" ++ "123456789012:assumed-role/x")
     = Some "us-east-1"%string.
Proof. apply region_is_fourth_field; reflexivity. Defined.

(** ** Dates and their text *)

Lemma forallb_range (p : Z -> bool) (n : nat) (z : Z) :
  forallb p (map Z.of_nat (seq 0 n)) = true ->
  0 <= z < Z.of_nat n -> p z = true.
Proof.
  intros H Hz. rewrite forallb_forall in H. apply H.
  apply in_map_iff. exists (Z.to_nat z). split; [lia|].
  apply in_seq. lia.
Qed.

Lemma month_and_day_check :
  forallb
    (fun m =>
       forallb
         (fun d =>
            let mp := (m + 9) mod 12 in
            let doy := (153 * mp + 2) / 5 + d - 1 in
            negb ((1 <=? m) && (1 <=? d)
                  && (d <=? (if m =? 2 then 29 else days_in_month 1 m)))
            || (((5 * doy + 2) / 153 =? mp)
                && (doy - (153 * mp + 2) / 5 + 1 =? d)
                && ((if mp <? 10 then mp + 3 else mp - 9) =? m)
                && (0 <=? doy)
                && ((doy <? 365) || ((m =? 2) && (d =? 29)))))
         (map Z.of_nat (seq 0 32)))
    (map Z.of_nat (seq 0 13))
  = true.
Proof. vm_compute. reflexivity. Qed.

Lemma year_of_era_check :
  forallb
    (fun yoe =>
       forallb
         (fun doy =>
            let doe := yoe * 365 + yoe / 4 - yoe / 100 + doy in
            negb ((doy <? 365) || is_leap (yoe + 1))
            || ((0 <=? doe) && (doe <=? 146096)
                && ((doe - doe / 1460 + doe / 36524 - doe / 146096) / 365
                    =? yoe)))
         (map Z.of_nat (seq 0 366)))
    (map Z.of_nat (seq 0 400))
  = true.
Proof. vm_compute. reflexivity. Qed.

Lemma is_leap_era (era k : Z) : is_leap (era * 400 + k) = is_leap k.
Proof.
  unfold is_leap.
  replace ((era * 400 + k) mod 4) with (k mod 4)
    by (rewrite Z.add_comm; replace (era * 400) with (era * 100 * 4) by lia;
        symmetry; apply Z.mod_add; lia).
  replace ((era * 400 + k) mod 100) with (k mod 100)
    by (rewrite Z.add_comm; replace (era * 400) with (era * 4 * 100) by lia;
        symmetry; apply Z.mod_add; lia).
  replace ((era * 400 + k) mod 400) with (k mod 400)
    by (rewrite Z.add_comm; symmetry; apply Z.mod_add; lia).
  reflexivity.
Qed.

Lemma days_in_month_bound (y m : Z) :
  days_in_month y m <= (if m =? 2 then 29 else days_in_month 1 m).
Proof.
  unfold days_in_month. destruct (m =? 2); [destruct (is_leap y); lia|].
  apply Z.le_refl.
Qed.

Lemma civil_round_trip (y m d : Z) :
  1 <= m <= 12 -> 1 <= d <= days_in_month y m ->
  civil_from_days (days_from_civil y m d) = (y, m, d).
Proof.
  intros Hm Hd.
  set (y' := if m <=? 2 then y - 1 else y).
  set (era := y' / 400). set (yoe := y' - era * 400).
  set (mp := (m + 9) mod 12).
  set (doy := (153 * mp + 2) / 5 + d - 1).
  set (doe := yoe * 365 + yoe / 4 - yoe / 100 + doy).
  assert (Hz : days_from_civil y m d = era * 146097 + doe - 719468)
    by reflexivity.
  assert (Hyoe : 0 <= yoe < 400).
  { unfold yoe, era. pose proof (Z.div_mod y' 400 ltac:(lia)).
    pose proof (Z.mod_pos_bound y' 400 ltac:(lia)). lia. }
  (* month and day *)
  pose proof (forallb_range _ 13 m month_and_day_check ltac:(lia)) as C1.
  cbv beta in C1.
  pose proof (forallb_range _ 32 d C1) as C1'. clear C1.
  assert (Hd31 : 0 <= d < Z.of_nat 32).
  { pose proof (days_in_month_bound y m).
    assert (days_in_month y m <= 31)
      by (unfold days_in_month;
          destruct (m =? 2); [destruct (is_leap y); lia|];
          destruct ((m =? 4) || (m =? 6) || (m =? 9) || (m =? 11)); lia).
    lia. }
  specialize (C1' Hd31). cbv beta zeta in C1'. fold mp in C1'. fold doy in C1'.
  assert (G : (1 <=? m) && (1 <=? d)
              && (d <=? (if m =? 2 then 29 else days_in_month 1 m)) = true).
  { pose proof (days_in_month_bound y m).
    rewrite !andb_true_iff, !Z.leb_le. lia. }
  rewrite G in C1'. cbn [negb orb] in C1'.
  rewrite !andb_true_iff in C1'.
  destruct C1' as [[[[M1 M2] M3] M4] M5].
  apply Z.eqb_eq in M1, M2, M3. apply Z.leb_le in M4.
  (* the year of the era *)
  assert (Hleap : (doy <? 365) || is_leap (yoe + 1) = true).
  { apply orb_true_iff in M5. destruct M5 as [M5|M5].
    - rewrite M5. reflexivity.
    - apply andb_true_iff in M5. destruct M5 as [E2 E29].
      apply Z.eqb_eq in E2, E29. apply orb_true_iff. right.
      assert (Hle : (m <=? 2) = true) by (apply Z.leb_le; lia).
      assert (Hy : y = era * 400 + (yoe + 1)).
      { unfold yoe, y'. rewrite Hle. lia. }
      rewrite <- (is_leap_era era (yoe + 1)), <- Hy.
      unfold days_in_month in Hd.
      rewrite (proj2 (Z.eqb_eq m 2) E2) in Hd.
      destruct (is_leap y); [reflexivity | lia]. }
  assert (Hdoy : 0 <= doy < Z.of_nat 366).
  { apply orb_true_iff in M5. destruct M5 as [M5|M5].
    - apply Z.ltb_lt in M5. lia.
    - apply andb_true_iff in M5. destruct M5 as [E2 E29].
      apply Z.eqb_eq in E2, E29.
      assert (Hmp : mp = 11) by (unfold mp; rewrite E2; reflexivity).
      unfold doy. rewrite Hmp, E29. cbn. lia. }
  pose proof (forallb_range _ 400 yoe year_of_era_check ltac:(lia)) as C2.
  cbv beta in C2.
  pose proof (forallb_range _ 366 doy C2 Hdoy) as C2'. clear C2.
  cbv beta zeta in C2'. fold doe in C2'.
  rewrite Hleap in C2'. cbn [negb orb] in C2'.
  rewrite !andb_true_iff in C2'. destruct C2' as [[D1 D2] D3].
  apply Z.leb_le in D1, D2. apply Z.eqb_eq in D3.
  (* the civil date of the day *)
  rewrite Hz. unfold civil_from_days. cbv zeta.
  replace (era * 146097 + doe - 719468 + 719468) with (era * 146097 + doe)
    by lia.
  replace ((era * 146097 + doe) / 146097) with era
    by (apply (Z.div_unique _ _ era doe); lia).
  replace (era * 146097 + doe - era * 146097) with doe by lia.
  rewrite D3.
  replace (doe - (365 * yoe + yoe / 4 - yoe / 100)) with doy
    by (unfold doe; lia).
  rewrite M1, M2, M3.
  f_equal. f_equal. unfold yoe, y'. destruct (m <=? 2); lia.
Qed.

(** X19: a date and a time of day given as a literal and the text
    written for that instant agree: for a date of the Gregorian calendar
    and a time between 00:00:00 and 23:59:59 the instant is written as
    that year, month and day and that hour, minute and second, on the
    24-hour clock, and it counts as midnight exactly when hour, minute
    and second are all zero. *)
Theorem timestamp_text (y m d hh mi ss : Z) :
  1 <= m <= 12 -> 1 <= d <= days_in_month y m ->
  0 <= hh < 24 -> 0 <= mi < 60 -> 0 <= ss < 60 ->
  format_datetime (timestamp y m d hh mi ss)
  = (pad4 y ++ "-" ++ pad2 m ++ "-" ++ pad2 d ++ " "
       ++ pad2 hh ++ ":" ++ pad2 mi ++ ":" ++ pad2 ss)%string
  /\ format_date (timestamp y m d hh mi ss)
     = (pad4 y ++ "-" ++ pad2 m ++ "-" ++ pad2 d)%string
  /\ (is_midnight (timestamp y m d hh mi ss) = true
      <-> hh = 0 /\ mi = 0 /\ ss = 0).
Proof.
  intros Hm Hd Hh Hmi Hs.
  set (t := timestamp y m d hh mi ss).
  set (days := days_from_civil y m d).
  assert (Ht : t = days * 86400 + (hh * 3600 + mi * 60 + ss))
    by (unfold t, timestamp, days; lia).
  assert (Hday : t / 86400 = days)
    by (symmetry; apply (Z.div_unique _ _ days (hh * 3600 + mi * 60 + ss));
        lia).
  assert (Hsec : t mod 86400 = hh * 3600 + mi * 60 + ss)
    by (symmetry; apply (Z.mod_unique _ _ days); lia).
  assert (Hhour : hour_of t = hh).
  { unfold hour_of. rewrite Hsec. symmetry.
    apply (Z.div_unique _ _ hh (mi * 60 + ss)); lia. }
  assert (Hmin : minute_of t = mi).
  { unfold minute_of.
    replace (t mod 3600) with (mi * 60 + ss)
      by (apply (Z.mod_unique _ _ (days * 24 + hh)); lia).
    symmetry. apply (Z.div_unique _ _ mi ss); lia. }
  assert (Hss : second_of t = ss).
  { unfold second_of. symmetry.
    apply (Z.mod_unique _ _ (days * 1440 + hh * 60 + mi)); lia. }
  assert (Hdate : format_date t
                  = (pad4 y ++ "-" ++ pad2 m ++ "-" ++ pad2 d)%string).
  { unfold format_date. rewrite Hday. unfold days.
    rewrite (civil_round_trip y m d Hm Hd). reflexivity. }
  split; [|split].
  - unfold format_datetime, format_time.
    rewrite Hdate, Hhour, Hmin, Hss.
    rewrite !string_app_assoc. reflexivity.
  - exact Hdate.
  - unfold is_midnight. rewrite Hsec, Z.eqb_eq. lia.
Qed.

Lemma timestamp_text_witness :
  format_datetime (timestamp 2016 2 29 23 59 59)
  = (pad4 2016 ++ "-" ++ pad2 2 ++ "-" ++ pad2 29 ++ " "
       ++ pad2 23 ++ ":" ++ pad2 59 ++ ":" ++ pad2 59)%string
  /\ format_date (timestamp 2016 2 29 23 59 59)
     = (pad4 2016 ++ "-" ++ pad2 2 ++ "-" ++ pad2 29)%string
  /\ (is_midnight (timestamp 2016 2 29 23 59 59) = true
      <-> 23 = 0 /\ 59 = 0 /\ 59 = 0).
Proof. apply timestamp_text; vm_compute; intuition discriminate. Defined.

(** ** The dates printed to validate a slice *)

Lemma fold_min_spec (l : list Z) (t : Z) :
  In (fold_left Z.min l t) (t :: l)
  /\ forall y, In y (t :: l) -> fold_left Z.min l t <= y.
Proof.
  revert t. induction l as [|x l IH]; intros t.
  - cbn. split; [left; reflexivity|]. intros y [<-|[]]. lia.
  - cbn [fold_left]. destruct (IH (Z.min t x)) as [Hin Hle]. split.
    + destruct Hin as [Hin|Hin]; [|right; right; exact Hin].
      rewrite <- Hin. destruct (Z.min_spec t x) as [[_ ->]|[_ ->]];
        [left | right; left]; reflexivity.
    + intros y [<-|[<-|Hy]].
      * specialize (Hle (Z.min t x) (or_introl eq_refl)). lia.
      * specialize (Hle (Z.min t x) (or_introl eq_refl)). lia.
      * apply Hle. right. exact Hy.
Qed.

Lemma fold_max_spec (l : list Z) (t : Z) :
  In (fold_left Z.max l t) (t :: l)
  /\ forall y, In y (t :: l) -> y <= fold_left Z.max l t.
Proof.
  revert t. induction l as [|x l IH]; intros t.
  - cbn. split; [left; reflexivity|]. intros y [<-|[]]. lia.
  - cbn [fold_left]. destruct (IH (Z.max t x)) as [Hin Hle]. split.
    + destruct Hin as [Hin|Hin]; [|right; right; exact Hin].
      rewrite <- Hin. destruct (Z.max_spec t x) as [[_ ->]|[_ ->]];
        [right; left | left]; reflexivity.
    + intros y [<-|[<-|Hy]].
      * specialize (Hle (Z.max t x) (or_introl eq_refl)). lia.
      * specialize (Hle (Z.max t x) (or_introl eq_refl)). lia.
      * apply Hle. right. exact Hy.
Qed.

Lemma index_min_least (df : DataFrame) (x : Z) :
  In x (index df) -> (forall y, In y (index df) -> x <= y) ->
  index_min df = Some x.
Proof.
  unfold index_min. intros Hx Hle.
  destruct (index df) as [|t l]; [destruct Hx|].
  destruct (fold_min_spec l t) as [Hin Hmin]. f_equal.
  specialize (Hle _ Hin). specialize (Hmin _ Hx). lia.
Qed.

Lemma index_max_In (df : DataFrame) (x : Z) :
  In x (index df) ->
  exists t, index_max df = Some t /\ In t (index df) /\ x <= t.
Proof.
  unfold index_max. intros Hx.
  destruct (index df) as [|t l]; [destruct Hx|].
  destruct (fold_max_spec l t) as [Hin Hmax].
  exists (fold_left Z.max l t). split; [reflexivity|].
  split; [exact Hin | apply Hmax; exact Hx].
Qed.

(** X20: the dates printed to validate the slices: when the first label
    asked for is an instant of the axis, [index.min()] of [target_df], of
    [related_time_series_df] and of a slice [.loc[lo:hi]] of [target_df]
    that is not empty by its bounds is that label, and [index.max()] of
    the slice is a label between the two bounds. *)
Theorem validated_dates (start end_ freq lo hi : Z)
    (original_data : DataFrame) :
  In lo (date_range start end_ freq) -> lo <= hi ->
  let target := target_df start end_ freq lo original_data in
  index_min target = Some lo
  /\ index_min (related_time_series_df start end_ freq lo original_data)
     = Some lo
  /\ index_min (loc_between lo hi target) = Some lo
  /\ exists t : Z,
       index_max (loc_between lo hi target) = Some t /\ lo <= t <= hi.
Proof.
  intros Hlo Hhi target. subst target.
  assert (Hin : In lo (index (target_df start end_ freq lo original_data))).
  { apply target_index_In. split; [lia | left; exact Hlo]. }
  assert (Hle : forall y,
             In y (index (target_df start end_ freq lo original_data)) ->
             lo <= y).
  { intros y Hy. apply target_index_In in Hy. tauto. }
  assert (Hs : forall y,
             In y (index (loc_between lo hi
                            (target_df start end_ freq lo original_data)))
             <-> In y (index (target_df start end_ freq lo original_data))
                 /\ y <= hi).
  { intros y. unfold index, loc_between. cbn [rows].
    rewrite !in_map_iff. split.
    - intros [r [<- Hr]]. apply filter_In in Hr. destruct Hr as [Hr Hb].
      apply andb_true_iff in Hb. rewrite !Z.leb_le in Hb.
      split; [exists r; tauto | lia].
    - intros [[r [<- Hr]] Hy]. exists r. split; [reflexivity|].
      apply filter_In. split; [exact Hr|].
      apply andb_true_iff. rewrite !Z.leb_le. split; [|exact Hy].
      apply Hle. apply in_map. exact Hr. }
  split; [|split; [|split]].
  - apply index_min_least; assumption.
  - apply index_min_least; rewrite related_index; assumption.
  - apply index_min_least.
    + apply Hs. split; [exact Hin | exact Hhi].
    + intros y Hy. apply Hs in Hy. apply Hle. tauto.
  - destruct (index_max_In
                (loc_between lo hi
                   (target_df start end_ freq lo original_data)) lo)
      as [t [Ht [Hti Hlt]]].
    + apply Hs. split; [exact Hin | exact Hhi].
    + exists t. split; [exact Ht|]. apply Hs in Hti. lia.
Qed.

Lemma validated_dates_witness :
  let raw := mkFrame ["traffic_volume"%string] [(5, [Num 1]); (7, [Num 2])] in
  let target := target_df 0 10 2 4 raw in
  index_min target = Some 4
  /\ index_min (related_time_series_df 0 10 2 4 raw) = Some 4
  /\ index_min (loc_between 4 7 target) = Some 4
  /\ exists t : Z, index_max (loc_between 4 7 target) = Some t /\ 4 <= t <= 7.
Proof.
  intros raw. apply (validated_dates 0 10 2 4 7 raw); [|lia].
  vm_compute. tauto.
Defined.

(** ** The rows shown as holding nulls *)

Lemma ffill_rows_null_prefix (w : nat) (rs : list row) :
  rows_width w rs ->
  forall prev,
  exists k : nat,
    filter row_has_null (ffill_rows prev rs) = firstn k (ffill_rows prev rs)
    /\ forallb (fun r => negb (row_has_null r))
         (skipn k (ffill_rows prev rs)) = true.
Proof.
  intros Hw. induction Hw as [|r rs Hr Hrs IH]; intros prev.
  - exists O. split; reflexivity.
  - cbn [ffill_rows].
    set (o := fill_row prev (snd r)).
    assert (Ho : List.length o = w)
      by (unfold o; rewrite fill_row_length; exact Hr).
    destruct (row_has_null (fst r, o)) eqn:E.
    + destruct (IH o) as [k [Hk1 Hk2]]. exists (S k).
      cbn [filter firstn skipn]. rewrite E, Hk1. split; [reflexivity|].
      exact Hk2.
    + assert (Hc : forallb (fun r => negb (row_has_null r))
                     (ffill_rows o rs) = true)
        by (apply (ffill_rows_complete w); [exact Hrs | exact Ho | exact E]).
      exists O. cbn [filter firstn skipn forallb]. rewrite E.
      split; [|exact Hc].
      apply filter_none. intros x Hx. rewrite forallb_forall in Hc.
      apply negb_true_iff. apply Hc. exact Hx.
Qed.

(** X21: the rows of [related_time_series_df] shown as holding a null
    are a leading stretch of the frame: once a row is complete, every
    later row is; so after the fill nulls are found only before the first
    complete row. *)
Theorem null_rows_lead (start end_ freq lo : Z) (original_data : DataFrame) :
  well_formed original_data ->
  let related := related_time_series_df start end_ freq lo original_data in
  exists k : nat,
    rows (null_rows related) = firstn k (rows related)
    /\ forall r : row, In r (skipn k (rows related)) -> row_has_null r = false.
Proof.
  intros Hw related. subst related.
  unfold null_rows. cbn [rows]. rewrite related_rows.
  destruct (ffill_rows_null_prefix (List.length (columns original_data))
              (map replace_row
                 (rows (target_df start end_ freq lo original_data))))
    with (prev := @nil cell) as [k [H1 H2]].
  - apply rows_width_replace.
    apply (well_formed_target_df start end_ freq lo original_data Hw).
  - exists k. split; [exact H1|]. intros r Hr.
    rewrite forallb_forall in H2. apply negb_true_iff. apply H2. exact Hr.
Qed.

Lemma null_rows_lead_witness :
  let raw :=
    mkFrame ["temp"; "traffic_volume"]%string
      [(1, [NaN; Num 10]); (2, [Num 5; Str EmptyString]); (4, [NaN; Num 30])] in
  let related := related_time_series_df 0 4 1 0 raw in
  exists k : nat,
    rows (null_rows related) = firstn k (rows related)
    /\ forall r : row, In r (skipn k (rows related)) -> row_has_null r = false.
Proof.
  intros raw. apply (null_rows_lead 0 4 1 0 raw).
  repeat (apply Forall_cons; [reflexivity|]). apply Forall_nil.
Defined.

(** ** The target file is not filled *)

Lemma nth_nan_row (p w : nat) : nth p (nan_row w) NaN = NaN.
Proof.
  unfold nan_row. revert p. induction w as [|w IH]; intros [|p];
    try reflexivity. cbn. apply IH.
Qed.

Lemma traffic_volume_rows (df out : DataFrame) :
  with_item_ID ["traffic_volume"%string] df = Some out ->
  exists p : nat,
    position "traffic_volume" (columns df) = Some p
    /\ rows out
       = map (fun r => (fst r, [nth p (snd r) NaN; Str "1"])) (rows df).
Proof.
  unfold with_item_ID, select. cbn [positions].
  destruct (position "traffic_volume" (columns df)) as [p|];
    [|discriminate].
  cbn [option_map]. intros H. injection H as <-.
  exists p. split; [reflexivity|].
  unfold assign. cbn [columns rows position String.eqb Ascii.eqb Bool.eqb
                      option_map].
  rewrite map_map. reflexivity.
Qed.

(** X22: the target and validation files are written from [target_df]
    as the join left it, the forward fill of the notebook being dropped:
    every instant of the axis inside the slice for which the
    de-duplicated data has no row is a row of the frame written, with a
    missing value and the item id "1". *)
Theorem target_rows_keep_gaps (start end_ freq lo hi lo' t : Z)
    (original_data : DataFrame) :
  In t (date_range start end_ freq) ->
  ~ In t (index (drop_duplicates original_data)) ->
  lo <= t ->
  (forall target : DataFrame,
     target_time_series_df start end_ freq lo hi original_data = Some target ->
     t <= hi -> In (t, [NaN; Str "1"]) (rows target))
  /\ (forall validation : DataFrame,
        validation_time_series_df start end_ freq lo lo' original_data
        = Some validation ->
        lo' <= t -> In (t, [NaN; Str "1"]) (rows validation)).
Proof.
  intros Ht Hn Hlo.
  set (w := List.length (columns original_data)).
  assert (Hrow : In (t, nan_row w)
                   (rows (target_df start end_ freq lo original_data))).
  { rewrite target_rows by (apply (In_not_empty t); exact Ht).
    apply in_flat_map. exists t. split.
    - apply filter_In. split; [|apply Z.leb_le; exact Hlo].
      apply sorted_union_In. left. exact Ht.
    - rewrite joined_rows_missing by exact Hn. left. reflexivity. }
  split.
  - intros target H Hhi.
    destruct (traffic_volume_rows _ _ H) as [p [_ ->]].
    apply in_map_iff. exists (t, nan_row w). cbn [fst snd].
    rewrite nth_nan_row. split; [reflexivity|].
    unfold loc_between. cbn [rows]. apply filter_In. split; [exact Hrow|].
    cbn [fst]. apply andb_true_iff. rewrite !Z.leb_le. lia.
  - intros validation H Hlo'.
    destruct (traffic_volume_rows _ _ H) as [p [_ ->]].
    apply in_map_iff. exists (t, nan_row w). cbn [fst snd].
    rewrite nth_nan_row. split; [reflexivity|].
    unfold loc_from. cbn [rows]. apply filter_In. split; [exact Hrow|].
    cbn [fst]. apply Z.leb_le. exact Hlo'.
Qed.

Lemma target_rows_keep_gaps_witness :
  let raw :=
    mkFrame ["temp"; "traffic_volume"]%string
      [(0, [Num 1; Num 10]); (1, [Num 2; Num 20]); (3, [Num 3; Num 30])] in
  (forall target : DataFrame,
     target_time_series_df 0 3 1 0 2 raw = Some target ->
     2 <= 2 -> In (2, [NaN; Str "1"]) (rows target))
  /\ (forall validation : DataFrame,
        validation_time_series_df 0 3 1 0 2 raw = Some validation ->
        2 <= 2 -> In (2, [NaN; Str "1"]) (rows validation)).
Proof.
  intros raw. apply (target_rows_keep_gaps 0 3 1 0 2 2 2 raw).
  - vm_compute. tauto.
  - vm_compute. intros [H|[H|[H|[]]]]; discriminate H.
  - lia.
Defined.
